(** * Claude Code API server: the subprocess execution core

    A shallow embedding of [claude-executor.js], [claude-executor-streaming.js]
    and of the parts of [server.js] and [middleware.js] that call them,
    together with the properties of the execution core.

    Layout:
    - [JS]      : the JavaScript values the code manipulates (JSON data plus
                  [undefined]), with the host operations the source relies on
                  (truthiness, property access, [ToString], [Array#join],
                  [+], [String#split], [String#trim], [JSON.stringify]);
    - [Json]    : an executable reference instance of [JSON.parse];
    - [Executor]: the buffered executor (argument vector, stdin payload,
                  process life cycle with its timers, response conversion);
    - [Streaming]: the streaming executor (per-chunk stdout handler, exit and
                  disconnect handlers);
    - [Server]  : request validation and the Anthropic re-projection. *)

From Stdlib Require Import ZArith List String Ascii Bool Lia.
From Stdlib Require Import Numbers.DecimalString.
Import ListNotations.

Set Warnings "-register-all".

Open Scope string_scope.
Open Scope Z_scope.

(* ================================================================== *)
(** ** JavaScript values and host operations *)
(* ================================================================== *)

Module JS.

(** Strings are sequences of bytes: the UTF-8 encoding of the JavaScript
    string (the texts the code handles come from decoding UTF-8 and are
    written back as UTF-8). Numbers are the integer-valued doubles together
    with [NaN]: [VNum n] stands for the double whose value is [n]; numbers
    with a fractional part have no value here. An object is the list of its
    own properties in the order in which the engine enumerates them (the
    integer-like keys first, in ascending order, then the others in the
    order of their creation), each key once. *)
Inductive value : Type :=
| VUndef
| VNull
| VBool (b : bool)
| VNum (n : Z)
| VNaN
| VStr (s : string)
| VArr (xs : list value)
| VObj (fields : list (string * value)).

(** Exceptions: the two the host raises on the paths of interest, and the
    plain [Error] objects the source constructs itself. *)
Inductive exn : Type :=
| TypeError
| SyntaxError (msg : string)
| Error (msg : string).

Inductive result (A : Type) : Type :=
| Ok (a : A)
| Throw (e : exn).

Arguments Ok {A} a.
Arguments Throw {A} e.

Definition bind {A B : Type} (m : result A) (k : A -> result B) : result B :=
  match m with
  | Ok a => k a
  | Throw e => Throw e
  end.

Notation "x <- m ;; k" := (bind m (fun x => k))
  (at level 61, m at next level, right associativity).

Definition nl : string := String "010"%char EmptyString.
Definition dquote : string := String "034"%char EmptyString.

Definition is_empty (s : string) : bool :=
  match s with
  | EmptyString => true
  | String _ _ => false
  end.

(** [ToBoolean]. *)
Definition truthy (v : value) : bool :=
  match v with
  | VUndef | VNull | VNaN => false
  | VBool b => b
  | VNum n => negb (n =? 0)
  | VStr s => negb (is_empty s)
  | VArr _ | VObj _ => true
  end.

(** [a || b] *)
Definition or_else (a b : value) : value := if truthy a then a else b.

Fixpoint lookup (k : string) (fields : list (string * value)) : value :=
  match fields with
  | [] => VUndef
  | (k', v) :: rest => if String.eqb k k' then v else lookup k rest
  end.

Definition nullish (v : value) : bool :=
  match v with
  | VUndef | VNull => true
  | _ => false
  end.

(** [v.k] for the property names the source reads ([result], [content],
    [text], [message], [usage], [type], [role], ...): none of them is
    defined on the prototypes of primitives or arrays, so only own
    properties of objects answer; reading a property of [undefined] or
    [null] raises [TypeError]. *)
Definition get (v : value) (k : string) : result value :=
  match v with
  | VUndef | VNull => Throw TypeError
  | VObj fields => Ok (lookup k fields)
  | _ => Ok VUndef
  end.

(** [v?.k] *)
Definition get_opt (v : value) (k : string) : value :=
  match v with
  | VObj fields => lookup k fields
  | _ => VUndef
  end.

Definition string_of_Z (n : Z) : string :=
  NilEmpty.string_of_int (Z.to_int n).

(** The double nearest to an integer (ties to the even mantissa): the
    integers up to 2^53 in magnitude are doubles; beyond, a double has 53
    significant bits. (Magnitudes of 2^1024 and more, which the host turns
    into [Infinity], are outside the values modelled.) *)
Definition round_double (z : Z) : Z :=
  let a := Z.abs z in
  if a <=? 2 ^ 53 then z
  else
    let e := Z.log2 a - 52 in
    let q := Z.shiftr a e in
    let r := a - Z.shiftl q e in
    let half := Z.shiftl 1 (e - 1) in
    let q' := if (half <? r) || ((r =? half) && Z.odd q) then q + 1 else q in
    Z.sgn z * Z.shiftl q' e.

(** *** [Number::toString]

    The text of a number is made of the fewest decimal digits [s] that
    still denote the same double [s * 10^e] (of several such, the nearest),
    followed by zeros when the number is below 10^21, and in exponent
    notation [d.ddde+x] from there on. An integer up to 2^53 in magnitude
    prints as it is. *)
Definition denotes (a s e : Z) : bool := round_double (s * 10 ^ e) =? a.

(** The search for the digits, from [k] digits up; [d] is the number of
    digits of [a]. *)
Fixpoint shortest (fuel : nat) (k a d : Z) : Z * Z :=
  match fuel with
  | O => (a, 0)
  | S fuel' =>
      let e := d - k in
      let lo := a / 10 ^ e in
      let hi := lo + 1 in
      if denotes a lo e && denotes a hi e then
        if a - lo * 10 ^ e <? hi * 10 ^ e - a then (lo, e)
        else if hi * 10 ^ e - a <? a - lo * 10 ^ e then (hi, e)
        else if Z.even lo then (lo, e) else (hi, e)
      else if denotes a lo e then (lo, e)
      else if denotes a hi e then (hi, e)
      else shortest fuel' (k + 1) a d
  end.

Fixpoint zeros (k : nat) : string :=
  match k with
  | O => EmptyString
  | S k' => String "0" (zeros k')
  end.

(** The text of a double above 2^53. *)
Definition magnitude_text (a : Z) : string :=
  let d := Z.of_nat (String.length (string_of_Z a)) in
  let (s0, e0) := shortest 17 1 a d in
  let s := if s0 mod 10 =? 0 then s0 / 10 else s0 in
  let e := if s0 mod 10 =? 0 then e0 + 1 else e0 in
  let digits := string_of_Z s in
  let n := e + Z.of_nat (String.length digits) in
  if n <=? 21 then digits ++ zeros (Z.to_nat e)
  else
    let x := string_of_Z (n - 1) in
    match digits with
    | String c EmptyString => String c ("e+" ++ x)
    | String c rest => String c ("." ++ rest ++ "e+" ++ x)
    | EmptyString => EmptyString
    end.

Definition number_text (n : Z) : string :=
  if Z.abs n <=? 9007199254740992 then string_of_Z n
  else (if n <? 0 then "-" else EmptyString) ++ magnitude_text (Z.abs n).

Arguments number_text n : simpl nomatch.


(** *** [ToString]

    [ToString] is what template literals, [+] with a string and [Array#join]
    apply. On an object it goes through [OrdinaryToPrimitive]: the method
    [toString] is called if it is callable, else [valueOf], and a
    [TypeError] is raised when neither gives a primitive. For the plain data
    the code handles (parsed from JSON) this means: an object without an own
    property [toString] answers ["[object Object]"] through
    [Object.prototype.toString]; an object with one raises [TypeError],
    since the property holds data, which is not callable, and
    [Object.prototype.valueOf] returns the object itself; an array answers
    through [join], which converts its elements in turn. *)

Definition has_own (k : string) (fields : list (string * value)) : bool :=
  existsb (fun kv => String.eqb k (fst kv)) fields.

(** The values on which [ToString] returns. *)
Fixpoint printable (v : value) : bool :=
  match v with
  | VArr xs => forallb printable xs
  | VObj fields => negb (has_own "toString" fields)
  | _ => true
  end.

(** The string [ToString] returns, where it returns. *)
Fixpoint text_of (v : value) : string :=
  match v with
  | VUndef => "undefined"
  | VNull => "null"
  | VBool true => "true"
  | VBool false => "false"
  | VNum n => number_text n
  | VNaN => "NaN"
  | VStr s => s
  | VArr xs =>
      String.concat ","
        (map (fun x => if nullish x then EmptyString else text_of x) xs)
  | VObj _ => "[object Object]"
  end.

Definition to_string (v : value) : result string :=
  if printable v then Ok (text_of v) else Throw TypeError.

(** What an element contributes to [join]: nothing when it is [undefined]
    or [null], its string otherwise. *)
Definition elem_text (x : value) : string :=
  if nullish x then EmptyString else text_of x.

(** [xs.join(sep)] *)
Definition join (sep : string) (xs : list value) : result string :=
  if forallb printable xs then Ok (String.concat sep (map elem_text xs))
  else Throw TypeError.

Definition is_array (v : value) : bool :=
  match v with
  | VArr _ => true
  | _ => false
  end.

Definition is_string (v : value) : bool :=
  match v with
  | VStr _ => true
  | _ => false
  end.

(** [v === s] for a string literal [s] *)
Definition eq_str (v : value) (s : string) : bool :=
  match v with
  | VStr s' => String.eqb s' s
  | _ => false
  end.

(** [ToNumber] on the values that are not turned into strings by [+];
    [None] stands for [NaN]. *)
Definition to_number (v : value) : option Z :=
  match v with
  | VNull => Some 0
  | VBool true => Some 1
  | VBool false => Some 0
  | VNum n => Some n
  | _ => None
  end.

Definition stringy (v : value) : bool :=
  match v with
  | VStr _ | VArr _ | VObj _ => true
  | _ => false
  end.

(** [a + b]: both operands are made primitive (an object or array through
    [ToString], which may raise); if one is then a string the two strings
    are concatenated, else the two numbers are added as doubles. *)
Definition add (a b : value) : result value :=
  if stringy a || stringy b then
    sa <- to_string a ;;
    sb <- to_string b ;;
    Ok (VStr (sa ++ sb))
  else
    Ok (match to_number a, to_number b with
        | Some x, Some y => VNum (round_double (x + y))
        | _, _ => VNaN
        end).

(** [s.split(c)]: never empty, the last piece is what follows the last
    separator. *)
Fixpoint split (c : ascii) (s : string) : list string :=
  match s with
  | EmptyString => [EmptyString]
  | String a rest =>
      if Ascii.eqb a c then EmptyString :: split c rest
      else match split c rest with
           | [] => [String a EmptyString]
           | l :: ls => String a l :: ls
           end
  end.

(** *** [String#trim]

    [trim] removes the white space and the line terminators of ECMAScript
    from both ends: U+0009 to U+000D, U+0020, U+00A0, U+1680, U+2000 to
    U+200A, U+2028, U+2029, U+202F, U+205F, U+3000 and U+FEFF, here in
    their UTF-8 encoding. *)
Definition is_space (a : ascii) : bool :=
  let n := nat_of_ascii a in
  ((9 <=? n) && (n <=? 13))%nat || (n =? 32)%nat.

(** The third byte of U+2000 to U+200A, U+2028, U+2029 and U+202F, after
    the bytes 226 and 128. *)
Definition is_space_e280 (a : ascii) : bool :=
  let n := nat_of_ascii a in
  ((128 <=? n) && (n <=? 138))%nat
  || (n =? 168)%nat || (n =? 169)%nat || (n =? 175)%nat.

(** The string after its first character, when that is white space. *)
Definition space_prefix (s : string) : option string :=
  match s with
  | String a rest =>
      if is_space a then Some rest
      else
        match rest with
        | String b r =>
            if (nat_of_ascii a =? 194)%nat && (nat_of_ascii b =? 160)%nat
            then Some r
            else
              match r with
              | String c r' =>
                  let x := nat_of_ascii a in
                  let y := nat_of_ascii b in
                  let z := nat_of_ascii c in
                  if ((x =? 225) && (y =? 154) && (z =? 128))%nat
                     || ((x =? 226)%nat && (y =? 128)%nat && is_space_e280 c)
                     || ((x =? 226) && (y =? 129) && (z =? 159))%nat
                     || ((x =? 227) && (y =? 128) && (z =? 128))%nat
                     || ((x =? 239) && (y =? 187) && (z =? 191))%nat
                  then Some r' else None
              | EmptyString => None
              end
        | EmptyString => None
        end
  | EmptyString => None
  end.

(** The same from the end, on the reversed string. *)
Definition space_suffix (s : string) : option string :=
  match s with
  | String a rest =>
      if is_space a then Some rest
      else
        match rest with
        | String b r =>
            if (nat_of_ascii a =? 160)%nat && (nat_of_ascii b =? 194)%nat
            then Some r
            else
              match r with
              | String c r' =>
                  match space_prefix (String c (String b (String a EmptyString))) with
                  | Some EmptyString => Some r'
                  | _ => None
                  end
              | EmptyString => None
              end
        | EmptyString => None
        end
  | EmptyString => None
  end.

Fixpoint strip (prefix_of : string -> option string) (fuel : nat) (s : string)
  : string :=
  match fuel with
  | O => s
  | S fuel' =>
      match prefix_of s with
      | Some rest => strip prefix_of fuel' rest
      | None => s
      end
  end.

Fixpoint rev_onto (acc s : string) : string :=
  match s with
  | EmptyString => acc
  | String a rest => rev_onto (String a acc) rest
  end.

Definition ltrim (s : string) : string := strip space_prefix (String.length s) s.

Definition rtrim (s : string) : string :=
  let r := rev_onto EmptyString s in
  rev_onto EmptyString (strip space_suffix (String.length r) r).

Definition trim (s : string) : string := rtrim (ltrim s).

(** *** [JSON.stringify] *)

Definition hex_digit (n : nat) : ascii :=
  if (n <? 10)%nat then ascii_of_nat (48 + n) else ascii_of_nat (87 + n).

Definition escape_char (a : ascii) : string :=
  let n := nat_of_ascii a in
  if (n =? 34)%nat then String "092"%char dquote
  else if (n =? 92)%nat then String "092"%char (String "092"%char EmptyString)
  else if (n =? 8)%nat then String "092"%char "b"
  else if (n =? 12)%nat then String "092"%char "f"
  else if (n =? 10)%nat then String "092"%char "n"
  else if (n =? 13)%nat then String "092"%char "r"
  else if (n =? 9)%nat then String "092"%char "t"
  else if (n <? 32)%nat then
    String "092"%char
      (String "u" (String "0" (String "0"
         (String (hex_digit (n / 16)) (String (hex_digit (n mod 16)) EmptyString)))))
  else String a EmptyString.

Fixpoint escape (s : string) : string :=
  match s with
  | EmptyString => EmptyString
  | String a rest => escape_char a ++ escape rest
  end.

Definition quote (s : string) : string := dquote ++ escape s ++ dquote.

(** [JSON.stringify(v)] for a value other than [undefined]: inside an array
    [undefined] and [NaN] print as [null], inside an object a property whose
    value is [undefined] is left out. *)
Fixpoint stringify (v : value) : string :=
  match v with
  | VUndef | VNull | VNaN => "null"
  | VBool true => "true"
  | VBool false => "false"
  | VNum n => number_text n
  | VStr s => quote s
  | VArr xs => "[" ++ String.concat "," (map stringify xs) ++ "]"
  | VObj fields =>
      "{" ++
      String.concat ","
        ((fix members (fs : list (string * value)) : list string :=
            match fs with
            | [] => []
            | (k, VUndef) :: rest => members rest
            | (k, x) :: rest => (quote k ++ ":" ++ stringify x) :: members rest
            end) fields)
      ++ "}"
  end.

End JS.

(* ================================================================== *)
(** ** A reference [JSON.parse] *)
(* ================================================================== *)

(** The executors are parametric in the host's [JSON.parse]; this module
    gives an executable instance used to run them on the concrete texts of
    the examples. It follows the JSON grammar on texts whose numbers are
    integers, whose strings have no [\u] escape and whose keys are not
    integer-like; on a text with a fraction, an exponent or a [\u] escape it
    fails where the host parses, and the message of its [SyntaxError] is not
    the host's. No statement below depends on either. *)
Module Json.
Import JS.

Definition is_ws (a : ascii) : bool :=
  let n := nat_of_ascii a in
  (n =? 32)%nat || (n =? 9)%nat || (n =? 10)%nat || (n =? 13)%nat.

Fixpoint skip_ws (s : string) : string :=
  match s with
  | EmptyString => EmptyString
  | String a rest => if is_ws a then skip_ws rest else s
  end.

Definition is_digit (a : ascii) : bool :=
  let n := nat_of_ascii a in ((48 <=? n) && (n <=? 57))%nat.

Definition digit_val (a : ascii) : Z := Z.of_nat (nat_of_ascii a) - 48.

Fixpoint digits (acc : Z) (s : string) : Z * string :=
  match s with
  | EmptyString => (acc, s)
  | String a rest =>
      if is_digit a then digits (10 * acc + digit_val a) rest else (acc, s)
  end.

Definition starts_frac_or_exp (s : string) : bool :=
  match s with
  | String a _ =>
      let n := nat_of_ascii a in
      (n =? 46)%nat || (n =? 101)%nat || (n =? 69)%nat
  | EmptyString => false
  end.

(** [int] of the grammar: [0], or a non-zero digit followed by digits. *)
Definition parse_nat (s : string) : option (Z * string) :=
  match s with
  | String a rest =>
      if is_digit a then
        let '(n, r) :=
          if (nat_of_ascii a =? 48)%nat then (0, rest)
          else digits (digit_val a) rest in
        if starts_frac_or_exp r then None else Some (n, r)
      else None
  | EmptyString => None
  end.

Definition parse_number (s : string) : option (value * string) :=
  match s with
  | String "-" rest =>
      match parse_nat rest with
      | Some (n, r) => Some (VNum (round_double (- n)), r)
      | None => None
      end
  | _ =>
      match parse_nat s with
      | Some (n, r) => Some (VNum (round_double n), r)
      | None => None
      end
  end.

Definition unescape (a : ascii) : option ascii :=
  match a with
  | "034"%char => Some "034"%char
  | "092"%char => Some "092"%char
  | "/"%char => Some "/"%char
  | "b"%char => Some "008"%char
  | "f"%char => Some "012"%char
  | "n"%char => Some "010"%char
  | "r"%char => Some "013"%char
  | "t"%char => Some "009"%char
  | _ => None
  end.

(** The body of a string, after its opening quote. *)
Fixpoint parse_string (s : string) : option (string * string) :=
  match s with
  | EmptyString => None
  | String a rest =>
      if (nat_of_ascii a =? 34)%nat then Some (EmptyString, rest)
      else if (nat_of_ascii a =? 92)%nat then
        match rest with
        | String e rest' =>
            match unescape e, parse_string rest' with
            | Some c, Some (str, r) => Some (String c str, r)
            | _, _ => None
            end
        | EmptyString => None
        end
      else if (nat_of_ascii a <? 32)%nat then None
      else match parse_string rest with
           | Some (str, r) => Some (String a str, r)
           | None => None
           end
  end.

Definition expect (lit : string) (s : string) (v : value)
  : option (value * string) :=
  if prefix lit s
  then Some (v, substring (String.length lit) (String.length s - String.length lit) s)
  else None.

(** A repeated key keeps its first position and takes the last value. *)
Fixpoint set_field (k : string) (v : value) (fields : list (string * value))
  : list (string * value) :=
  match fields with
  | [] => [(k, v)]
  | (k', v') :: rest =>
      if String.eqb k k' then (k', v) :: rest
      else (k', v') :: set_field k v rest
  end.

Definition build_object (members : list (string * value)) : value :=
  VObj (fold_left (fun acc kv => set_field (fst kv) (snd kv) acc) members []).

Fixpoint parse_value (fuel : nat) (s : string) {struct fuel}
  : option (value * string) :=
  match fuel with
  | O => None
  | S fuel' =>
      match skip_ws s with
      | String "n" r => expect "ull" r VNull
      | String "t" r => expect "rue" r (VBool true)
      | String "f" r => expect "alse" r (VBool false)
      | String "034" r =>
          match parse_string r with
          | Some (str, r') => Some (VStr str, r')
          | None => None
          end
      | String "[" r =>
          match skip_ws r with
          | String "]" r' => Some (VArr [], r')
          | r1 =>
              match parse_elems fuel' r1 with
              | Some (vs, r') => Some (VArr vs, r')
              | None => None
              end
          end
      | String "{" r =>
          match skip_ws r with
          | String "}" r' => Some (VObj [], r')
          | r1 =>
              match parse_members fuel' r1 with
              | Some (ms, r') => Some (build_object ms, r')
              | None => None
              end
          end
      | other => parse_number other
      end
  end
with parse_elems (fuel : nat) (s : string) {struct fuel}
  : option (list value * string) :=
  match fuel with
  | O => None
  | S fuel' =>
      match parse_value fuel' s with
      | Some (v, r) =>
          match skip_ws r with
          | String "," r' =>
              match parse_elems fuel' r' with
              | Some (vs, r'') => Some (v :: vs, r'')
              | None => None
              end
          | String "]" r' => Some ([v], r')
          | _ => None
          end
      | None => None
      end
  end
with parse_members (fuel : nat) (s : string) {struct fuel}
  : option (list (string * value) * string) :=
  match fuel with
  | O => None
  | S fuel' =>
      match skip_ws s with
      | String "034" r =>
          match parse_string r with
          | Some (k, r1) =>
              match skip_ws r1 with
              | String ":" r2 =>
                  match parse_value fuel' r2 with
                  | Some (v, r3) =>
                      match skip_ws r3 with
                      | String "," r4 =>
                          match parse_members fuel' r4 with
                          | Some (ms, r5) => Some ((k, v) :: ms, r5)
                          | None => None
                          end
                      | String "}" r4 => Some ([(k, v)], r4)
                      | _ => None
                      end
                  | None => None
                  end
              | _ => None
              end
          | None => None
          end
      | _ => None
      end
  end.

Definition parse (s : string) : option value :=
  match parse_value (2 * String.length s + 2) s with
  | Some (v, r) => if is_empty (skip_ws r) then Some v else None
  | None => None
  end.

(** The instance handed to the executors: a failure is the host's
    [SyntaxError] (its message text is not modelled). *)
Definition JSON_parse (s : string) : result value :=
  match parse s with
  | Some v => Ok v
  | None => Throw (SyntaxError "Unexpected token")
  end.

End Json.

(* ================================================================== *)
(** ** The buffered executor ([claude-executor.js]) *)
(* ================================================================== *)

Module Executor.
Import JS.

(** An object, as the list of its own properties in the order of their
    enumeration. *)
Definition props : Type := list (string * value).

(** [config.claude] *)
Record config : Type := {
  cliPath : string;
  defaultModel : string;
  defaultMaxTokens : value;
  defaultTemperature : value;
  timeout : Z
}.

Definition is_undefined (v : value) : bool :=
  match v with
  | VUndef => true
  | _ => false
  end.

(** What [for (const msg of v)] iterates over: the elements of an array,
    the characters of a string (bytes here: exact on ASCII), and a
    [TypeError] on anything else the request body can hold. *)
Fixpoint chars (s : string) : list value :=
  match s with
  | EmptyString => []
  | String a rest => VStr (String a EmptyString) :: chars rest
  end.

Definition iterate (v : value) : result (list value) :=
  match v with
  | VArr xs => Ok xs
  | VStr s => Ok (chars s)
  | _ => Throw TypeError
  end.

(** The OpenAI-shaped object returned by [_convertToOpenAiFormat]. *)
Record Message : Type := { role : string; content : value }.
Record Choice : Type := { index : Z; message : Message; finish_reason : value }.
Record Usage : Type := {
  prompt_tokens : value;
  completion_tokens : value;
  total_tokens : value
}.
Record Response : Type := {
  id : string;
  object : string;
  created : Z;
  model : value;
  choices : list Choice;
  usage : Usage
}.

Inductive signal : Type := SIGTERM | SIGKILL.

(** The variables captured by the closures of [_spawnClaudeProcess]:
    the two buffers, the pending timers (by deadline, in milliseconds),
    the [processExited] flag, the [kill] calls made so far and the state of
    the returned promise. *)
Record proc : Type := {
  stdout : string;
  stderr : string;
  timeoutHandle : option Z;
  escalation : option Z;
  processExited : bool;
  signals : list signal;
  settled : option (result value)
}.

(** What the handlers registered on the process object see: a chunk on
    stdout or stderr, the ['error'] event, the ['close'] event with the exit
    code ([None] for [null], when a signal ended the process), or nothing but
    the passing of time. The [data] of a chunk is the text the handler gets
    from [data.toString()], chunk by chunk: what the decoder makes of the
    bytes of that chunk alone. *)
Inductive event : Type :=
| Stdout (data : string)
| Stderr (data : string)
| ProcError (msg : string)
| Close (code : option Z)
| Idle.

Section WithHost.

Variable cfg : config.
Variable JSON_parse : string -> result value.

(** *** [_buildClaudeArgs] *)

Definition settings_of (request : props) : props :=
  let settings : props := [] in
  let settings :=
    if truthy (lookup "max_tokens" request)
    then (settings ++ [("maxTokens", lookup "max_tokens" request)])%list
    else settings in
  let settings :=
    if negb (is_undefined (lookup "temperature" request))
    then (settings ++ [("temperature", lookup "temperature" request)])%list
    else settings in
  settings.

Definition _buildClaudeArgs (request : props) (input_format output_format : value)
  : list value :=
  let args := [VStr "--print"; VStr "--dangerously-skip-permissions"] in
  let args :=
    if negb (eq_str input_format "text")
    then (args ++ [VStr "--input-format"; input_format])%list
    else args in
  let args := (args ++ [VStr "--output-format"; output_format])%list in
  let args :=
    if eq_str output_format "stream-json"
    then (args ++ [VStr "--verbose"])%list
    else args in
  let model := or_else (lookup "model" request) (VStr (defaultModel cfg)) in
  let args := (args ++ [VStr "--model"; model])%list in
  let args :=
    if truthy (lookup "max_tokens" request)
       || negb (is_undefined (lookup "temperature" request))
    then (args ++ [VStr "--settings"; VStr (stringify (VObj (settings_of request)))])%list
    else args in
  args.

(** *** [_prepareInput] *)

Fixpoint jsonLines (msgs : list value) : result (list string) :=
  match msgs with
  | [] => Ok []
  | msg :: rest =>
      r <- get msg "role" ;;
      let messageType := if eq_str r "user" then "user" else "control" in
      c <- get msg "content" ;;
      let line :=
        stringify (VObj [("type", VStr messageType); ("role", r); ("content", c)]) in
      lines <- jsonLines rest ;;
      Ok (line :: lines)
  end.

Fixpoint textParts (msgs : list value) : result (list value) :=
  match msgs with
  | [] => Ok []
  | msg :: rest =>
      r <- get msg "role" ;;
      part <-
        (if eq_str r "system" then
           c <- get msg "content" ;;
           text <- to_string c ;;
           Ok [VStr ("System: " ++ text)]
         else if eq_str r "user" then
           c <- get msg "content" ;; Ok [c]
         else if eq_str r "assistant" then
           c <- get msg "content" ;;
           text <- to_string c ;;
           Ok [VStr ("Assistant: " ++ text)]
         else Ok []) ;;
      parts <- textParts rest ;;
      Ok (part ++ parts)%list
  end.

Definition _prepareInput (request : props) (input_format : value) : result string :=
  if eq_str input_format "stream-json" then
    msgs <- iterate (lookup "messages" request) ;;
    lines <- jsonLines msgs ;;
    Ok (String.concat nl lines)
  else
    msgs <- iterate (lookup "messages" request) ;;
    parts <- textParts msgs ;;
    join (nl ++ nl) parts.

(** *** [_spawnClaudeProcess] *)

Definition kill (sig : signal) (st : proc) : proc :=
  {| stdout := stdout st; stderr := stderr st;
     timeoutHandle := timeoutHandle st; escalation := escalation st;
     processExited := processExited st;
     signals := (signals st ++ [sig])%list; settled := settled st |}.

(** [resolve] and [reject]: a promise settles once. *)
Definition settle (r : result value) (st : proc) : proc :=
  match settled st with
  | Some _ => st
  | None =>
      {| stdout := stdout st; stderr := stderr st;
         timeoutHandle := timeoutHandle st; escalation := escalation st;
         processExited := processExited st;
         signals := signals st; settled := Some r |}
  end.

Definition resolve (v : value) : proc -> proc := settle (Ok v).
Definition reject (msg : string) : proc -> proc := settle (Throw (Error msg)).

Definition cleanup (st : proc) : proc :=
  {| stdout := stdout st; stderr := stderr st;
     timeoutHandle := None; escalation := escalation st;
     processExited := true;
     signals := signals st; settled := settled st |}.

Definition message_of (e : exn) : string :=
  match e with
  | TypeError => EmptyString
  | SyntaxError m => m
  | Error m => m
  end.

Definition code_value (code : option Z) : value :=
  match code with
  | Some n => VNum n
  | None => VNull
  end.

(** [code !== 0] (the code is [null] when a signal ended the process) *)
Definition code_nonzero (code : option Z) : bool :=
  match code with
  | Some n => negb (n =? 0)
  | None => true
  end.

(** [a || b] on strings *)
Definition or_str (a b : string) : string := if is_empty a then b else a.

(** [stdout += data.toString()]: the text of the chunk, decoded by itself,
    is appended. *)
Definition on_stdout (data : string) (st : proc) : proc :=
  {| stdout := stdout st ++ data; stderr := stderr st;
     timeoutHandle := timeoutHandle st; escalation := escalation st;
     processExited := processExited st;
     signals := signals st; settled := settled st |}.

(** [stderr += data.toString()] *)
Definition on_stderr (data : string) (st : proc) : proc :=
  {| stdout := stdout st; stderr := stderr st ++ data;
     timeoutHandle := timeoutHandle st; escalation := escalation st;
     processExited := processExited st;
     signals := signals st; settled := settled st |}.

Definition on_error (msg : string) (st : proc) : proc :=
  let st := cleanup st in
  reject ("Failed to spawn Claude process: " ++ msg) st.

Definition on_close (code : option Z) (st : proc) : proc :=
  let st := cleanup st in
  if code_nonzero code then
    let errorMsg := or_str (stderr st) (or_str (stdout st) "Unknown error") in
    reject ("Claude process exited with code " ++ text_of (code_value code)
            ++ ": " ++ errorMsg) st
  else
    match JSON_parse (stdout st) with
    | Ok response => resolve response st
    | Throw e => reject ("Failed to parse Claude response: " ++ message_of e) st
    end.

(** The callback of the timer armed by [setupTimeout], run at its
    deadline [d]. *)
Definition timeout_fired (d : Z) (st : proc) : proc :=
  if negb (processExited st) then
    let st := kill SIGTERM st in
    let st :=
      {| stdout := stdout st; stderr := stderr st;
         timeoutHandle := timeoutHandle st; escalation := Some (d + 5000);
         processExited := processExited st;
         signals := signals st; settled := settled st |} in
    reject ("Claude process timeout after " ++ number_text (timeout cfg) ++ "ms") st
  else st.

(** The callback of the inner timer. *)
Definition escalation_fired (st : proc) : proc :=
  if negb (processExited st) then kill SIGKILL st else st.

(** Time passes up to [t]: the pending timers whose deadline is reached run,
    the outer one before the inner one it arms. *)
Definition advance (t : Z) (st : proc) : proc :=
  let st :=
    match timeoutHandle st with
    | Some d =>
        if d <=? t then
          timeout_fired d
            {| stdout := stdout st; stderr := stderr st;
               timeoutHandle := None; escalation := escalation st;
               processExited := processExited st;
               signals := signals st; settled := settled st |}
        else st
    | None => st
    end in
  match escalation st with
  | Some d =>
      if d <=? t then
        escalation_fired
          {| stdout := stdout st; stderr := stderr st;
             timeoutHandle := timeoutHandle st; escalation := None;
             processExited := processExited st;
             signals := signals st; settled := settled st |}
      else st
  | None => st
  end.

Definition handle (ev : event) (st : proc) : proc :=
  match ev with
  | Stdout data => on_stdout data st
  | Stderr data => on_stderr data st
  | ProcError msg => on_error msg st
  | Close code => on_close code st
  | Idle => st
  end.

(** One event of the process, arriving at time [t]. *)
Definition step (st : proc) (tev : Z * event) : proc :=
  handle (snd tev) (advance (fst tev) st).

Definition run (st : proc) (trace : list (Z * event)) : proc :=
  fold_left step trace st.

(** The body of the promise executor, started at time [t0]: the handlers
    are registered, the input is written ([write_error] is the message of
    the exception of [stdin.write]/[stdin.end], if one is thrown then and
    there; an error the stream emits later is a [StdinError] of the server
    process, below) and only then is the timer armed. The deadline is the one
    [setTimeout] gives a delay from 1 to 2147483647 ms; a delay outside this
    range makes the host run the timer after 1 ms, so that a run of this
    model is a run of the code for the configurations inside the range. *)
Definition _spawnClaudeProcess (t0 : Z) (write_error : option string) : proc :=
  let st :=
    {| stdout := EmptyString; stderr := EmptyString;
       timeoutHandle := None; escalation := None;
       processExited := false; signals := []; settled := None |} in
  match write_error with
  | Some msg =>
      let st := cleanup st in
      reject ("Failed to write to Claude stdin: " ++ msg) st
  | None =>
      {| stdout := stdout st; stderr := stderr st;
         timeoutHandle := Some (t0 + timeout cfg); escalation := escalation st;
         processExited := processExited st;
         signals := signals st; settled := settled st |}
  end.

(** *** [_parseStreamJson] *)

Fixpoint parsed_lines (lines : list string) : list value :=
  match lines with
  | [] => []
  | line :: rest =>
      if is_empty (trim line) then parsed_lines rest
      else match JSON_parse line with
           | Ok msg => msg :: parsed_lines rest
           | Throw _ => parsed_lines rest
           end
  end.

Definition _parseStreamJson (output : string) : value :=
  let lines := split "010"%char (trim output) in
  let messages := parsed_lines lines in
  or_else (last messages VUndef) (VObj [("content", VStr EmptyString)]).

(** *** [_convertToOpenAiFormat] *)

(** [.filter(block => block.type === 'text')] *)
Fixpoint filter_text (blocks : list value) : result (list value) :=
  match blocks with
  | [] => Ok []
  | block :: rest =>
      t <- get block "type" ;;
      kept <- filter_text rest ;;
      Ok (if eq_str t "text" then block :: kept else kept)
  end.

(** [.map(block => block.text)] *)
Fixpoint map_text (blocks : list value) : result (list value) :=
  match blocks with
  | [] => Ok []
  | block :: rest =>
      t <- get block "text" ;;
      ts <- map_text rest ;;
      Ok (t :: ts)
  end.

(** The content extraction that opens [_convertToOpenAiFormat]. *)
Definition extract_content (claudeResponse : value) : result value :=
  if is_string claudeResponse then Ok claudeResponse
  else
    r <- get claudeResponse "result" ;;
    if truthy r then Ok r
    else
      c <- get claudeResponse "content" ;;
      if truthy c then
        match c with
        | VArr blocks =>
            kept <- filter_text blocks ;;
            texts <- map_text kept ;;
            joined <- join nl texts ;;
            Ok (VStr joined)
        | _ => Ok c
        end
      else
        t <- get claudeResponse "text" ;;
        if truthy t then Ok t
        else
          m <- get claudeResponse "message" ;;
          if truthy (get_opt m "content") then Ok (get_opt m "content")
          else Ok (VStr EmptyString).

(** [now] is the reading of [Date.now()] when the object is built. *)
Definition _convertToOpenAiFormat
    (claudeResponse : value) (model : value) (requestId : string) (now : Z)
  : result Response :=
  content <- extract_content claudeResponse ;;
  u <- get claudeResponse "usage" ;;
  let inputTokens := or_else (get_opt u "input_tokens") (VNum 0) in
  let outputTokens := or_else (get_opt u "output_tokens") (VNum 0) in
  sr <- get claudeResponse "stop_reason" ;;
  total <- add inputTokens outputTokens ;;
  Ok {| id := "chatcmpl-" ++ requestId;
        object := "chat.completion";
        created := now / 1000;
        model := model;
        choices :=
          [ {| index := 0;
               message := {| role := "assistant"; content := content |};
               finish_reason := or_else sr (VStr "stop") |} ];
        usage :=
          {| prompt_tokens := inputTokens;
             completion_tokens := outputTokens;
             total_tokens := total |} |}.

(** *** [execute] *)

(** The options after the backward-compatibility test and the defaults. *)
Definition formats_of (options : value) : result (value * value) :=
  let options := if is_undefined options then VObj [] else options in
  match options with
  | VBool b =>
      Ok (VStr (if b then "stream-json" else "text"),
          VStr (if b then "stream-json" else "json"))
  | _ =>
      i <- get options "input_format" ;;
      o <- get options "output_format" ;;
      Ok (or_else i (VStr "text"), or_else o (VStr "json"))
  end.

(** [execute] up to the call of [_spawnClaudeProcess]: the argument vector
    and the stdin payload the subprocess is started with, or the exception
    thrown before any subprocess exists. *)
Definition execute_to_spawn (request : props) (options : value)
  : result (list value * string) :=
  fmts <- formats_of options ;;
  let args := _buildClaudeArgs request (fst fmts) (snd fmts) in
  input <- _prepareInput request (fst fmts) ;;
  Ok (args, input).

Inductive outcome : Type :=
| Pending
| Returned (r : Response)
| Thrown (e : exn).

(** [execute], against an environment: the process is spawned at [t0],
    [write_error] tells whether writing stdin throws, [trace] is what the
    process and the clock do afterwards and [now] is the clock when the
    response is converted. *)
Definition execute
    (request : props) (options : value) (requestId : string)
    (t0 : Z) (write_error : option string) (trace : list (Z * event)) (now : Z)
  : outcome :=
  match execute_to_spawn request options with
  | Throw e => Thrown e
  | Ok _ =>
      match settled (run (_spawnClaudeProcess t0 write_error) trace) with
      | None => Pending
      | Some (Throw e) => Thrown e
      | Some (Ok response) =>
          match _convertToOpenAiFormat response
                  (or_else (lookup "model" request) (VStr (defaultModel cfg)))
                  requestId now with
          | Ok r => Returned r
          | Throw e => Thrown e
          end
      end
  end.

(** *** The server process around a run

    The input is written to [claudeProcess.stdin] inside a [try] block, which
    catches a synchronous throw only, and no ['error'] listener is put on
    that stream. When the write fails later (the subprocess has gone without
    reading its input: [EPIPE]) the stream emits ['error']; with no listener
    the exception reaches the [uncaughtException] handler of [server.js],
    which logs it and calls [process.exit(1)]. *)
Inductive host_event : Type :=
| Handled (t : Z) (ev : event)
| StdinError (t : Z) (msg : string).

(** The server process: running, or exited, with the state of the run. *)
Inductive server : Type :=
| Running (st : proc)
| Exited (st : proc).

Definition host_step (s : server) (hev : host_event) : server :=
  match s with
  | Exited st => Exited st
  | Running st =>
      match hev with
      | Handled t ev => Running (step st (t, ev))
      | StdinError t _ => Exited (advance t st)
      end
  end.

Definition host_run (st : proc) (trace : list host_event) : server :=
  fold_left host_step trace (Running st).

(** What the caller of [execute] gets: the outcome of the call, or nothing
    at all when the server process exits while the call is pending. *)
Inductive host_outcome : Type :=
| Answered (o : outcome)
| ServerExit.

(** The continuation of [execute] after the [await]. *)
Definition outcome_of (request : props) (requestId : string) (now : Z)
    (st : proc) : outcome :=
  match settled st with
  | None => Pending
  | Some (Throw e) => Thrown e
  | Some (Ok response) =>
      match _convertToOpenAiFormat response
              (or_else (lookup "model" request) (VStr (defaultModel cfg)))
              requestId now with
      | Ok r => Returned r
      | Throw e => Thrown e
      end
  end.

Definition host_execute
    (request : props) (options : value) (requestId : string)
    (t0 : Z) (write_error : option string) (trace : list host_event) (now : Z)
  : host_outcome :=
  match execute_to_spawn request options with
  | Throw e => Answered (Thrown e)
  | Ok _ =>
      match host_run (_spawnClaudeProcess t0 write_error) trace with
      | Running st => Answered (outcome_of request requestId now st)
      | Exited st =>
          match settled st with
          | Some _ => Answered (outcome_of request requestId now st)
          | None => ServerExit
          end
      end
  end.

End WithHost.

End Executor.

(* ================================================================== *)
(** ** The streaming executor ([claude-executor-streaming.js]) *)
(* ================================================================== *)

Module Streaming.
Import JS.
Import Executor.

(** The response sink and the variables captured by the handlers of
    [executeStreaming]: what [res.write] has been given (a write after
    [res.end()] reaches nobody and is not recorded), the [kill] calls made,
    the [killed] flag of the process object, whether the process is gone,
    and the lines the handler warned about. *)
Record state : Type := {
  hasError : bool;
  stderrData : string;
  written : list string;
  ended : bool;
  kills : list signal;
  killed : bool;
  exited : bool;
  warnings : list string
}.

(** The events the handlers are registered for: a chunk on stdout (with
    the clock at that moment) or on stderr, ['error'] and ['close'] of the
    process, and ['close'] of the response (the client went away). The
    [data] of a chunk is the text the handler gets from [data.toString()],
    chunk by chunk. *)
Inductive event : Type :=
| Stdout (now : Z) (data : string)
| Stderr (data : string)
| ProcError (msg : string)
| Close (code : option Z)
| ResClose.

Definition DONE : string := "data: [DONE]" ++ nl ++ nl.

Section WithHost.

Variable cfg : config.
Variable JSON_parse : string -> result value.

(** *** [_convertMessagesToText] *)

Fixpoint textParts (messages : list value) : result (list value) :=
  match messages with
  | [] => Ok []
  | msg :: rest =>
      r <- get msg "role" ;;
      part <-
        (if eq_str r "system" then
           c <- get msg "content" ;;
           text <- to_string c ;;
           Ok [VStr ("System: " ++ text)]
         else if eq_str r "user" then
           c <- get msg "content" ;; Ok [c]
         else if eq_str r "assistant" then
           c <- get msg "content" ;;
           text <- to_string c ;;
           Ok [VStr ("Assistant: " ++ text)]
         else Ok []) ;;
      parts <- textParts rest ;;
      Ok (part ++ parts)%list
  end.

Definition _convertMessagesToText (messages : value) : result string :=
  msgs <- iterate messages ;;
  parts <- textParts msgs ;;
  join (nl ++ nl) parts.

(** *** The sink *)

Definition res_write (frame : string) (st : state) : state :=
  if ended st then st
  else
    {| hasError := hasError st; stderrData := stderrData st;
       written := (written st ++ [frame])%list; ended := ended st;
       kills := kills st; killed := killed st; exited := exited st;
       warnings := warnings st |}.

Definition res_end (st : state) : state :=
  {| hasError := hasError st; stderrData := stderrData st;
     written := written st; ended := true;
     kills := kills st; killed := killed st; exited := exited st;
     warnings := warnings st |}.

Definition set_hasError (st : state) : state :=
  {| hasError := true; stderrData := stderrData st;
     written := written st; ended := ended st;
     kills := kills st; killed := killed st; exited := exited st;
     warnings := warnings st |}.

Definition warn (line : string) (st : state) : state :=
  {| hasError := hasError st; stderrData := stderrData st;
     written := written st; ended := ended st;
     kills := kills st; killed := killed st; exited := exited st;
     warnings := (warnings st ++ [substring 0 100 line])%list |}.

(** [claudeProcess.kill(sig)]: the call is recorded; the [killed] flag is
    set when there still is a process to signal. *)
Definition kill (sig : signal) (st : state) : state :=
  {| hasError := hasError st; stderrData := stderrData st;
     written := written st; ended := ended st;
     kills := (kills st ++ [sig])%list;
     killed := if exited st then killed st else true;
     exited := exited st; warnings := warnings st |}.

(** An error-shaped frame: [data: {"error":{...}}] followed by a blank line. *)
Definition error_frame (fields : props) : string :=
  "data: " ++ stringify (VObj [("error", VObj fields)]) ++ nl ++ nl.

(** *** The stdout handler *)

(** [for (const block of message.content) if (block.type === 'text')
    content += block.text] *)
Fixpoint blocks_text (content : string) (blocks : list value) : result string :=
  match blocks with
  | [] => Ok content
  | block :: rest =>
      t <- get block "type" ;;
      if eq_str t "text" then
        tx <- get block "text" ;;
        text <- to_string tx ;;
        blocks_text (content ++ text) rest
      else blocks_text content rest
  end.

Definition sseChunk (request : props) (requestId : string) (now : Z)
    (content : string) (stop_reason : value) : value :=
  VObj [("id", VStr ("chatcmpl-" ++ requestId));
        ("object", VStr "chat.completion.chunk");
        ("created", VNum (now / 1000));
        ("model", or_else (lookup "model" request) (VStr (defaultModel cfg)));
        ("choices",
          VArr [VObj [("index", VNum 0);
                      ("delta", VObj [("content", VStr content)]);
                      ("finish_reason", or_else stop_reason VNull)]])].

(** The body of the [try] block for one non-blank line: the frame to write,
    if the line is an assistant event. *)
Definition line_frame (request : props) (requestId : string) (now : Z)
    (line : string) : result (option string) :=
  event <- JSON_parse line ;;
  ty <- get event "type" ;;
  message <- get event "message" ;;
  if eq_str ty "assistant" && truthy message then
    mc <- get message "content" ;;
    content <-
      (match mc with
       | VArr blocks => blocks_text EmptyString blocks
       | _ => Ok EmptyString
       end) ;;
    sr <- get message "stop_reason" ;;
    Ok (Some ("data: " ++ stringify (sseChunk request requestId now content sr)
              ++ nl ++ nl))
  else Ok None.

Definition on_line (request : props) (requestId : string) (now : Z)
    (st : state) (line : string) : state :=
  if is_empty (trim line) then st
  else match line_frame request requestId now line with
       | Ok (Some frame) => res_write frame st
       | Ok None => st
       | Throw _ => warn line st
       end.

(** [claudeProcess.stdout.on('data', ...)]; [now] is the clock while the
    (synchronous) handler runs. *)
Definition on_stdout (request : props) (requestId : string) (now : Z)
    (data : string) (st : state) : state :=
  fold_left (on_line request requestId now) (split "010"%char data) st.

(** *** The other handlers *)

Definition on_stderr (data : string) (st : state) : state :=
  {| hasError := hasError st; stderrData := stderrData st ++ data;
     written := written st; ended := ended st;
     kills := kills st; killed := killed st; exited := exited st;
     warnings := warnings st |}.

Definition on_error (msg : string) (st : state) : state :=
  let st := set_hasError st in
  let st :=
    res_write
      (error_frame [("message", VStr ("Failed to spawn Claude process: " ++ msg));
                    ("type", VStr "spawn_error")]) st in
  let st := res_write DONE st in
  res_end st.

Definition exit_error_frame (code : option Z) (stderrText : string) : string :=
  error_frame
    [("message",
       VStr ("Claude process exited with code " ++ text_of (code_value code)
             ++ ": " ++ stderrText));
     ("type", VStr "execution_error");
     ("code", code_value code)].

Definition mark_exited (st : state) : state :=
  {| hasError := hasError st; stderrData := stderrData st;
     written := written st; ended := ended st;
     kills := kills st; killed := killed st; exited := true;
     warnings := warnings st |}.

Definition on_close (code : option Z) (st : state) : state :=
  let st := mark_exited st in
  let st :=
    if code_nonzero code then
      let st := set_hasError st in
      res_write (exit_error_frame code (stderrData st)) st
    else st in
  let st := res_write DONE st in
  res_end st.

(** [res.on('close', ...)]: the client went away. *)
Definition on_res_close (st : state) : state :=
  if negb (killed st) then kill SIGTERM st else st.

Definition handle (request : props) (requestId : string)
    (st : state) (ev : event) : state :=
  match ev with
  | Stdout now data => on_stdout request requestId now data st
  | Stderr data => on_stderr data st
  | ProcError msg => on_error msg st
  | Close code => on_close code st
  | ResClose => on_res_close st
  end.

Definition run (request : props) (requestId : string)
    (st : state) (trace : list event) : state :=
  fold_left (handle request requestId) trace st.

(** *** [executeStreaming] *)

Definition streaming_args (request : props) : list value :=
  let args :=
    [VStr "--print"; VStr "--dangerously-skip-permissions";
     VStr "--output-format"; VStr "stream-json"; VStr "--verbose";
     VStr "--model"; or_else (lookup "model" request) (VStr (defaultModel cfg))] in
  if truthy (lookup "max_tokens" request)
     || negb (is_undefined (lookup "temperature" request))
  then (args ++ [VStr "--settings"; VStr (stringify (VObj (settings_of request)))])%list
  else args.

Definition start : state :=
  {| hasError := false; stderrData := EmptyString; written := []; ended := false;
     kills := []; killed := false; exited := false; warnings := [] |}.

(** The synchronous part of [executeStreaming]: the argument vector and the
    stdin payload of the subprocess, and the state the handlers start from
    ([write_error]: the message of the exception of the stdin write, if one
    is thrown). *)
Definition executeStreaming (request : props) (write_error : option string)
  : result (list value * string * state) :=
  let args := streaming_args request in
  textInput <- _convertMessagesToText (lookup "messages" request) ;;
  let st :=
    match write_error with
    | Some msg =>
        let st :=
          res_write
            (error_frame [("message", VStr ("Failed to write input: " ++ msg));
                          ("type", VStr "input_error")]) start in
        let st := res_write DONE st in
        res_end st
    | None => start
    end in
  Ok (args, textInput, st).

(** *** The server process around a run

    As in the buffered executor, the write to [claudeProcess.stdin] is
    guarded by a [try] block only: an ['error'] emitted later by that stream
    ([EPIPE]) has no listener and ends the server process through the
    [uncaughtException] handler of [server.js]. From then on nothing is
    written to any response. *)
Inductive host_event : Type :=
| Handled (ev : event)
| StdinError (msg : string).

Inductive server : Type :=
| Running (st : state)
| Exited (st : state).

Definition host_step (request : props) (requestId : string)
    (s : server) (hev : host_event) : server :=
  match s with
  | Exited st => Exited st
  | Running st =>
      match hev with
      | Handled ev => Running (handle request requestId st ev)
      | StdinError _ => Exited st
      end
  end.

Definition host_run (request : props) (requestId : string)
    (st : state) (trace : list host_event) : server :=
  fold_left (host_step request requestId) trace (Running st).

(** What has been written to the response, and whether [res.end()] has
    been called. *)
Definition delivered (s : server) : list string :=
  match s with
  | Running st => written st
  | Exited st => written st
  end.

Definition response_ended (s : server) : bool :=
  match s with
  | Running st => ended st
  | Exited st => ended st
  end.

End WithHost.

End Streaming.

(* ================================================================== *)
(** ** The HTTP layer in front of the executors
       ([middleware.js], [server.js]) *)
(* ================================================================== *)

Module Server.
Import JS.

(** The body of a [res.status(status).json({error: {...}})] reply. *)
Record http_error : Type := {
  status : Z;
  message : string;
  type : string;
  code : string
}.

(** What a route does with a request body once authentication has passed:
    it answers with an error, hands the body to one of the executors, or
    lets an exception escape to the error handler. *)
Inductive action : Type :=
| Reply (e : http_error)
| RunStreaming (request : Executor.props)
| RunBuffered (request : Executor.props) (options : value)
| Raise (e : exn).

(** *** [validateChatCompletionRequest] *)

Definition is_valid_role (r : value) : bool :=
  eq_str r "system" || eq_str r "user" || eq_str r "assistant".

(** The loop over [messages], from index [i] on: the first offending
    message decides the reply. *)
Fixpoint validate_messages (i : Z) (messages : list value)
  : result (option http_error) :=
  match messages with
  | [] => Ok None
  | msg :: rest =>
      r <- get msg "role" ;;
      c <- get msg "content" ;;
      if negb (truthy r) || negb (truthy c) then
        Ok (Some {| status := 400;
                    message := "Message at index " ++ string_of_Z i
                               ++ " missing required fields 'role' or 'content'";
                    type := "invalid_request_error";
                    code := "invalid_message_format" |})
      else if negb (is_valid_role r) then
        role <- to_string r ;;
        Ok (Some {| status := 400;
                    message := "Message at index " ++ string_of_Z i
                               ++ " has invalid role '" ++ role
                               ++ "'. Must be 'system', 'user', or 'assistant'";
                    type := "invalid_request_error";
                    code := "invalid_role" |})
      else validate_messages (i + 1) rest
  end.

(** [model && !model.includes('claude')] only logs, but [includes] exists
    on strings and arrays alone. *)
Definition model_check (model : value) : result unit :=
  if truthy model then
    match model with
    | VStr _ | VArr _ => Ok tt
    | _ => Throw TypeError
    end
  else Ok tt.

(** [Some e]: the middleware replies with [e]; [None]: it calls [next()]. *)
Definition validateChatCompletionRequest (body : Executor.props)
  : result (option http_error) :=
  let model := lookup "model" body in
  let messages := lookup "messages" body in
  match messages with
  | VArr (m :: ms) =>
      r <- validate_messages 0 (m :: ms) ;;
      match r with
      | Some e => Ok (Some e)
      | None => _ <- model_check model ;; Ok None
      end
  | _ =>
      Ok (Some {| status := 400;
                  message := "messages field is required and must be a non-empty array";
                  type := "invalid_request_error";
                  code := "invalid_messages" |})
  end.

(** *** [POST /v1/chat/completions] *)

Definition chat_completions_handler (body : Executor.props) : action :=
  let input_format := or_else (lookup "input_format" body) (VStr "text") in
  let output_format :=
    or_else (lookup "output_format" body)
      (VStr (if truthy (lookup "stream" body) then "stream-json" else "json")) in
  if negb (eq_str input_format "text" || eq_str input_format "stream-json") then
    Reply {| status := 400;
             message := "Invalid input_format. Must be one of: text, stream-json";
             type := "invalid_request_error";
             code := "invalid_input_format" |}
  else if negb (eq_str output_format "text" || eq_str output_format "json"
                || eq_str output_format "stream-json") then
    Reply {| status := 400;
             message := "Invalid output_format. Must be one of: text, json, stream-json";
             type := "invalid_request_error";
             code := "invalid_output_format" |}
  else if eq_str output_format "stream-json" then RunStreaming body
  else RunBuffered body
         (VObj [("input_format", input_format); ("output_format", output_format)]).

Definition chat_completions (body : Executor.props) : action :=
  match validateChatCompletionRequest body with
  | Throw e => Raise e
  | Ok (Some e) => Reply e
  | Ok None => chat_completions_handler body
  end.

(** *** [POST /v1/messages] *)

Definition messages_route (cfg : Executor.config) (body : Executor.props) : action :=
  let model := lookup "model" body in
  let messages := lookup "messages" body in
  let max_tokens := lookup "max_tokens" body in
  let temperature := lookup "temperature" body in
  match messages with
  | VArr (m :: ms) =>
      let openAiRequest :=
        [("model", or_else model (VStr (Executor.defaultModel cfg)));
         ("messages", messages);
         ("max_tokens", or_else max_tokens (Executor.defaultMaxTokens cfg));
         ("temperature",
           if Executor.is_undefined temperature
           then Executor.defaultTemperature cfg else temperature)] in
      RunBuffered openAiRequest
        (VObj [("input_format", VStr "text"); ("output_format", VStr "json")])
  | _ =>
      Reply {| status := 400;
               message := "messages array is required";
               type := "invalid_request_error";
               code := "missing_messages" |}
  end.

(** The Anthropic-shaped object built from the executor's response. *)
Record Block : Type := { block_type : string; text : value }.
Record AnthropicUsage : Type := { input_tokens : value; output_tokens : value }.
Record AnthropicResponse : Type := {
  id : string;
  response_type : string;
  role : string;
  content : list Block;
  model : value;
  stop_reason : string;
  stop_sequence : value;
  usage : AnthropicUsage
}.

(** [response.choices[0]] *)
Definition first_choice (response : Executor.Response) : option Executor.Choice :=
  match Executor.choices response with
  | c :: _ => Some c
  | [] => None
  end.

(** [response.choices[0]?.message?.content] *)
Definition first_content (response : Executor.Response) : value :=
  match first_choice response with
  | Some c => Executor.content (Executor.message c)
  | None => VUndef
  end.

(** [response.choices[0]?.finish_reason] *)
Definition first_finish_reason (response : Executor.Response) : value :=
  match first_choice response with
  | Some c => Executor.finish_reason c
  | None => VUndef
  end.

Definition anthropicResponse (response : Executor.Response) : AnthropicResponse :=
  {| id := "msg-" ++ Executor.id response;
     response_type := "message";
     role := "assistant";
     content :=
       [ {| block_type := "text";
            text := or_else (first_content response) (VStr EmptyString) |} ];
     model := Executor.model response;
     stop_reason :=
       if eq_str (first_finish_reason response) "stop"
       then "end_turn" else "max_tokens";
     stop_sequence := VNull;
     usage :=
       {| input_tokens :=
            or_else (Executor.prompt_tokens (Executor.usage response)) (VNum 0);
          output_tokens :=
            or_else (Executor.completion_tokens (Executor.usage response)) (VNum 0) |} |}.

End Server.

(* ================================================================== *)
(** ** Vocabulary of the statements *)
(* ================================================================== *)

Module Spec.
Import JS.

(** The defaults of [config.js], with [CLAUDE_DEFAULT_TEMPERATURE=1] in the
    environment (the built-in default is not an integer). *)
Definition example_config : Executor.config :=
  {| Executor.cliPath := "claude";
     Executor.defaultModel := "sonnet";
     Executor.defaultMaxTokens := VNum 2000;
     Executor.defaultTemperature := VNum 1;
     Executor.timeout := 600000 |}.

(** A string between double quotes, as it stands. *)
Definition lit (s : string) : string := dquote ++ s ++ dquote.

(** *** Response translation *)

(** The blocks whose type is ["text"], and their texts. *)
Definition text_blocks (blocks : list value) : list value :=
  filter (fun b => eq_str (get_opt b "type") "text") blocks.

Definition block_texts (blocks : list value) : list value :=
  map (fun b => get_opt b "text") (text_blocks blocks).

(** The concatenation of the texts of the text blocks, with nothing between
    them. *)
Definition text_concatenation (blocks : list value) : string :=
  String.concat EmptyString (map text_of (block_texts blocks)).

(** The texts joined with a newline between them; a text that is [null] or
    absent counts as empty. *)
Definition joined_texts (blocks : list value) : string :=
  String.concat nl (map elem_text (block_texts blocks)).

(** The priority order of the content extraction over the fields that hold
    a truthy value; the texts of a block list are joined with a newline. *)
Definition priority_content (fields : Executor.props) : value :=
  if truthy (lookup "result" fields) then lookup "result" fields
  else if truthy (lookup "content" fields) then
    match lookup "content" fields with
    | VArr blocks => VStr (joined_texts blocks)
    | c => c
    end
  else if truthy (lookup "text" fields) then lookup "text" fields
  else if truthy (get_opt (lookup "message" fields) "content")
  then get_opt (lookup "message" fields) "content"
  else VStr EmptyString.

(** A content field that is a list holds no [null]. *)
Definition no_null_block (fields : Executor.props) : bool :=
  match lookup "content" fields with
  | VArr blocks => forallb (fun b => negb (nullish b)) blocks
  | _ => true
  end.

(** The texts of the text blocks of a content list can be converted to
    strings: none is an object with a [toString] property of its own, or an
    array holding one. *)
Definition texts_printable (fields : Executor.props) : bool :=
  match lookup "content" fields with
  | VArr blocks => forallb printable (block_texts blocks)
  | _ => true
  end.

(** The two token counts, as the translation reads them. *)
Definition input_count (fields : Executor.props) : value :=
  or_else (get_opt (lookup "usage" fields) "input_tokens") (VNum 0).

Definition output_count (fields : Executor.props) : value :=
  or_else (get_opt (lookup "usage" fields) "output_tokens") (VNum 0).

(** The terminal object of the scenario:
    [{"result":"4","usage":{"input_tokens":5,"output_tokens":1}}]. *)
Definition scenario_fields : Executor.props :=
  [("result", VStr "4");
   ("usage", VObj [("input_tokens", VNum 5); ("output_tokens", VNum 1)])].

Definition scenario_stdout : string :=
  "{" ++ quote "result" ++ ":" ++ quote "4" ++ "," ++ quote "usage" ++ ":{"
  ++ quote "input_tokens" ++ ":5," ++ quote "output_tokens" ++ ":1}}".

Definition text_block (s : string) : value :=
  VObj [("type", VStr "text"); ("text", VStr s)].

(** Two characters that [trim] removes and that are not ASCII: the byte
    order mark U+FEFF and the no-break space U+00A0. *)
Definition bom : string :=
  String "239" (String "187" (String "191" EmptyString)).

Definition nbsp : string := String "194" (String "160" EmptyString).

(** *** Argument vector *)

(** An option value that could be taken for a flag: a string that begins
    with a dash. *)
Definition starts_with_dash (v : value) : bool :=
  match v with
  | VStr (String "-" _) => true
  | _ => false
  end.

(** A field of the request is set when the request holds it. *)
Definition is_set (v : value) : bool := negb (Executor.is_undefined v).

(** The test of the code: [max_tokens] holds a truthy value, or
    [temperature] is not [undefined]. *)
Definition settings_given (request : Executor.props) : Prop :=
  truthy (lookup "max_tokens" request) = true
  \/ lookup "temperature" request <> VUndef.

(** The text of the settings blob: one JSON object with the member
    [maxTokens] when [max_tokens] is truthy and the member [temperature]
    when it is not [undefined], in this order. *)
Definition settings_members (request : Executor.props) : list string :=
  app
    (if truthy (lookup "max_tokens" request)
     then [lit "maxTokens" ++ ":" ++ stringify (lookup "max_tokens" request)]
     else [])
    (if Executor.is_undefined (lookup "temperature" request)
     then []
     else [lit "temperature" ++ ":" ++ stringify (lookup "temperature" request)]).

Definition settings_blob (request : Executor.props) : string :=
  "{" ++ String.concat "," (settings_members request) ++ "}".

(** *** Stdin payload in text mode *)


(** What one turn contributes: a system turn its content after the label
    [System: ], a user turn its content as it is, an assistant turn its
    content after the label [Assistant: ], any other turn nothing. *)
Definition part_of (turn : Executor.props) : list value :=
  if eq_str (lookup "role" turn) "system"
  then [VStr ("System: " ++ text_of (lookup "content" turn))]
  else if eq_str (lookup "role" turn) "user"
  then [lookup "content" turn]
  else if eq_str (lookup "role" turn) "assistant"
  then [VStr ("Assistant: " ++ text_of (lookup "content" turn))]
  else [].

(** The parts of the turns, in order, with a blank line between them. *)
Definition payload (turns : list Executor.props) : string :=
  String.concat (nl ++ nl) (map elem_text (flat_map part_of turns)).




Definition turn (role content : string) : Executor.props :=
  [("role", VStr role); ("content", VStr content)].

(** *** Runs of the buffered executor *)

(** Output events (and idle time): everything but the end of the process. *)
Definition is_output (tev : Z * Executor.event) : bool :=
  match snd tev with
  | Executor.Stdout _ | Executor.Stderr _ | Executor.Idle => true
  | _ => false
  end.

Fixpoint stdout_of (trace : list (Z * Executor.event)) : string :=
  match trace with
  | [] => EmptyString
  | (_, Executor.Stdout data) :: rest => data ++ stdout_of rest
  | _ :: rest => stdout_of rest
  end.

Fixpoint stderr_of (trace : list (Z * Executor.event)) : string :=
  match trace with
  | [] => EmptyString
  | (_, Executor.Stderr data) :: rest => data ++ stderr_of rest
  | _ :: rest => stderr_of rest
  end.

Definition before (deadline : Z) (tev : Z * Executor.event) : bool :=
  fst tev <? deadline.

(** An event of the process, as the server process sees it: one of those
    the executor has a handler for. *)
Definition handled (tev : Z * Executor.event) : Executor.host_event :=
  Executor.Handled (fst tev) (snd tev).

(** [needle] occurs in [hay]. *)
Definition contains (needle hay : string) : bool :=
  match index 0 needle hay with
  | Some _ => true
  | None => false
  end.

(** The exit code as it prints: in decimal, [null] when a signal ended the
    process. *)
Definition code_text (code : option Z) : string :=
  match code with
  | Some n => number_text n
  | None => "null"
  end.

(** The timeout lies in the range of [setTimeout], which runs a timer whose
    delay is below 1 or above 2147483647 after 1 ms. *)
Definition timer_in_range (cfg : Executor.config) : Prop :=
  1 <= Executor.timeout cfg <= 2147483647.

(** The message of the error a non-zero exit is reported with. *)
Definition exit_message (code : option Z) (stderr_text stdout_text : string)
  : string :=
  "Claude process exited with code "
  ++ code_text code ++ ": "
  ++ (if is_empty stderr_text
      then (if is_empty stdout_text then "Unknown error" else stdout_text)
      else stderr_text).

(** *** Runs of the streaming executor *)

Definition is_stream_output (ev : Streaming.event) : bool :=
  match ev with
  | Streaming.Stdout _ _ | Streaming.Stderr _ => true
  | _ => false
  end.

Fixpoint stderr_text (trace : list Streaming.event) : string :=
  match trace with
  | [] => EmptyString
  | Streaming.Stderr data :: rest => data ++ stderr_text rest
  | _ :: rest => stderr_text rest
  end.

(** The terminal frame: the literal [data: [DONE]] and a blank line. *)
Definition sentinel : string := "data: [DONE]" ++ nl ++ nl.

(** The error-shaped frame of a non-zero exit:
    [data: {"error":{"message":"Claude process exited with code <code>:
    <stderr>","type":"execution_error","code":<code>}}] and a blank line,
    the message being a JSON string. *)
Definition exit_frame (code : option Z) (stderr_text : string) : string :=
  "data: {" ++ lit "error" ++ ":{" ++ lit "message" ++ ":"
  ++ quote ("Claude process exited with code " ++ code_text code ++ ": "
            ++ stderr_text)
  ++ "," ++ lit "type" ++ ":" ++ lit "execution_error"
  ++ "," ++ lit "code" ++ ":" ++ code_text code ++ "}}" ++ nl ++ nl.

(** The terminal frame, and the frames that carry an [error] object. *)
Definition is_sentinel (frame : string) : bool := String.eqb frame sentinel.

Definition is_error_frame (frame : string) : bool :=
  prefix ("data: {" ++ lit "error" ++ ":") frame.

(** One assistant event of the backend, as a line of its output:
    [{"type":"assistant","message":{"content":[{"type":"text","text":"hi"}]}}] *)
Definition assistant_line : string :=
  stringify
    (VObj [("type", VStr "assistant");
           ("message", VObj [("content", VArr [text_block "hi"])])]).

(** The frame this event is forwarded as, at clock 0, for request id [r1]
    and model [sonnet]. *)
Definition assistant_frame : string :=
  "data: {" ++ quote "id" ++ ":" ++ quote "chatcmpl-r1" ++ ","
  ++ quote "object" ++ ":" ++ quote "chat.completion.chunk" ++ ","
  ++ quote "created" ++ ":0," ++ quote "model" ++ ":" ++ quote "sonnet" ++ ","
  ++ quote "choices" ++ ":[{" ++ quote "index" ++ ":0,"
  ++ quote "delta" ++ ":{" ++ quote "content" ++ ":" ++ quote "hi" ++ "},"
  ++ quote "finish_reason" ++ ":null}]}" ++ nl ++ nl.

(** A frame that is neither the sentinel nor an error frame. *)
Definition chunk_like (frame : string) : Prop :=
  is_sentinel frame = false /\ is_error_frame frame = false.

(** The sink holds no sentinel while the response is open and exactly one
    once it is ended. *)
Definition sentinel_state (st : Streaming.state) : Prop :=
  filter is_sentinel (Streaming.written st)
  = (if Streaming.ended st then [sentinel] else []).

Definition is_close (ev : Streaming.event) : bool :=
  match ev with
  | Streaming.Close _ => true
  | _ => false
  end.

(** The parts of the state the output handlers leave alone. *)
Definition same_control (st st' : Streaming.state) : Prop :=
  Streaming.hasError st' = Streaming.hasError st /\
  Streaming.ended st' = Streaming.ended st /\
  Streaming.kills st' = Streaming.kills st /\
  Streaming.killed st' = Streaming.killed st /\
  Streaming.exited st' = Streaming.exited st.

Section WithHost.

Variable cfg : Executor.config.
Variable JSON_parse : string -> result value.

(** A line that holds an assistant-kind event: it is not blank, it parses,
    its [type] is ["assistant"] and its [message] is truthy. *)
Definition assistant_kind (line : string) : bool :=
  negb (is_empty (trim line)) &&
  match JSON_parse line with
  | Ok event =>
      match get event "type", get event "message" with
      | Ok ty, Ok message => eq_str ty "assistant" && truthy message
      | _, _ => false
      end
  | Throw _ => false
  end.

(** The frames one line, one chunk and a whole run hand to [res.write]
    from the stdout handler. *)
Definition line_frames (request : Executor.props) (requestId : string)
    (now : Z) (line : string) : list string :=
  if is_empty (trim line) then []
  else match Streaming.line_frame cfg JSON_parse request requestId now line with
       | Ok (Some frame) => [frame]
       | _ => []
       end.

Definition chunk_frames (request : Executor.props) (requestId : string)
    (now : Z) (data : string) : list string :=
  flat_map (line_frames request requestId now) (split "010"%char data).

Definition forwarded (request : Executor.props) (requestId : string)
    (trace : list Streaming.event) : list string :=
  flat_map (fun ev =>
              match ev with
              | Streaming.Stdout now data => chunk_frames request requestId now data
              | _ => []
              end) trace.

Definition no_assistant_event (trace : list Streaming.event) : bool :=
  forallb (fun ev =>
             match ev with
             | Streaming.Stdout _ data =>
                 forallb (fun line => negb (assistant_kind line))
                         (split "010"%char data)
             | _ => true
             end) trace.

End WithHost.

End Spec.

(* ================================================================== *)
(** ** The rest of the HTTP layer
       ([middleware.js]: authentication and error replies;
        [server.js]: the RCA route and the [catch] of the routes) *)
(* ================================================================== *)

Module Middleware.
Import JS.

(** [config.auth]: [apiKey] is [process.env.API_KEY || null]. *)
Record auth_config : Type := {
  enabled : bool;
  apiKey : option string;
  headerName : string
}.

Inductive auth_result : Type :=
| Next
| Unauthorized (e : Server.http_error).

(** [authMiddleware]; [providedKey] is [req.get(config.auth.headerName)],
    a string or [undefined]. *)
Definition authMiddleware (auth : auth_config) (providedKey : option string)
  : auth_result :=
  if negb (enabled auth) then Next
  else
    match providedKey with
    | Some k =>
        if is_empty k then
          Unauthorized {| Server.status := 401;
                          Server.message := "Missing API key";
                          Server.type := "authentication_error";
                          Server.code := "missing_api_key" |}
        else
          match apiKey auth with
          | Some k' =>
              if String.eqb k k' then Next
              else Unauthorized {| Server.status := 401;
                                   Server.message := "Invalid API key";
                                   Server.type := "authentication_error";
                                   Server.code := "invalid_api_key" |}
          | None =>
              Unauthorized {| Server.status := 401;
                              Server.message := "Invalid API key";
                              Server.type := "authentication_error";
                              Server.code := "invalid_api_key" |}
          end
    | None =>
        Unauthorized {| Server.status := 401;
                        Server.message := "Missing API key";
                        Server.type := "authentication_error";
                        Server.code := "missing_api_key" |}
    end.

(** [err.k = v]: the property is replaced where it stands, or added last. *)
Fixpoint assign (k : string) (v : value) (err : Executor.props) : Executor.props :=
  match err with
  | [] => [(k, v)]
  | (k', v') :: rest =>
      if String.eqb k k' then (k', v) :: rest
      else (k', v') :: assign k v rest
  end.

(** [errorHandler]: the status and the JSON body of the reply, from the
    properties of the error object; [isDevelopment] is
    [config.isDevelopment]. *)
Definition errorHandler (isDevelopment : bool) (err : Executor.props)
  : value * value :=
  let status := or_else (lookup "statusCode" err) (VNum 500) in
  let error : Executor.props :=
    [("message", or_else (lookup "message" err) (VStr "Internal server error"));
     ("type", or_else (lookup "type" err) (VStr "internal_error"));
     ("code", or_else (lookup "code" err) (VStr "unknown_error"))] in
  let error :=
    if isDevelopment && truthy (lookup "stack" err)
    then assign "stack" (lookup "stack" err) error
    else error in
  (status, VObj [("error", VObj error)]).

(** The [catch] block of a route, for an error object [err] thrown by the
    executor: [error.statusCode = 500; error.type = type; next(error)],
    which ends in [errorHandler]. *)
Definition route_catch (isDevelopment : bool) (type : string)
    (err : Executor.props) : value * value :=
  let err := assign "statusCode" (VNum 500) err in
  let err := assign "type" (VStr type) err in
  errorHandler isDevelopment err.

(** [POST /api/rca], once authentication has passed. *)
Definition rca_route (cfg : Executor.config) (body : Executor.props)
  : Server.action :=
  let prompt := lookup "prompt" body in
  let model := lookup "model" body in
  let max_tokens := lookup "max_tokens" body in
  let temperature := lookup "temperature" body in
  if negb (truthy prompt) then
    Server.Reply {| Server.status := 400;
                    Server.message := "prompt field is required";
                    Server.type := "invalid_request_error";
                    Server.code := "missing_prompt" |}
  else
    let openAiRequest :=
      [("model", or_else model (VStr (Executor.defaultModel cfg)));
       ("messages",
         VArr [VObj [("role", VStr "user"); ("content", prompt)]]);
       ("max_tokens", or_else max_tokens (Executor.defaultMaxTokens cfg));
       ("temperature",
         if Executor.is_undefined temperature
         then Executor.defaultTemperature cfg else temperature)] in
    Server.RunBuffered openAiRequest
      (VObj [("input_format", VStr "text"); ("output_format", VStr "json")]).

(** The body of the RCA reply, from the executor's response. *)
Definition rca_reply (response : Executor.Response) : Executor.props :=
  [("id", VStr (Executor.id response));
   ("analysis", or_else (Server.first_content response) (VStr EmptyString));
   ("model", Executor.model response);
   ("created", VNum (Executor.created response));
   ("usage",
     VObj [("prompt_tokens", Executor.prompt_tokens (Executor.usage response));
           ("completion_tokens",
             Executor.completion_tokens (Executor.usage response));
           ("total_tokens", Executor.total_tokens (Executor.usage response))])].

End Middleware.

(* ================================================================== *)
(** ** Vocabulary of the further properties *)
(* ================================================================== *)

Module Props.
Import JS.

(** [c] does not occur in [s]. *)
Fixpoint free_of (c : ascii) (s : string) : bool :=
  match s with
  | EmptyString => true
  | String a rest => negb (Ascii.eqb a c) && free_of c rest
  end.

Definition one_line (s : string) : bool := free_of "010"%char s.

(** The line the line-protocol input holds for one message. *)
Definition json_line (msg : value) : string :=
  stringify
    (VObj [("type",
             VStr (if eq_str (get_opt msg "role") "user" then "user" else "control"));
           ("role", get_opt msg "role");
           ("content", get_opt msg "content")]).

(** The message of the error a timeout is reported with. *)
Definition timeout_message (cfg : Executor.config) : string :=
  "Claude process timeout after " ++ number_text (Executor.timeout cfg) ++ "ms".

(** What a buffered run that saw the process close makes of the captured
    output and the exit code. *)
Definition closed_outcome (cfg : Executor.config)
    (JSON_parse : string -> result value) (request : Executor.props)
    (requestId : string) (now : Z)
    (code : option Z) (stdout_text stderr_text : string) : Executor.outcome :=
  if Executor.code_nonzero code then
    Executor.Thrown (Error (Spec.exit_message code stderr_text stdout_text))
  else
    match JSON_parse stdout_text with
    | Throw e =>
        Executor.Thrown
          (Error ("Failed to parse Claude response: " ++ Executor.message_of e))
    | Ok response =>
        match Executor._convertToOpenAiFormat response
                (or_else (lookup "model" request)
                   (VStr (Executor.defaultModel cfg)))
                requestId now with
        | Ok r => Executor.Returned r
        | Throw e => Executor.Thrown e
        end
    end.

(** The signals of a buffered run: none, SIGTERM, or SIGTERM then SIGKILL. *)
Definition signal_shape (sigs : list Executor.signal) : Prop :=
  sigs = [] \/ sigs = [Executor.SIGTERM]
  \/ sigs = [Executor.SIGTERM; Executor.SIGKILL].

(** The invariant behind it, on the state of a run. *)
Definition signals_inv (st : Executor.proc) : Prop :=
  (Executor.signals st = [] /\ Executor.escalation st = None)
  \/ (Executor.signals st = [Executor.SIGTERM]
      /\ Executor.timeoutHandle st = None)
  \/ (Executor.signals st = [Executor.SIGTERM; Executor.SIGKILL]
      /\ Executor.timeoutHandle st = None /\ Executor.escalation st = None).

(** A message the request validator lets through. *)
Definition valid_message (msg : value) : bool :=
  negb (nullish msg)
  && truthy (get_opt msg "role") && truthy (get_opt msg "content")
  && Server.is_valid_role (get_opt msg "role").

(** The content of a message can be converted to a string. *)
Definition content_printable (msg : value) : bool :=
  printable (get_opt msg "content").

(** The properties of a value that is an object. *)
Definition fields_of (v : value) : Executor.props :=
  match v with
  | VObj fields => fields
  | _ => []
  end.

(** A message on which the text payload cannot be built: it is [null] (or
    [undefined]), or it has one of the three roles and a content that cannot
    be converted to a string. *)
Definition text_fails (msg : value) : bool :=
  nullish msg
  || (Server.is_valid_role (get_opt msg "role")
      && negb (printable (get_opt msg "content"))).

(** The raw backend outputs on which the response translation raises:
    [null] (or [undefined]); an object whose result is falsy and whose
    content is a list that holds [null] or a text block whose text cannot be
    converted to a string; and an output whose token counts cannot be added
    because one of them cannot be converted. *)
Definition content_fails (raw : value) : bool :=
  negb (is_string raw) && negb (truthy (get_opt raw "result"))
  && match get_opt raw "content" with
     | VArr blocks =>
         existsb nullish blocks
         || negb (forallb printable (Spec.block_texts blocks))
     | _ => false
     end.

Definition counts_fail (raw : value) : bool :=
  negb (printable (or_else (get_opt (get_opt raw "usage") "input_tokens") (VNum 0)))
  || negb (printable (or_else (get_opt (get_opt raw "usage") "output_tokens") (VNum 0))).

Definition convert_fails (raw : value) : bool :=
  nullish raw || content_fails raw || counts_fail raw.

Definition is_object (v : value) : bool :=
  match v with
  | VObj _ => true
  | _ => false
  end.

(** A line [_parseStreamJson] passes over: blank, or not JSON. *)
Definition passed_over (JSON_parse : string -> result value) (line : string)
  : bool :=
  is_empty (trim line)
  || match JSON_parse line with
     | Throw _ => true
     | Ok _ => false
     end.

(** The reply of the request validator to a message without role or
    content, and to a message with an unknown role, at index [i]. *)
Definition missing_fields_reply (i : Z) : Server.http_error :=
  {| Server.status := 400;
     Server.message := "Message at index " ++ string_of_Z i
                       ++ " missing required fields 'role' or 'content'";
     Server.type := "invalid_request_error";
     Server.code := "invalid_message_format" |}.

Definition invalid_role_reply (i : Z) (role : value) : Server.http_error :=
  {| Server.status := 400;
     Server.message := "Message at index " ++ string_of_Z i
                       ++ " has invalid role '" ++ text_of role
                       ++ "'. Must be 'system', 'user', or 'assistant'";
     Server.type := "invalid_request_error";
     Server.code := "invalid_role" |}.

(** The frame of a chunk:
    [data: {"id":"chatcmpl-<id>","object":"chat.completion.chunk",
    "created":<seconds>,"model":<model>,"choices":[{"index":0,
    "delta":{"content":<text>},"finish_reason":<reason, or null>}]}]
    and a blank line, the model being that of the request or else the
    default one. *)
Definition chunk_frame (cfg : Executor.config) (request : Executor.props)
    (requestId : string) (now : Z) (content : string) (stop_reason : value)
  : string :=
  "data: {" ++ Spec.lit "id" ++ ":" ++ quote ("chatcmpl-" ++ requestId)
  ++ "," ++ Spec.lit "object" ++ ":" ++ Spec.lit "chat.completion.chunk"
  ++ "," ++ Spec.lit "created" ++ ":" ++ number_text (now / 1000)
  ++ "," ++ Spec.lit "model" ++ ":"
  ++ stringify (or_else (lookup "model" request)
                  (VStr (Executor.defaultModel cfg)))
  ++ "," ++ Spec.lit "choices" ++ ":[{" ++ Spec.lit "index" ++ ":0,"
  ++ Spec.lit "delta" ++ ":{" ++ Spec.lit "content" ++ ":" ++ quote content
  ++ "}," ++ Spec.lit "finish_reason" ++ ":"
  ++ stringify (or_else stop_reason VNull)
  ++ "}]}" ++ nl ++ nl.

(** A frame of the event stream: [data: ], a payload on one line, and a
    blank line. *)
Definition sse_frame (frame : string) : Prop :=
  exists payload : string,
    frame = "data: " ++ payload ++ nl ++ nl /\ one_line payload = true.

End Props.

(* ================================================================== *)
(** ** Properties of the response translation *)
(* ================================================================== *)

Import JS.

Lemma get_not_nullish (v : value) (k : string) :
  nullish v = false -> get v k = Ok (get_opt v k).
Proof.
  destruct v; simpl; intros H; try reflexivity; discriminate H.
Qed.

Lemma filter_text_total (blocks : list value) :
  forallb (fun b => negb (nullish b)) blocks = true ->
  Executor.filter_text blocks = Ok (Spec.text_blocks blocks).
Proof.
  induction blocks as [|b bs IH]; simpl; intros H.
  - reflexivity.
  - apply andb_prop in H. destruct H as [Hb Hbs].
    apply negb_true_iff in Hb.
    rewrite (get_not_nullish b "type" Hb). simpl.
    rewrite (IH Hbs). simpl.
    destruct (eq_str (get_opt b "type") "text"); reflexivity.
Qed.

Lemma text_blocks_not_nullish (blocks : list value) :
  forallb (fun b => negb (nullish b)) (Spec.text_blocks blocks) = true.
Proof.
  induction blocks as [|b bs IH]; simpl.
  - reflexivity.
  - destruct b; simpl; try exact IH.
    destruct (eq_str (lookup "type" fields) "text"); simpl; exact IH.
Qed.

Lemma map_text_total (blocks : list value) :
  forallb (fun b => negb (nullish b)) blocks = true ->
  Executor.map_text blocks = Ok (map (fun b => get_opt b "text") blocks).
Proof.
  induction blocks as [|b bs IH]; simpl; intros H.
  - reflexivity.
  - apply andb_prop in H. destruct H as [Hb Hbs].
    apply negb_true_iff in Hb.
    rewrite (get_not_nullish b "text" Hb). simpl.
    rewrite (IH Hbs). reflexivity.
Qed.

Lemma join_printable (sep : string) (xs : list value) :
  forallb printable xs = true ->
  join sep xs = Ok (String.concat sep (map elem_text xs)).
Proof.
  intros H. unfold join. rewrite H. reflexivity.
Qed.

Lemma join_unprintable (sep : string) (xs : list value) :
  forallb printable xs = false -> join sep xs = Throw TypeError.
Proof.
  intros H. unfold join. rewrite H. reflexivity.
Qed.

Lemma to_string_printable (v : value) :
  printable v = true -> to_string v = Ok (text_of v).
Proof.
  intros H. unfold to_string. rewrite H. reflexivity.
Qed.

Lemma to_string_unprintable (v : value) :
  printable v = false -> to_string v = Throw TypeError.
Proof.
  intros H. unfold to_string. rewrite H. reflexivity.
Qed.

(** On an object the extraction follows the priority order and does not
    raise, as long as a content list has no [null] in it and the texts of
    its text blocks can be converted to strings. *)
Lemma extract_content_object (fields : Executor.props) :
  Spec.no_null_block fields = true ->
  Spec.texts_printable fields = true ->
  Executor.extract_content (VObj fields) = Ok (Spec.priority_content fields).
Proof.
  unfold Spec.no_null_block, Spec.texts_printable, Executor.extract_content,
    Spec.priority_content.
  cbn [is_string get bind]. intros H Hp.
  destruct (truthy (lookup "result" fields)); [reflexivity|].
  destruct (truthy (lookup "content" fields)) eqn:Hc.
  - destruct (lookup "content" fields) as [| | | | | |blocks|]; try reflexivity.
    rewrite (filter_text_total blocks H). cbn [bind].
    rewrite (map_text_total _ (text_blocks_not_nullish blocks)). cbn [bind].
    fold (Spec.block_texts blocks).
    rewrite (join_printable nl _ Hp). reflexivity.
  - destruct (truthy (lookup "text" fields)); [reflexivity|].
    destruct (truthy (get_opt (lookup "message" fields) "content")); reflexivity.
Qed.

(** Integers whose sum is at most 2^53 in magnitude add exactly. *)
Lemma round_double_exact (z : Z) :
  Z.abs z <= 9007199254740992 -> round_double z = z.
Proof.
  intros H. unfold round_double.
  change (2 ^ 53) with 9007199254740992.
  destruct (Z.abs z <=? 9007199254740992) eqn:E; [reflexivity|].
  apply Z.leb_gt in E. lia.
Qed.

Import Executor.

(** C1 (as amended). For every terminal JSON object whose content list, if
    it has one, holds no [null] and no text block whose text cannot be
    converted to a string, and whose token counts can be converted too,
    [_convertToOpenAiFormat] returns without raising, and the content of the
    result follows the priority order over the fields holding a truthy
    value: [result]; else [content], verbatim unless it is a list, in which
    case the texts of exactly the blocks of type ["text"] are joined with a
    newline between them; else [text]; else [message.content]; else the
    empty string. Each token count is the usage field, or 0 when it is
    absent; the total is what [+] makes of the two, their sum when they are
    integers and the sum is at most 2^53 in magnitude; the finish reason is
    the backend's, or ["stop"] when there is none. *)
Theorem C1_convert_priority_order :
  forall (fields : props) (model : value) (requestId : string) (now : Z),
    Spec.no_null_block fields = true ->
    Spec.texts_printable fields = true ->
    printable (Spec.input_count fields) = true ->
    printable (Spec.output_count fields) = true ->
    exists r : Response,
      _convertToOpenAiFormat (VObj fields) model requestId now = Ok r /\
      choices r =
        [ {| index := 0;
             message := {| role := "assistant";
                           content := Spec.priority_content fields |};
             finish_reason := or_else (lookup "stop_reason" fields) (VStr "stop") |} ] /\
      prompt_tokens (usage r) =
        or_else (get_opt (lookup "usage" fields) "input_tokens") (VNum 0) /\
      completion_tokens (usage r) =
        or_else (get_opt (lookup "usage" fields) "output_tokens") (VNum 0) /\
      add (prompt_tokens (usage r)) (completion_tokens (usage r))
      = Ok (total_tokens (usage r)) /\
      (lookup "usage" fields = VUndef ->
         prompt_tokens (usage r) = VNum 0 /\
         completion_tokens (usage r) = VNum 0 /\
         total_tokens (usage r) = VNum 0) /\
      (forall a b : Z,
         prompt_tokens (usage r) = VNum a ->
         completion_tokens (usage r) = VNum b ->
         Z.abs (a + b) <= 9007199254740992 ->
         total_tokens (usage r) = VNum (a + b)) /\
      (lookup "stop_reason" fields = VUndef ->
         map finish_reason (choices r) = [VStr "stop"]).
Proof.
  intros fields model requestId now Hblocks Htexts Hin Hout.
  unfold _convertToOpenAiFormat.
  rewrite (extract_content_object fields Hblocks Htexts).
  cbn [bind get].
  fold (Spec.input_count fields). fold (Spec.output_count fields).
  assert (Hadd : exists total,
             add (Spec.input_count fields) (Spec.output_count fields) = Ok total).
  { unfold add.
    destruct (stringy (Spec.input_count fields)
              || stringy (Spec.output_count fields)).
    - rewrite (to_string_printable _ Hin), (to_string_printable _ Hout).
      eexists. reflexivity.
    - eexists. reflexivity. }
  destruct Hadd as [total Hadd]. rewrite Hadd. cbn [bind].
  eexists. split; [reflexivity|].
  cbn [choices usage prompt_tokens completion_tokens total_tokens].
  split; [reflexivity|]. split; [reflexivity|]. split; [reflexivity|].
  split; [exact Hadd|]. split; [|split].
  - intros Hu. unfold Spec.input_count, Spec.output_count in *.
    rewrite Hu in *. cbn in Hadd. injection Hadd as Hadd. subst total.
    cbn. auto.
  - intros a b Ha Hb Hs. rewrite Ha, Hb in Hadd.
    cbn [add stringy orb to_number] in Hadd.
    rewrite (round_double_exact _ Hs) in Hadd.
    injection Hadd as Hadd. symmetry. exact Hadd.
  - intros Hs. rewrite Hs. reflexivity.
Qed.

(** The scenario of the specification, at the level of the parsed object:
    content ["4"], finish reason ["stop"], token counts 5, 1 and 6. And an
    object without result whose content is two text blocks around a
    tool-use block: the two texts with a newline between them. *)
Lemma C1_convert_priority_order_witness :
  let blocks :=
    [Spec.text_block "a";
     VObj [("type", VStr "tool_use"); ("text", VStr "ignored")];
     Spec.text_block "b"] in
  Spec.no_null_block Spec.scenario_fields = true /\
  Spec.texts_printable Spec.scenario_fields = true /\
  (exists r : Response,
     _convertToOpenAiFormat (VObj Spec.scenario_fields) (VStr "sonnet") "r1" 0 = Ok r /\
     choices r =
       [ {| index := 0;
            message := {| role := "assistant"; content := VStr "4" |};
            finish_reason := VStr "stop" |} ] /\
     usage r =
       {| prompt_tokens := VNum 5; completion_tokens := VNum 1;
          total_tokens := VNum 6 |}) /\
  (exists r : Response,
     _convertToOpenAiFormat
       (VObj [("content", VArr blocks); ("stop_reason", VStr "end_turn")])
       (VStr "sonnet") "r1" 0 = Ok r /\
     choices r =
       [ {| index := 0;
            message :=
              {| role := "assistant";
                 content := VStr ("a" ++ String "010" EmptyString ++ "b") |};
            finish_reason := VStr "end_turn" |} ] /\
     usage r =
       {| prompt_tokens := VNum 0; completion_tokens := VNum 0;
          total_tokens := VNum 0 |}).
Proof.
  intros blocks.
  split; [reflexivity|]. split; [reflexivity|]. split.
  - destruct (C1_convert_priority_order Spec.scenario_fields (VStr "sonnet") "r1" 0
                eq_refl eq_refl eq_refl eq_refl)
      as [r [Hr [Hc [Hp [Ho [_ [_ [Hsum _]]]]]]]].
    exists r. split; [exact Hr|]. split; [exact Hc|].
    pose proof (Hsum 5 1 Hp Ho ltac:(vm_compute; discriminate)) as Ht.
    destruct r as [i o c m ch [p q t]].
    cbn [usage prompt_tokens completion_tokens total_tokens] in *.
    rewrite Hp, Ho, Ht. reflexivity.
  - destruct (C1_convert_priority_order
                [("content", VArr blocks); ("stop_reason", VStr "end_turn")]
                (VStr "sonnet") "r1" 0 eq_refl eq_refl eq_refl eq_refl)
      as [r [Hr [Hc [_ [_ [_ [Hz _]]]]]]].
    exists r. split; [exact Hr|]. split; [exact Hc|].
    destruct (Hz eq_refl) as [Hp [Ho Ht]].
    destruct r as [i o c m ch [p q t]].
    cbn [usage prompt_tokens completion_tokens total_tokens] in *.
    rewrite Hp, Ho, Ht. reflexivity.
Defined.

(** C1 as stated fails on a content list of two text blocks: the code puts
    a newline between the texts, so the content is not their concatenation.
    Nor does the extraction never raise: a content list holding [null], or a
    text block whose text is [{toString: 1}], gives a [TypeError], and so
    does a token count that is such an object. A result field that is
    present but empty does not come first. And the total is not the sum of
    the counts when that is not a double: 2^53 and 1 give 2^53. *)
Lemma C1_text_blocks_not_concatenated :
  let blocks := [Spec.text_block "a"; Spec.text_block "b"] in
  let odd := VObj [("toString", VNum 1)] in
  extract_content (VObj [("content", VArr blocks)]) = Ok (VStr ("a" ++ nl ++ "b"))
  /\ VStr ("a" ++ nl ++ "b") <> VStr (Spec.text_concatenation blocks)
  /\ extract_content (VObj [("content", VArr [VNull])]) = Throw TypeError
  /\ extract_content (VObj [("result", VStr EmptyString); ("content", VStr "x")])
     = Ok (VStr "x")
  /\ extract_content
       (VObj [("content", VArr [VObj [("type", VStr "text"); ("text", odd)]])])
     = Throw TypeError
  /\ _convertToOpenAiFormat
       (VObj [("result", VStr "4"); ("usage", VObj [("input_tokens", odd)])])
       (VStr "sonnet") "r1" 0
     = Throw TypeError
  /\ (exists r : Response,
        _convertToOpenAiFormat
          (VObj [("result", VStr "4");
                 ("usage", VObj [("input_tokens", VNum 9007199254740992);
                                 ("output_tokens", VNum 1)])])
          (VStr "sonnet") "r1" 0 = Ok r
        /\ total_tokens (usage r) = VNum 9007199254740992
        /\ total_tokens (usage r) <> VNum (9007199254740992 + 1)).
Proof.
  intros blocks odd.
  split; [reflexivity|]. split; [vm_compute; discriminate|].
  split; [reflexivity|]. split; [reflexivity|]. split; [reflexivity|].
  split; [reflexivity|].
  eexists. split; [vm_compute; reflexivity|].
  split; [reflexivity|]. vm_compute. discriminate.
Qed.

(** The same scenario through [execute]: the backend prints the object on
    stdout and exits with status 0. *)
Example scenario_through_execute :
  execute Spec.example_config Json.JSON_parse
    [("messages", VArr [VObj [("role", VStr "user"); ("content", VStr "2+2?")]])]
    VUndef "r1" 0 None
    [(10, Stdout Spec.scenario_stdout); (20, Close (Some 0))] 1000
  = Returned
      {| id := "chatcmpl-r1"; object := "chat.completion"; created := 1;
         model := VStr "sonnet";
         choices :=
           [ {| index := 0;
                message := {| role := "assistant"; content := VStr "4" |};
                finish_reason := VStr "stop" |} ];
         usage := {| prompt_tokens := VNum 5; completion_tokens := VNum 1;
                     total_tokens := VNum 6 |} |}.
Proof. vm_compute. reflexivity. Qed.

(** The clock enters the result through [created] alone. *)
Lemma convert_created (raw model : value) (requestId : string) (now : Z) (r : Response) :
  _convertToOpenAiFormat raw model requestId now = Ok r -> created r = now / 1000.
Proof.
  unfold _convertToOpenAiFormat.
  destruct (extract_content raw); simpl; [|discriminate].
  destruct (get raw "usage"); simpl; [|discriminate].
  destruct (get raw "stop_reason"); simpl; [|discriminate].
  destruct (add _ _); simpl; [|discriminate].
  intros H. injection H as H. rewrite <- H. reflexivity.
Qed.

(** C9 (as amended). Two runs of [_convertToOpenAiFormat] on the same raw
    output, model and request id give identical results whenever the clock
    reads the same second in both; in general both raise the same exception
    or both return, and then the results agree on every field but [created],
    which is the second at which each run took place. *)
Theorem C9_convert_twice_same_up_to_created :
  forall (raw model : value) (requestId : string) (now1 now2 : Z),
    (now1 / 1000 = now2 / 1000 ->
       _convertToOpenAiFormat raw model requestId now1
       = _convertToOpenAiFormat raw model requestId now2) /\
    match _convertToOpenAiFormat raw model requestId now1,
          _convertToOpenAiFormat raw model requestId now2 with
    | Ok r1, Ok r2 =>
        id r1 = id r2 /\ object r1 = object r2 /\
        Executor.model r1 = Executor.model r2 /\
        choices r1 = choices r2 /\ usage r1 = usage r2 /\
        created r1 = now1 / 1000 /\ created r2 = now2 / 1000
    | Throw e1, Throw e2 => e1 = e2
    | _, _ => False
    end.
Proof.
  intros raw model requestId now1 now2.
  unfold _convertToOpenAiFormat.
  destruct (extract_content raw); simpl; [|auto].
  destruct (get raw "usage"); simpl; [|auto].
  destruct (get raw "stop_reason"); simpl; [|auto].
  destruct (add _ _); simpl; [|auto].
  split.
  - intros H. rewrite H. reflexivity.
  - repeat split.
Qed.

Lemma C9_convert_twice_same_up_to_created_witness :
  1000 / 1000 = 1999 / 1000 /\
  _convertToOpenAiFormat (VObj Spec.scenario_fields) (VStr "sonnet") "r1" 1000
  = _convertToOpenAiFormat (VObj Spec.scenario_fields) (VStr "sonnet") "r1" 1999.
Proof.
  split; [reflexivity|].
  apply (proj1 (C9_convert_twice_same_up_to_created
                  (VObj Spec.scenario_fields) (VStr "sonnet") "r1" 1000 1999)).
  reflexivity.
Defined.

(** C9 as stated fails: the same raw output converted at clock readings one
    second apart gives results that differ (in [created]). *)
Lemma C9_convert_depends_on_clock :
  _convertToOpenAiFormat (VObj Spec.scenario_fields) (VStr "sonnet") "r1" 0
  <> _convertToOpenAiFormat (VObj Spec.scenario_fields) (VStr "sonnet") "r1" 1000.
Proof.
  vm_compute. discriminate.
Qed.

(* ================================================================== *)
(** ** The two outward shapes *)
(* ================================================================== *)

Lemma eq_str_true (v : value) (s : string) :
  eq_str v s = true <-> v = VStr s.
Proof.
  destruct v; simpl; split; intros H; try discriminate.
  - apply String.eqb_eq in H. rewrite H. reflexivity.
  - injection H as H. apply String.eqb_eq. exact H.
Qed.

Lemma or_else_self (v : value) :
  truthy v = true \/ v = VStr EmptyString -> or_else v (VStr EmptyString) = v.
Proof.
  unfold or_else. intros [H|H].
  - rewrite H. reflexivity.
  - rewrite H. reflexivity.
Qed.

(** The extracted content is a truthy value or the empty string: every
    branch that assigns it is guarded by the truthiness of what it assigns,
    but for a joined block list and a string response, which are strings. *)
Lemma extract_content_truthy_or_empty (raw c : value) :
  extract_content raw = Ok c -> truthy c = true \/ c = VStr EmptyString.
Proof.
  unfold extract_content.
  destruct (is_string raw) eqn:Hs.
  - intros H. injection H as H. subst c.
    destruct raw; try discriminate Hs. destruct s; simpl; auto.
  - destruct (get raw "result") as [r|]; simpl; [|discriminate].
    destruct (truthy r) eqn:Hr.
    { intros H. injection H as H. subst c. auto. }
    destruct (get raw "content") as [x|]; simpl; [|discriminate].
    destruct (truthy x) eqn:Hx.
    { destruct x; try (intros H; injection H as H; subst c; auto).
      destruct (filter_text xs); simpl; [|discriminate].
      destruct (map_text a); simpl; [|discriminate].
      destruct (join nl a0) as [joined|]; simpl; [|discriminate].
      intros H. injection H as H. subst c.
      simpl. destruct joined; simpl; auto. }
    destruct (get raw "text") as [t|]; simpl; [|discriminate].
    destruct (truthy t) eqn:Ht.
    { intros H. injection H as H. subst c. auto. }
    destruct (get raw "message") as [m|]; simpl; [|discriminate].
    destruct (truthy (get_opt m "content")) eqn:Hm.
    + intros H. injection H as H. subst c. auto.
    + intros H. injection H as H. subst c. auto.
Qed.

(** C8. For every response produced by the translation, the Anthropic-shaped
    projection built by the [/v1/messages] route reports the same content
    text as the OpenAI shape, and its stop reason is ["end_turn"] exactly
    when the OpenAI finish reason is ["stop"]; every other finish reason is
    mapped to ["max_tokens"]. *)
Theorem C8_projections_agree :
  forall (raw model : value) (requestId : string) (now : Z) (r : Response),
    _convertToOpenAiFormat raw model requestId now = Ok r ->
    map Server.text (Server.content (Server.anthropicResponse r))
    = map (fun c => content (message c)) (choices r) /\
    (Server.stop_reason (Server.anthropicResponse r) = "end_turn"
     <-> map finish_reason (choices r) = [VStr "stop"]) /\
    (map finish_reason (choices r) <> [VStr "stop"] ->
     Server.stop_reason (Server.anthropicResponse r) = "max_tokens").
Proof.
  intros raw model requestId now r.
  unfold _convertToOpenAiFormat.
  destruct (extract_content raw) as [c|] eqn:Hc; simpl; [|discriminate].
  destruct (get raw "usage") as [u|]; simpl; [|discriminate].
  destruct (get raw "stop_reason") as [sr|]; simpl; [|discriminate].
  destruct (add _ _) as [total|]; simpl; [|discriminate].
  intros H. injection H as H. subst r.
  unfold Server.anthropicResponse, Server.first_content,
    Server.first_finish_reason, Server.first_choice. simpl.
  rewrite (or_else_self c (extract_content_truthy_or_empty raw c Hc)).
  split; [reflexivity|].
  destruct (eq_str (or_else sr (VStr "stop")) "stop") eqn:He.
  - apply eq_str_true in He. rewrite He.
    split; [split; reflexivity|]. intros Hn. exfalso. apply Hn. reflexivity.
  - split; [split|].
    + discriminate.
    + intros Hs. injection Hs as Hs. apply eq_str_true in Hs.
      rewrite Hs in He. discriminate He.
    + reflexivity.
Qed.

Lemma C8_projections_agree_witness :
  exists r : Response,
    _convertToOpenAiFormat (VObj Spec.scenario_fields) (VStr "sonnet") "r1" 0 = Ok r /\
    map Server.text (Server.content (Server.anthropicResponse r)) = [VStr "4"] /\
    map (fun c => content (message c)) (choices r) = [VStr "4"] /\
    Server.stop_reason (Server.anthropicResponse r) = "end_turn".
Proof.
  eexists. split; [reflexivity|].
  pose proof (C8_projections_agree (VObj Spec.scenario_fields) (VStr "sonnet") "r1" 0
                _ eq_refl) as [Hc [Hs _]].
  split; [|split].
  - rewrite Hc. reflexivity.
  - reflexivity.
  - apply Hs. reflexivity.
Defined.

(* ================================================================== *)
(** ** The argument vector *)
(* ================================================================== *)

Lemma is_undefined_true (v : value) : is_undefined v = true <-> v = VUndef.
Proof.
  destruct v; simpl; split; intros H; try discriminate; reflexivity.
Qed.

Lemma is_undefined_false (v : value) : is_undefined v = false <-> v <> VUndef.
Proof.
  destruct v; simpl; split; intros H; try discriminate; try reflexivity.
  exfalso. apply H. reflexivity.
Qed.

Lemma stringify_object_not_flag (fields : props) (flag : string) :
  Spec.starts_with_dash (VStr flag) = true ->
  VStr (stringify (VObj fields)) <> VStr flag.
Proof.
  intros Hf H. injection H as H. rewrite <- H in Hf. simpl in Hf. discriminate Hf.
Qed.

Lemma not_flag (v : value) (flag : string) :
  Spec.starts_with_dash v = false ->
  Spec.starts_with_dash (VStr flag) = true ->
  v <> VStr flag.
Proof.
  intros Hv Hf H. rewrite H in Hv. rewrite Hv in Hf. discriminate Hf.
Qed.

(** The properties of the settings object: [maxTokens] is there exactly
    when [max_tokens] is truthy, [temperature] exactly when it is defined,
    and there is nothing else. *)
Lemma settings_of_fields (request : props) :
  lookup "maxTokens" (settings_of request)
  = (if truthy (lookup "max_tokens" request)
     then lookup "max_tokens" request else VUndef) /\
  lookup "temperature" (settings_of request) = lookup "temperature" request /\
  (forall k, k <> "maxTokens" -> k <> "temperature" ->
             lookup k (settings_of request) = VUndef).
Proof.
  unfold settings_of.
  destruct (truthy (lookup "max_tokens" request)) eqn:Hm;
    destruct (is_undefined (lookup "temperature" request)) eqn:Ht; simpl;
    try (apply is_undefined_true in Ht; rewrite Ht);
    (split; [reflexivity|split; [reflexivity|]]);
    intros k Hk1 Hk2;
    repeat match goal with
    | |- context [String.eqb k ?s] =>
        let E := fresh "E" in
        destruct (String.eqb k s) eqn:E;
        [apply String.eqb_eq in E; congruence|]
    end; reflexivity.
Qed.

(** [_buildClaudeArgs], push by push. *)
Lemma buildClaudeArgs_parts (cfg : config) (request : props)
    (input_format output_format : value) :
  _buildClaudeArgs cfg request input_format output_format =
  ([VStr "--print"; VStr "--dangerously-skip-permissions"]
   ++ (if eq_str input_format "text" then []
       else [VStr "--input-format"; input_format])
   ++ [VStr "--output-format"; output_format]
   ++ (if eq_str output_format "stream-json" then [VStr "--verbose"] else [])
   ++ [VStr "--model"; or_else (lookup "model" request) (VStr (defaultModel cfg))]
   ++ (if truthy (lookup "max_tokens" request)
          || negb (is_undefined (lookup "temperature" request))
       then [VStr "--settings"; VStr (stringify (VObj (settings_of request)))]
       else []))%list.
Proof.
  unfold _buildClaudeArgs.
  destruct (eq_str input_format "text"),
    (eq_str output_format "stream-json"),
    (truthy (lookup "max_tokens" request)
     || negb (is_undefined (lookup "temperature" request))); reflexivity.
Qed.

Lemma settings_given_dec (request : props) :
  truthy (lookup "max_tokens" request)
  || negb (is_undefined (lookup "temperature" request)) = true
  /\ Spec.settings_given request
  \/ truthy (lookup "max_tokens" request)
     || negb (is_undefined (lookup "temperature" request)) = false
     /\ ~ Spec.settings_given request.
Proof.
  unfold Spec.settings_given.
  destruct (truthy (lookup "max_tokens" request)) eqn:Em; simpl.
  - left. auto.
  - destruct (is_undefined (lookup "temperature" request)) eqn:Et; simpl.
    + right. split; [reflexivity|]. apply is_undefined_true in Et.
      intros [H|H]; [discriminate H|]. apply H. exact Et.
    + left. split; [reflexivity|]. right. apply is_undefined_false. exact Et.
Qed.

Lemma eq_str_dec (v : value) (s : string) :
  eq_str v s = true /\ v = VStr s \/ eq_str v s = false /\ v <> VStr s.
Proof.
  destruct (eq_str v s) eqn:E.
  - left. split; [reflexivity|]. apply eq_str_true. exact E.
  - right. split; [reflexivity|]. intros H. apply eq_str_true in H. congruence.
Qed.

(** The vector reads nothing of the request but [model], [max_tokens] and
    [temperature]. *)
Lemma buildClaudeArgs_reads (cfg : config) (request request' : props)
    (input_format output_format : value) :
  lookup "model" request' = lookup "model" request ->
  lookup "max_tokens" request' = lookup "max_tokens" request ->
  lookup "temperature" request' = lookup "temperature" request ->
  _buildClaudeArgs cfg request' input_format output_format
  = _buildClaudeArgs cfg request input_format output_format.
Proof.
  intros Hm Ht Hp. unfold _buildClaudeArgs, settings_of.
  rewrite Hm, Ht, Hp. reflexivity.
Qed.

(** The text of the settings blob, member by member. *)
Lemma stringify_settings (request : props) :
  stringify (VObj (settings_of request)) = Spec.settings_blob request.
Proof.
  unfold settings_of, Spec.settings_blob, Spec.settings_members.
  destruct (lookup "max_tokens" request) as [| |b|n| |m|xs|fields];
    destruct (lookup "temperature" request) as [| |b'|n'| |m'|xs'|fields'];
    cbn [truthy is_undefined negb app];
    repeat match goal with
           | |- context [if ?c then _ else _] => destruct c
           end;
    reflexivity.
Qed.

Lemma settings_blob_not_flag (request : props) (flag : string) :
  Spec.starts_with_dash (VStr flag) = true ->
  VStr (Spec.settings_blob request) <> VStr flag.
Proof.
  rewrite <- stringify_settings. apply stringify_object_not_flag.
Qed.

(** C7 (as amended). The argument vector is a function of the model,
    [max_tokens], [temperature] and the two formats, and of nothing else in
    the request. It starts with [--print] and
    [--dangerously-skip-permissions]; then comes [--input-format] with its
    value unless the input format is ["text"]; then [--output-format] with
    its value, always; then [--verbose] exactly when the output format is
    ["stream-json"]; then [--model] with the model; and last, when
    [max_tokens] holds a truthy value or [temperature] is not [undefined],
    one [--settings] option whose value is the JSON text of a single object
    ([{"maxTokens":..,"temperature":..}], with the member [maxTokens] when
    [max_tokens] is truthy and the member [temperature] when it is not
    [undefined]), and nothing at all when neither is the case. When no
    option value begins with a dash, this reads on the vector as a list:
    [--verbose] occurs in it exactly when the output format is
    ["stream-json"], and [--settings] exactly when that test holds. *)
Theorem C7_argument_vector :
  forall (cfg : config) (request : props) (input_format output_format : value),
    let args := _buildClaudeArgs cfg request input_format output_format in
    let mdl := or_else (lookup "model" request) (VStr (defaultModel cfg)) in
    (exists input_part verbose_part settings_part : list value,
       args = ([VStr "--print"; VStr "--dangerously-skip-permissions"]
               ++ input_part ++ [VStr "--output-format"; output_format]
               ++ verbose_part ++ [VStr "--model"; mdl] ++ settings_part)%list /\
       (input_part = [] /\ input_format = VStr "text"
        \/ input_part = [VStr "--input-format"; input_format]
           /\ input_format <> VStr "text") /\
       (verbose_part = [VStr "--verbose"] /\ output_format = VStr "stream-json"
        \/ verbose_part = [] /\ output_format <> VStr "stream-json") /\
       (settings_part = [VStr "--settings"; VStr (Spec.settings_blob request)]
          /\ (truthy (lookup "max_tokens" request) = true
              \/ lookup "temperature" request <> VUndef)
        \/ settings_part = []
           /\ truthy (lookup "max_tokens" request) = false
           /\ lookup "temperature" request = VUndef)) /\
    In (VStr "--print") args /\
    In (VStr "--dangerously-skip-permissions") args /\
    In (VStr "--output-format") args /\
    (forall request' : props,
       lookup "model" request' = lookup "model" request ->
       lookup "max_tokens" request' = lookup "max_tokens" request ->
       lookup "temperature" request' = lookup "temperature" request ->
       _buildClaudeArgs cfg request' input_format output_format = args) /\
    (Spec.starts_with_dash input_format = false ->
     Spec.starts_with_dash output_format = false ->
     Spec.starts_with_dash mdl = false ->
     (In (VStr "--verbose") args <-> output_format = VStr "stream-json") /\
     (In (VStr "--settings") args
      <-> truthy (lookup "max_tokens" request) = true
          \/ lookup "temperature" request <> VUndef)).
Proof.
  intros cfg request input_format output_format args mdl.
  subst args. rewrite buildClaudeArgs_parts, stringify_settings. fold mdl.
  destruct (eq_str_dec input_format "text") as [[Ei Hi]|[Ei Hi]]; rewrite Ei;
    destruct (eq_str_dec output_format "stream-json") as [[Eo Ho]|[Eo Ho]];
    rewrite Eo;
    destruct (settings_given_dec request) as [[Es Hs]|[Es Hs]]; rewrite Es.
  all: unfold Spec.settings_given in Hs.
  all: assert (Hs' : truthy (lookup "max_tokens" request) = true
                     \/ lookup "temperature" request <> VUndef
                     \/ (truthy (lookup "max_tokens" request) = false
                         /\ lookup "temperature" request = VUndef)).
  all: try (destruct (truthy (lookup "max_tokens" request)) eqn:Em;
            [left; reflexivity|];
            destruct (is_undefined (lookup "temperature" request)) eqn:Et;
            [right; right; split; [reflexivity|];
             apply is_undefined_true; exact Et
            |right; left; apply is_undefined_false; exact Et]).
  all: assert (Hn : ~ (truthy (lookup "max_tokens" request) = true
                       \/ lookup "temperature" request <> VUndef) ->
                    truthy (lookup "max_tokens" request) = false
                    /\ lookup "temperature" request = VUndef)
    by (intros Hneg; destruct Hs' as [H|[H|H]];
        [exfalso; apply Hneg; left; exact H
        |exfalso; apply Hneg; right; exact H
        |exact H]).
  all: clear Hs'.
  all: split;
    [ eexists _, _, _; split; [reflexivity|];
      split; [first [left; split; [reflexivity|assumption]
                    |right; split; [reflexivity|assumption]]|];
      split; first [left; split; [reflexivity|assumption]
                   |right; split; [reflexivity|assumption]
                   |right; split; [reflexivity|exact (Hn Hs)]]
    | ].
  all: cbn [app In].
  all: split; [auto|]; split; [auto|]; split; [auto 10|].
  all: split;
    [ intros request' Hm Ht Hp;
      rewrite (buildClaudeArgs_reads cfg request request' _ _ Hm Ht Hp);
      rewrite buildClaudeArgs_parts, stringify_settings; fold mdl;
      rewrite Ei, Eo, Es; reflexivity
    | ].
  all: intros Di Do Dm.
  all: pose proof (not_flag _ "--verbose" Di eq_refl) as Ni1;
    pose proof (not_flag _ "--settings" Di eq_refl) as Ni2;
    pose proof (not_flag _ "--verbose" Do eq_refl) as No1;
    pose proof (not_flag _ "--settings" Do eq_refl) as No2;
    pose proof (not_flag _ "--verbose" Dm eq_refl) as Nm1;
    pose proof (not_flag _ "--settings" Dm eq_refl) as Nm2;
    pose proof (settings_blob_not_flag request "--verbose" eq_refl) as Ns1;
    pose proof (settings_blob_not_flag request "--settings" eq_refl) as Ns2.
  all: split; split; intros H; try assumption; try (auto 12; fail).
  all: repeat match goal with
         | H : _ \/ _ |- _ => destruct H as [H|H]
         | H : False |- _ => destruct H
         | H : VStr _ = VStr _ |- _ => discriminate H
         | H : ?x = VStr _, N : ?x <> VStr _ |- _ => exfalso; exact (N H)
         | H : VStr ?x = VStr _, N : VStr ?x <> VStr _ |- _ => exfalso; exact (N H)
         end.
Qed.

(** A request with [max_tokens] 100 and [temperature] 1, text in and
    line-delimited JSON out: the whole vector, with the blob
    [{"maxTokens":100,"temperature":1}]. *)
Lemma C7_argument_vector_witness :
  let request := [("max_tokens", VNum 100); ("temperature", VNum 1)] in
  let args :=
    _buildClaudeArgs Spec.example_config request (VStr "text") (VStr "stream-json") in
  args
  = [VStr "--print"; VStr "--dangerously-skip-permissions";
     VStr "--output-format"; VStr "stream-json"; VStr "--verbose";
     VStr "--model"; VStr "sonnet"; VStr "--settings";
     VStr ("{" ++ Spec.lit "maxTokens" ++ ":100,"
           ++ Spec.lit "temperature" ++ ":1}")] /\
  In (VStr "--verbose") args /\
  In (VStr "--settings") args.
Proof.
  intros request args.
  destruct (C7_argument_vector Spec.example_config request
              (VStr "text") (VStr "stream-json"))
    as [[ip [vp [sp [Ha [Hi [Hv Hs]]]]]] [_ [_ [_ [_ H]]]]].
  destruct (H eq_refl eq_refl eq_refl) as [Hv' Hs'].
  split; [|split].
  - destruct Hi as [[Hi _]|[_ Hi]]; [|exfalso; apply Hi; reflexivity].
    destruct Hv as [[Hv _]|[_ Hv]]; [|exfalso; apply Hv; reflexivity].
    destruct Hs as [[Hs _]|[_ [Hs _]]]; [|discriminate Hs].
    subst args. rewrite Ha, Hi, Hv, Hs. reflexivity.
  - apply Hv'. reflexivity.
  - apply Hs'. left. reflexivity.
Defined.

(** C7 as stated fails: a request that sets [max_tokens] to 0 gets no
    [--settings] option at all, and one that sets [temperature] to [null]
    gets the blob [{"temperature":null}]. *)
Lemma C7_max_tokens_zero_is_not_sent :
  let request := [("max_tokens", VNum 0)] in
  let args :=
    _buildClaudeArgs Spec.example_config request (VStr "text") (VStr "json") in
  Spec.is_set (lookup "max_tokens" request) = true /\
  args = [VStr "--print"; VStr "--dangerously-skip-permissions";
          VStr "--output-format"; VStr "json"; VStr "--model"; VStr "sonnet"] /\
  ~ In (VStr "--settings") args /\
  _buildClaudeArgs Spec.example_config [("temperature", VNull)]
    (VStr "text") (VStr "json")
  = [VStr "--print"; VStr "--dangerously-skip-permissions";
     VStr "--output-format"; VStr "json"; VStr "--model"; VStr "sonnet";
     VStr "--settings"; VStr ("{" ++ Spec.lit "temperature" ++ ":null}")].
Proof.
  split; [reflexivity|]. split; [reflexivity|]. split; [|reflexivity].
  cbn. intros H.
  repeat (destruct H as [H|H]; [discriminate H|]). exact H.
Qed.

(* ================================================================== *)
(** ** The stdin payload *)
(* ================================================================== *)


Lemma streaming_textParts_same (msgs : list value) :
  Streaming.textParts msgs = textParts msgs.
Proof.
  induction msgs as [|msg rest IH]; [reflexivity|].
  cbn [Streaming.textParts textParts]. rewrite IH. reflexivity.
Qed.











(** On an empty sequence [_prepareInput] returns the empty payload, in
    both input modes. *)
Lemma prepareInput_empty (request : props) (input_format : value) :
  lookup "messages" request = VArr [] ->
  _prepareInput request input_format = Ok EmptyString.
Proof.
  intros Hm. unfold _prepareInput. rewrite Hm.
  destruct (eq_str input_format "stream-json"); reflexivity.
Qed.

(** C5 (as amended). A request whose messages sequence is empty is answered
    by the HTTP layer with status 400 and type [invalid_request_error] before
    any executor is called, on [/v1/chat/completions] (through
    [validateChatCompletionRequest]) and on [/v1/messages] alike, so no
    subprocess is spawned for it. The execution layer has no check of its
    own: [_prepareInput] returns the empty payload without raising, and
    [execute] goes on to spawn the subprocess with empty stdin. *)
Theorem C5_empty_messages :
  forall (cfg : config) (request : props),
    lookup "messages" request = VArr [] ->
    Server.chat_completions request
    = Server.Reply
        {| Server.status := 400;
           Server.message := "messages field is required and must be a non-empty array";
           Server.type := "invalid_request_error";
           Server.code := "invalid_messages" |} /\
    Server.messages_route cfg request
    = Server.Reply
        {| Server.status := 400;
           Server.message := "messages array is required";
           Server.type := "invalid_request_error";
           Server.code := "missing_messages" |} /\
    (forall input_format : value,
       _prepareInput request input_format = Ok EmptyString) /\
    (forall (options : value) (fmts : value * value),
       formats_of options = Ok fmts ->
       execute_to_spawn cfg request options
       = Ok (_buildClaudeArgs cfg request (fst fmts) (snd fmts), EmptyString)).
Proof.
  intros cfg request Hm.
  split; [|split; [|split]].
  - unfold Server.chat_completions, Server.validateChatCompletionRequest.
    rewrite Hm. reflexivity.
  - unfold Server.messages_route. rewrite Hm. reflexivity.
  - intros input_format. apply prepareInput_empty. exact Hm.
  - intros options fmts Hf. unfold execute_to_spawn. rewrite Hf. simpl.
    rewrite (prepareInput_empty request (fst fmts) Hm). reflexivity.
Qed.

Lemma C5_empty_messages_witness :
  let request := [("model", VStr "sonnet"); ("messages", VArr [])] in
  lookup "messages" request = VArr [] /\
  Server.chat_completions request
  = Server.Reply
      {| Server.status := 400;
         Server.message := "messages field is required and must be a non-empty array";
         Server.type := "invalid_request_error";
         Server.code := "invalid_messages" |} /\
  _prepareInput request (VStr "text") = Ok EmptyString.
Proof.
  intros request.
  destruct (C5_empty_messages Spec.example_config request eq_refl)
    as [H1 [_ [H3 _]]].
  split; [reflexivity|]. split; [exact H1|exact (H3 (VStr "text"))].
Defined.

(** C5 as stated fails: handed an empty messages sequence, [execute] throws
    nothing before the spawn; the subprocess is started with the usual
    arguments and an empty stdin payload. *)
Lemma C5_executor_accepts_empty_messages :
  execute_to_spawn Spec.example_config
    [("model", VStr "sonnet"); ("messages", VArr [])] VUndef
  = Ok ([VStr "--print"; VStr "--dangerously-skip-permissions";
         VStr "--output-format"; VStr "json"; VStr "--model"; VStr "sonnet"],
        EmptyString).
Proof. reflexivity. Qed.

(* ================================================================== *)
(** ** Runs of the buffered executor *)
(* ================================================================== *)

Lemma append_assoc (a b c : string) : ((a ++ b) ++ c = a ++ (b ++ c))%string.
Proof.
  induction a as [|x a IH]; simpl; [reflexivity|]. rewrite IH. reflexivity.
Qed.

Lemma append_empty_r (a : string) : (a ++ EmptyString = a)%string.
Proof.
  induction a as [|x a IH]; simpl; [reflexivity|]. rewrite IH. reflexivity.
Qed.

Section BufferedRuns.

Variable cfg : config.
Variable JSON_parse : string -> result value.

Lemma run_cons (st : proc) (tev : Z * event) (trace : list (Z * event)) :
  run cfg JSON_parse st (tev :: trace)
  = run cfg JSON_parse (step cfg JSON_parse st tev) trace.
Proof. reflexivity. Qed.

Lemma run_app (st : proc) (trace1 trace2 : list (Z * event)) :
  run cfg JSON_parse st (trace1 ++ trace2)
  = run cfg JSON_parse (run cfg JSON_parse st trace1) trace2.
Proof. unfold run. apply fold_left_app. Qed.

(** The state the handlers start from once the input is written. *)
Lemma spawned_state (t0 : Z) :
  _spawnClaudeProcess cfg t0 None
  = {| stdout := EmptyString; stderr := EmptyString;
       timeoutHandle := Some (t0 + timeout cfg); escalation := None;
       processExited := false; signals := []; settled := None |}.
Proof. reflexivity. Qed.

(** While only output arrives and the deadline is ahead, the handlers do
    nothing but fill the two buffers. *)
Lemma run_output_before_deadline (trace : list (Z * event)) :
  forall (out err : string) (d : Z) (exited : bool) (sigs : list signal)
         (p : option (result value)),
    forallb Spec.is_output trace = true ->
    forallb (Spec.before d) trace = true ->
    run cfg JSON_parse
      {| stdout := out; stderr := err; timeoutHandle := Some d;
         escalation := None; processExited := exited; signals := sigs;
         settled := p |} trace
    = {| stdout := out ++ Spec.stdout_of trace;
         stderr := err ++ Spec.stderr_of trace;
         timeoutHandle := Some d; escalation := None;
         processExited := exited; signals := sigs; settled := p |}.
Proof.
  induction trace as [|[t ev] trace IH]; intros out err d exited sigs p Ho Hb.
  - simpl. rewrite !append_empty_r. reflexivity.
  - simpl in Ho, Hb. apply andb_prop in Ho. destruct Ho as [Ho Ho'].
    apply andb_prop in Hb. destruct Hb as [Hb Hb'].
    unfold Spec.before in Hb. simpl in Hb. apply Z.ltb_lt in Hb.
    rewrite run_cons. unfold step, advance. simpl.
    destruct (d <=? t) eqn:Hd; [apply Z.leb_le in Hd; lia|]. simpl.
    destruct ev; simpl; try discriminate Ho.
    + unfold on_stdout. simpl.
      rewrite (IH _ _ _ _ _ _ Ho' Hb'). rewrite append_assoc. reflexivity.
    + unfold on_stderr. simpl.
      rewrite (IH _ _ _ _ _ _ Ho' Hb'). rewrite append_assoc. reflexivity.
    + exact (IH _ _ _ _ _ _ Ho' Hb').
Qed.

(** The state of a run that has seen output only, the deadline still
    ahead. *)
Lemma run_output_state (t0 : Z) (trace : list (Z * event)) :
  forallb Spec.is_output trace = true ->
  forallb (Spec.before (t0 + timeout cfg)) trace = true ->
  run cfg JSON_parse (_spawnClaudeProcess cfg t0 None) trace
  = {| stdout := Spec.stdout_of trace; stderr := Spec.stderr_of trace;
       timeoutHandle := Some (t0 + timeout cfg); escalation := None;
       processExited := false; signals := []; settled := None |}.
Proof.
  intros Ho Hb. rewrite spawned_state.
  exact (run_output_before_deadline trace EmptyString EmptyString
           (t0 + timeout cfg) false [] None Ho Hb).
Qed.

(** Before its deadline a timer does nothing. *)
Lemma advance_before_deadline (t d : Z) (out err : string) (exited : bool)
    (sigs : list signal) (p : option (result value)) :
  t < d ->
  advance cfg t
    {| stdout := out; stderr := err; timeoutHandle := Some d;
       escalation := None; processExited := exited; signals := sigs;
       settled := p |}
  = {| stdout := out; stderr := err; timeoutHandle := Some d;
       escalation := None; processExited := exited; signals := sigs;
       settled := p |}.
Proof.
  intros H. unfold advance.
  cbn [timeoutHandle escalation stdout stderr processExited signals settled].
  destruct (d <=? t) eqn:Hd; [apply Z.leb_le in Hd; lia|]. reflexivity.
Qed.

Lemma code_text_value (code : option Z) :
  text_of (code_value code) = Spec.code_text code.
Proof.
  destruct code; reflexivity.
Qed.

(** What the close handler settles the promise with, after such a run. *)
Lemma closed_settled (t0 tc : Z) (trace : list (Z * event)) (code : option Z) :
  forallb Spec.is_output trace = true ->
  forallb (Spec.before (t0 + timeout cfg)) (trace ++ [(tc, Close code)]) = true ->
  settled (run cfg JSON_parse (_spawnClaudeProcess cfg t0 None)
             (trace ++ [(tc, Close code)]))
  = Some
      (if code_nonzero code then
         Throw (Error (Spec.exit_message code (Spec.stderr_of trace)
                                         (Spec.stdout_of trace)))
       else
         match JSON_parse (Spec.stdout_of trace) with
         | Ok response => Ok response
         | Throw e =>
             Throw (Error ("Failed to parse Claude response: " ++ message_of e))
         end).
Proof.
  intros Ho Hb.
  rewrite forallb_app in Hb. apply andb_prop in Hb. destruct Hb as [Hb Hbc].
  cbn [forallb] in Hbc. rewrite andb_true_r in Hbc. unfold Spec.before in Hbc.
  cbn [fst] in Hbc. apply Z.ltb_lt in Hbc.
  rewrite run_app, (run_output_state t0 trace Ho Hb).
  unfold run. cbn [fold_left]. unfold step. cbn [fst snd].
  rewrite (advance_before_deadline _ _ _ _ _ _ _ Hbc).
  cbn [handle]. unfold on_close, cleanup, reject, resolve, settle.
  cbn [stdout stderr timeoutHandle escalation processExited signals settled].
  destruct (code_nonzero code).
  - cbn [settled]. unfold Spec.exit_message, or_str.
    rewrite code_text_value. reflexivity.
  - destruct (JSON_parse (Spec.stdout_of trace)); reflexivity.
Qed.

(** A run in which the stream of the input raises no error is a run of the
    handlers. *)
Lemma host_run_handled (trace : list (Z * event)) :
  forall st : proc,
    host_run cfg JSON_parse st (map Spec.handled trace)
    = Running (run cfg JSON_parse st trace).
Proof.
  unfold host_run, run.
  induction trace as [|tev trace IH]; intros st; [reflexivity|].
  cbn [map fold_left host_step Spec.handled].
  rewrite IH. destruct tev; reflexivity.
Qed.

Lemma host_execute_handled (request : props) (options : value)
    (requestId : string) (t0 : Z) (write_error : option string)
    (trace : list (Z * event)) (now : Z) :
  host_execute cfg JSON_parse request options requestId t0 write_error
    (map Spec.handled trace) now
  = Answered
      (execute cfg JSON_parse request options requestId t0 write_error trace now).
Proof.
  unfold host_execute, execute, outcome_of.
  destruct (execute_to_spawn cfg request options); [|reflexivity].
  rewrite host_run_handled. reflexivity.
Qed.

(** Once the server process has exited nothing happens any more. *)
Lemma host_exited (trace : list host_event) (st : proc) :
  fold_left (host_step cfg JSON_parse) trace (Exited st) = Exited st.
Proof.
  induction trace as [|hev trace IH]; [reflexivity|]. exact IH.
Qed.

Lemma host_run_stdin_error (st : proc) (trace : list (Z * event)) (t : Z)
    (msg : string) (rest : list host_event) :
  host_run cfg JSON_parse st (map Spec.handled trace ++ StdinError t msg :: rest)
  = Exited (advance cfg t (run cfg JSON_parse st trace)).
Proof.
  unfold host_run. rewrite fold_left_app.
  fold (host_run cfg JSON_parse st (map Spec.handled trace)).
  rewrite host_run_handled. cbn [fold_left host_step]. apply host_exited.
Qed.

End BufferedRuns.

(** C6. A buffered run that reaches the spawn, writes its input, receives
    only output and then sees the subprocess exit with a status other than 0
    (or with none, when a signal ended it) before the timeout expires is
    rejected with the error [Claude process exited with code <code>: <text>],
    where the text is all that was captured on stderr, or, when that is
    empty, all that was captured on stdout (or [Unknown error] when both are
    empty): this is what the close handler does, in every run in which the
    stream of the input raises no error. When that stream raises one before
    the exit is seen (the subprocess has gone without reading its input), no
    handler catches it: the server process exits, and the call reports
    nothing, whatever exit status follows. *)
Theorem C6_nonzero_exit_and_stdin_error :
  forall (cfg : config) (JSON_parse : string -> result value)
         (request : props) (options : value) (requestId : string)
         (t0 : Z) (trace : list (Z * event)) (tc : Z) (code : option Z) (now : Z),
    (exists x, execute_to_spawn cfg request options = Ok x) ->
    Spec.timer_in_range cfg ->
    forallb Spec.is_output trace = true ->
    forallb (Spec.before (t0 + timeout cfg)) (trace ++ [(tc, Close code)]) = true ->
    code_nonzero code = true ->
    host_execute cfg JSON_parse request options requestId t0 None
      (map Spec.handled (trace ++ [(tc, Close code)])) now
    = Answered
        (Thrown
           (Error ("Claude process exited with code " ++ Spec.code_text code
                   ++ ": "
                   ++ (if is_empty (Spec.stderr_of trace)
                       then (if is_empty (Spec.stdout_of trace)
                             then "Unknown error" else Spec.stdout_of trace)
                       else Spec.stderr_of trace)))) /\
    (forall (te : Z) (msg : string),
       te <= tc ->
       host_execute cfg JSON_parse request options requestId t0 None
         (map Spec.handled trace
          ++ [StdinError te msg; Handled tc (Close code)]) now
       = ServerExit).
Proof.
  intros cfg JSON_parse request options requestId t0 trace tc code now
    [x Hx] _ Ho Hb Hc.
  split.
  - rewrite host_execute_handled. unfold execute. rewrite Hx.
    rewrite (closed_settled cfg JSON_parse t0 tc trace code Ho Hb), Hc.
    reflexivity.
  - intros te msg Hte.
    rewrite forallb_app in Hb. apply andb_prop in Hb. destruct Hb as [Hb Hbc].
    cbn [forallb] in Hbc. rewrite andb_true_r in Hbc. unfold Spec.before in Hbc.
    cbn [fst] in Hbc. apply Z.ltb_lt in Hbc.
    unfold host_execute. rewrite Hx.
    rewrite host_run_stdin_error, (run_output_state cfg JSON_parse t0 trace Ho Hb).
    rewrite advance_before_deadline by lia. reflexivity.
Qed.

(** The scenario of the specification: exit code 1 with ["rate limited"] on
    stderr gives an error whose message contains that text; the same run in
    which the stream of the input raises [EPIPE] first ends the server
    process. *)
Lemma C6_nonzero_exit_and_stdin_error_witness :
  let request :=
    [("messages", VArr [VObj [("role", VStr "user"); ("content", VStr "2+2?")]])] in
  host_execute Spec.example_config Json.JSON_parse request VUndef "r1" 0 None
    [Handled 5 (Stderr "rate limited"); Handled 10 (Close (Some 1))] 20
  = Answered (Thrown (Error "Claude process exited with code 1: rate limited")) /\
  Spec.contains "rate limited" "Claude process exited with code 1: rate limited"
  = true /\
  host_execute Spec.example_config Json.JSON_parse request VUndef "r1" 0 None
    [Handled 5 (Stderr "rate limited"); StdinError 7 "write EPIPE";
     Handled 10 (Close (Some 1))] 20
  = ServerExit.
Proof.
  intros request.
  destruct (C6_nonzero_exit_and_stdin_error Spec.example_config Json.JSON_parse
              request VUndef "r1" 0 [(5, Stderr "rate limited")] 10 (Some 1) 20
              (ex_intro _ _ eq_refl) ltac:(unfold Spec.timer_in_range; cbn; lia)
              eq_refl eq_refl eq_refl) as [H1 H2].
  split; [exact H1|]. split; [reflexivity|].
  exact (H2 7 "write EPIPE" ltac:(lia)).
Defined.

(* ================================================================== *)
(** ** Runs of the streaming executor *)
(* ================================================================== *)

Lemma ok_some_inj {A : Type} (a b : A) :
  @Ok (option A) (Some a) = Ok (Some b) -> a = b.
Proof.
  intros H. injection H as H. exact H.
Qed.

(** The error frame of a non-zero exit, letter by letter. *)
Lemma exit_error_frame_text (code : option Z) (text : string) :
  Streaming.exit_error_frame code text = Spec.exit_frame code text.
Proof.
  unfold Streaming.exit_error_frame, Streaming.error_frame, Spec.exit_frame,
    Spec.lit.
  rewrite code_text_value.
  destruct code as [n|];
    cbn [stringify code_value Spec.code_text String.concat map];
    match goal with
    | |- context [quote (?m ++ ?c ++ ?r)] => generalize (quote (m ++ c ++ r))
    end;
    [generalize (number_text n); intros c q|intros q];
    rewrite !append_assoc; reflexivity.
Qed.

Section StreamingRuns.

Variable cfg : config.
Variable JSON_parse : string -> result value.
Variable request : props.
Variable requestId : string.

Let on_line := Streaming.on_line cfg JSON_parse request requestId.
Let srun := Streaming.run cfg JSON_parse request requestId.
Let line_frames := Spec.line_frames cfg JSON_parse request requestId.
Let forwarded := Spec.forwarded cfg JSON_parse request requestId.

Lemma on_line_effect (now : Z) (st : Streaming.state) (line : string) :
  Spec.same_control st (on_line now st line) /\
  Streaming.stderrData (on_line now st line) = Streaming.stderrData st /\
  Streaming.written (on_line now st line)
  = (if Streaming.ended st then Streaming.written st
     else Streaming.written st ++ line_frames now line)%list.
Proof.
  unfold on_line, line_frames, Streaming.on_line, Spec.line_frames, Spec.same_control.
  destruct (is_empty (trim line)).
  - destruct (Streaming.ended st); rewrite ?app_nil_r; repeat split.
  - destruct (Streaming.line_frame cfg JSON_parse request requestId now line)
      as [[frame|]|e];
      unfold Streaming.res_write, Streaming.warn;
      destruct (Streaming.ended st) eqn:He; simpl;
      rewrite ?app_nil_r, ?He; repeat split.
Qed.

Lemma lines_effect (now : Z) (lines : list string) :
  forall st : Streaming.state,
    Streaming.ended st = false ->
    Spec.same_control st (fold_left (on_line now) lines st) /\
    Streaming.stderrData (fold_left (on_line now) lines st)
    = Streaming.stderrData st /\
    Streaming.written (fold_left (on_line now) lines st)
    = (Streaming.written st ++ flat_map (line_frames now) lines)%list.
Proof.
  induction lines as [|line lines IH]; intros st He; simpl.
  - rewrite app_nil_r. unfold Spec.same_control. repeat split.
  - destruct (on_line_effect now st line) as [[H1 [H2 [H3 [H4 H5]]]] [H6 H7]].
    rewrite He in H7.
    assert (He' : Streaming.ended (on_line now st line) = false)
      by (rewrite H2; exact He).
    destruct (IH _ He') as [[G1 [G2 [G3 [G4 G5]]]] [G6 G7]].
    unfold Spec.same_control.
    rewrite G1, G2, G3, G4, G5, G6, G7, H1, H2, H3, H4, H5, H6, H7.
    rewrite <- app_assoc. repeat split.
Qed.

(** While only output arrives, the sink receives the forwarded frames and
    nothing else, and stays open. *)
Lemma run_stream_output (trace : list Streaming.event) :
  forall st : Streaming.state,
    Streaming.ended st = false ->
    forallb Spec.is_stream_output trace = true ->
    Spec.same_control st (srun st trace) /\
    Streaming.stderrData (srun st trace)
    = (Streaming.stderrData st ++ Spec.stderr_text trace)%string /\
    Streaming.written (srun st trace)
    = (Streaming.written st ++ forwarded trace)%list.
Proof.
  induction trace as [|ev trace IH]; intros st He Ho; simpl.
  - rewrite app_nil_r, append_empty_r. unfold Spec.same_control. repeat split.
  - simpl in Ho. apply andb_prop in Ho. destruct Ho as [Hev Ho].
    destruct ev as [now data|data| | |]; try discriminate Hev.
    + unfold srun, Streaming.run. simpl. unfold Streaming.on_stdout.
      fold (on_line now).
      destruct (lines_effect now (split "010"%char data) st He)
        as [[H1 [H2 [H3 [H4 H5]]]] [H6 H7]].
      assert (He' : Streaming.ended
                      (fold_left (on_line now) (split "010"%char data) st) = false)
        by (rewrite H2; exact He).
      destruct (IH _ He' Ho) as [[G1 [G2 [G3 [G4 G5]]]] [G6 G7]].
      unfold srun, Streaming.run in G1, G2, G3, G4, G5, G6, G7.
      unfold Spec.same_control.
      rewrite G1, G2, G3, G4, G5, G6, G7, H1, H2, H3, H4, H5, H6, H7.
      unfold forwarded, Spec.forwarded. simpl.
      rewrite <- app_assoc. repeat split.
    + unfold srun, Streaming.run. simpl.
      assert (He' : Streaming.ended (Streaming.on_stderr data st) = false)
        by exact He.
      destruct (IH _ He' Ho) as [[G1 [G2 [G3 [G4 G5]]]] [G6 G7]].
      unfold srun, Streaming.run in G1, G2, G3, G4, G5, G6, G7.
      unfold Spec.same_control.
      rewrite G1, G2, G3, G4, G5, G6, G7. simpl.
      rewrite append_assoc. repeat split.
Qed.

(** The frame of a line that passes the test of the stdout handler. *)
Lemma line_frame_is_chunk (now : Z) (line frame : string) :
  Streaming.line_frame cfg JSON_parse request requestId now line = Ok (Some frame) ->
  exists (content : string) (sr : value),
    frame = ("data: "
             ++ stringify (Streaming.sseChunk cfg request requestId now content sr)
             ++ nl ++ nl)%string.
Proof.
  unfold Streaming.line_frame.
  destruct (JSON_parse line) as [event|]; cbn [bind]; [|discriminate].
  destruct (get event "type") as [ty|]; cbn [bind]; [|discriminate].
  destruct (get event "message") as [message|]; cbn [bind]; [|discriminate].
  destruct (eq_str ty "assistant" && truthy message); [|discriminate].
  destruct (get message "content") as [mc|]; cbn [bind]; [|discriminate].
  destruct (match mc with
            | VArr blocks => Streaming.blocks_text EmptyString blocks
            | _ => Ok EmptyString
            end) as [content|]; cbn [bind]; [|discriminate].
  destruct (get message "stop_reason") as [sr|]; cbn [bind]; [|discriminate].
  intros H. exists content, sr. symmetry. exact (ok_some_inj _ _ H).
Qed.

(** A frame written by the stdout handler is a chunk object: neither the
    sentinel nor an error frame. *)
Lemma line_frame_shape (now : Z) (line frame : string) :
  Streaming.line_frame cfg JSON_parse request requestId now line = Ok (Some frame) ->
  Spec.is_sentinel frame = false /\ Spec.is_error_frame frame = false.
Proof.
  intros H. destruct (line_frame_is_chunk now line frame H) as [content [sr Hf]].
  subst frame. unfold Spec.is_sentinel, Spec.is_error_frame.
  split; reflexivity.
Qed.

Lemma line_frames_are_chunks (now : Z) (line : string) :
  Forall Spec.chunk_like (line_frames now line).
Proof.
  unfold line_frames, Spec.line_frames.
  destruct (is_empty (trim line)); [constructor|].
  destruct (Streaming.line_frame cfg JSON_parse request requestId now line)
    as [[frame|]|e] eqn:Hf; try constructor; [|constructor].
  exact (line_frame_shape now line frame Hf).
Qed.

Lemma flat_map_Forall {A B : Type} (P : B -> Prop) (f : A -> list B) (l : list A) :
  (forall a, Forall P (f a)) -> Forall P (flat_map f l).
Proof.
  intros H. induction l as [|a l IH]; simpl.
  - constructor.
  - apply Forall_app. split; [apply H|exact IH].
Qed.

Lemma forwarded_are_chunks (trace : list Streaming.event) :
  Forall Spec.chunk_like (forwarded trace).
Proof.
  unfold forwarded, Spec.forwarded. apply flat_map_Forall.
  intros [now data|data|msg|code|]; try constructor.
  unfold Spec.chunk_frames. apply flat_map_Forall.
  intros line. apply line_frames_are_chunks.
Qed.

Lemma filter_none {A : Type} (p : A -> bool) (l : list A) :
  Forall (fun a => p a = false) l -> filter p l = [].
Proof.
  induction 1 as [|a l Ha _ IH]; simpl; [reflexivity|]. rewrite Ha. exact IH.
Qed.

(** A line that is not an assistant-kind event writes nothing. *)
Lemma line_frames_not_assistant (now : Z) (line : string) :
  Spec.assistant_kind JSON_parse line = false -> line_frames now line = [].
Proof.
  unfold Spec.assistant_kind, line_frames, Spec.line_frames, Streaming.line_frame.
  destruct (is_empty (trim line)); cbn [negb andb]; [reflexivity|].
  destruct (JSON_parse line) as [event|]; cbn [bind]; [|reflexivity].
  destruct (get event "type") as [ty|]; cbn [bind]; [|reflexivity].
  destruct (get event "message") as [message|]; cbn [bind]; [|reflexivity].
  intros H. rewrite H. reflexivity.
Qed.

Lemma forwarded_no_assistant (trace : list Streaming.event) :
  Spec.no_assistant_event JSON_parse trace = true -> forwarded trace = [].
Proof.
  unfold forwarded, Spec.forwarded, Spec.no_assistant_event.
  induction trace as [|ev trace IH]; simpl; intros H; [reflexivity|].
  apply andb_prop in H. destruct H as [Hev H]. rewrite (IH H).
  rewrite app_nil_r.
  destruct ev as [now data|data|msg|code|]; try reflexivity.
  unfold Spec.chunk_frames.
  induction (split "010"%char data) as [|line lines IHl]; simpl; [reflexivity|].
  simpl in Hev. apply andb_prop in Hev. destruct Hev as [Hl Hls].
  apply negb_true_iff in Hl.
  fold (line_frames now).
  rewrite (line_frames_not_assistant now line Hl). simpl. exact (IHl Hls).
Qed.

Lemma on_stdout_effect (now : Z) (data : string) (st : Streaming.state) :
  let st' := Streaming.on_stdout cfg JSON_parse request requestId now data st in
  Streaming.ended st' = Streaming.ended st /\
  Streaming.written st'
  = (if Streaming.ended st then Streaming.written st
     else Streaming.written st
          ++ Spec.chunk_frames cfg JSON_parse request requestId now data)%list.
Proof.
  unfold Streaming.on_stdout, Spec.chunk_frames. fold (on_line now).
  fold (line_frames now).
  destruct (Streaming.ended st) eqn:He.
  - revert st He.
    induction (split "010"%char data) as [|line lines IH]; intros st He; simpl.
    + split; [exact He|reflexivity].
    + destruct (on_line_effect now st line) as [[_ [H2 _]] [_ H7]].
      rewrite He in H7, H2.
      destruct (IH _ H2) as [G1 G2]. rewrite G1, G2, H7. split; reflexivity.
  - destruct (lines_effect now (split "010"%char data) st He)
      as [[_ [H2 _]] [_ H7]].
    rewrite H2, H7. split; [exact He|reflexivity].
Qed.

(** Every handler keeps the sink in a sentinel state and never reopens an
    ended response. *)
Lemma handle_sentinel_state (st : Streaming.state) (ev : Streaming.event) :
  Spec.sentinel_state st ->
  Spec.sentinel_state (Streaming.handle cfg JSON_parse request requestId st ev) /\
  (Streaming.ended st = true \/ Spec.is_close ev = true ->
   Streaming.ended (Streaming.handle cfg JSON_parse request requestId st ev) = true).
Proof.
  unfold Spec.sentinel_state. intros Hs.
  destruct ev as [now data|data|msg|code|]; simpl.
  - destruct (on_stdout_effect now data st) as [He Hw]. rewrite He, Hw.
    split.
    + destruct (Streaming.ended st); [exact Hs|].
      rewrite filter_app, Hs. simpl. apply filter_none.
      unfold Spec.chunk_frames.
      eapply Forall_impl;
        [|apply (flat_map_Forall Spec.chunk_like (line_frames now));
          intros line; apply line_frames_are_chunks].
      intros f [Hf _]. exact Hf.
    + intros [H|H]; [exact H|discriminate H].
  - split; [exact Hs|]. intros [H|H]; [exact H|discriminate H].
  - unfold Streaming.on_error, Streaming.res_write. simpl.
    destruct (Streaming.ended st) eqn:He; simpl; rewrite ?He; simpl.
    + split; [exact Hs|auto].
    + rewrite !filter_app, Hs. split; [reflexivity|auto].
  - unfold Streaming.on_close, Streaming.res_write.
    destruct (code_nonzero code); simpl;
      destruct (Streaming.ended st) eqn:He; simpl; rewrite ?He; simpl;
      rewrite ?filter_app, ?Hs; split; auto.
  - unfold Streaming.on_res_close, Streaming.kill.
    destruct (Streaming.killed st); simpl;
      (split; [exact Hs|]); intros [H|H]; try exact H; discriminate H.
Qed.

Lemma run_sentinel_state (trace : list Streaming.event) :
  forall st : Streaming.state,
    Spec.sentinel_state st ->
    Spec.sentinel_state (srun st trace) /\
    (Streaming.ended st = true \/ existsb Spec.is_close trace = true ->
     Streaming.ended (srun st trace) = true).
Proof.
  induction trace as [|ev trace IH]; intros st Hs; simpl.
  - split; [exact Hs|]. intros [H|H]; [exact H|discriminate H].
  - destruct (handle_sentinel_state st ev Hs) as [Hs' He'].
    destruct (IH _ Hs') as [G1 G2].
    split; [exact G1|].
    intros [H|H]; apply G2.
    + left. apply He'. left. exact H.
    + apply orb_prop in H. destruct H as [H|H].
      * left. apply He'. right. exact H.
      * right. exact H.
Qed.

(** The frames of a run that sees output and then the exit. *)
Lemma run_close_written (trace : list Streaming.event) (code : option Z) :
  forallb Spec.is_stream_output trace = true ->
  Streaming.written (srun Streaming.start (trace ++ [Streaming.Close code]))
  = (forwarded trace
     ++ (if code_nonzero code
         then [Spec.exit_frame code (Spec.stderr_text trace)] else [])
     ++ [Spec.sentinel])%list /\
  Streaming.ended (srun Streaming.start (trace ++ [Streaming.Close code])) = true.
Proof.
  intros Ho.
  destruct (run_stream_output trace Streaming.start eq_refl Ho)
    as [[H1 [H2 [H3 [H4 H5]]]] [H6 H7]].
  cbn [Streaming.start Streaming.ended Streaming.written Streaming.stderrData
       app append] in H2, H6, H7.
  unfold srun, Streaming.run. rewrite fold_left_app.
  fold (Streaming.run cfg JSON_parse request requestId Streaming.start trace).
  fold srun. cbn [fold_left Streaming.handle].
  unfold Streaming.on_close, Streaming.res_end, Streaming.res_write,
    Streaming.mark_exited, Streaming.set_hasError.
  cbn [Streaming.ended Streaming.written Streaming.stderrData].
  rewrite <- exit_error_frame_text.
  destruct (code_nonzero code);
    cbn [Streaming.ended Streaming.written Streaming.stderrData];
    rewrite ?H2; cbn [Streaming.ended Streaming.written Streaming.stderrData];
    rewrite ?H2, H7, ?H6; cbn [Streaming.written Streaming.ended];
    rewrite <- ?app_assoc; split; reflexivity.
Qed.

(** A run in which the stream of the input raises no error is a run of the
    handlers; once it raises one, the server process is gone. *)
Lemma stream_host_run_handled (trace : list Streaming.event) :
  forall st : Streaming.state,
    Streaming.host_run cfg JSON_parse request requestId st
      (map Streaming.Handled trace)
    = Streaming.Running (srun st trace).
Proof.
  unfold Streaming.host_run, srun, Streaming.run.
  induction trace as [|ev trace IH]; intros st; [reflexivity|].
  cbn [map fold_left Streaming.host_step]. apply IH.
Qed.

Lemma stream_host_exited (trace : list Streaming.host_event)
    (st : Streaming.state) :
  fold_left (Streaming.host_step cfg JSON_parse request requestId) trace
    (Streaming.Exited st)
  = Streaming.Exited st.
Proof.
  induction trace as [|hev trace IH]; [reflexivity|]. exact IH.
Qed.

Lemma stream_host_run_stdin_error (st : Streaming.state)
    (trace : list Streaming.event) (msg : string)
    (rest : list Streaming.host_event) :
  Streaming.host_run cfg JSON_parse request requestId st
    (map Streaming.Handled trace ++ Streaming.StdinError msg :: rest)
  = Streaming.Exited (srun st trace).
Proof.
  unfold Streaming.host_run. rewrite fold_left_app.
  fold (Streaming.host_run cfg JSON_parse request requestId st
          (map Streaming.Handled trace)).
  rewrite stream_host_run_handled. cbn [fold_left Streaming.host_step].
  apply stream_host_exited.
Qed.

End StreamingRuns.

(** C3. When the subprocess of a streaming invocation exits after any
    amount of output, and the stream of its input has raised no error, the
    response has received the forwarded chunk frames, then, when the exit
    status is not 0, one error frame
    [data: {"error":{"message":"Claude process exited with code <code>:
    <stderr>","type":"execution_error","code":<code>}}], then the sentinel
    [data: [DONE]], each followed by a blank line, and the response is
    ended. The sentinel is written exactly once and last; the error frame is
    the only error-shaped frame and comes immediately before the sentinel;
    with status 0 there is no error frame, and when no line of the output
    was an assistant-kind event the sentinel is all the response receives.
    The sentinel is written exactly once in every other such run that sees
    the subprocess close, too: whether or not the stdin write threw, and
    whatever spawn errors, disconnects and output come before or after.
    When the stream of the input raises an error before the exit is seen,
    no handler catches it: the server process exits, and the response gets
    neither an error frame nor the sentinel, and is never ended. *)
Theorem C3_exit_frames_and_stdin_error :
  forall (cfg : config) (JSON_parse : string -> result value)
         (request : props) (requestId : string)
         (trace : list Streaming.event) (code : option Z),
    forallb Spec.is_stream_output trace = true ->
    let run_of := Streaming.host_run cfg JSON_parse request requestId in
    let s :=
      run_of Streaming.start
        (map Streaming.Handled (trace ++ [Streaming.Close code])%list) in
    let error_frames :=
      if code_nonzero code
      then [Spec.exit_frame code (Spec.stderr_text trace)]
      else [] in
    Streaming.delivered s
    = (Spec.forwarded cfg JSON_parse request requestId trace
       ++ error_frames ++ [Spec.sentinel])%list /\
    Streaming.response_ended s = true /\
    filter Spec.is_sentinel (Streaming.delivered s) = [Spec.sentinel] /\
    filter Spec.is_error_frame (Streaming.delivered s) = error_frames /\
    (code = Some 0 -> error_frames = []) /\
    (Spec.no_assistant_event JSON_parse trace = true -> code = Some 0 ->
     Streaming.delivered s = [Spec.sentinel]) /\
    (forall (write_error : option string) (args : list value) (input : string)
            (st0 : Streaming.state) (events : list Streaming.event),
       Streaming.executeStreaming cfg request write_error = Ok (args, input, st0) ->
       existsb Spec.is_close events = true ->
       filter Spec.is_sentinel
         (Streaming.delivered (run_of st0 (map Streaming.Handled events)))
       = [Spec.sentinel]) /\
    (forall (msg : string) (rest : list Streaming.host_event),
       let s' :=
         run_of Streaming.start
           (map Streaming.Handled trace ++ Streaming.StdinError msg :: rest)%list in
       Streaming.delivered s'
       = Spec.forwarded cfg JSON_parse request requestId trace /\
       Streaming.response_ended s' = false /\
       filter Spec.is_sentinel (Streaming.delivered s') = [] /\
       filter Spec.is_error_frame (Streaming.delivered s') = []).
Proof.
  intros cfg JSON_parse request requestId trace code Ho run_of s error_frames.
  subst run_of s.
  rewrite stream_host_run_handled. cbn [Streaming.delivered Streaming.response_ended].
  destruct (run_close_written cfg JSON_parse request requestId trace code Ho)
    as [Hw He].
  fold error_frames in Hw.
  pose proof (forwarded_are_chunks cfg JSON_parse request requestId trace) as Hf.
  assert (Hfs : filter Spec.is_sentinel
                  (Spec.forwarded cfg JSON_parse request requestId trace) = []).
  { apply filter_none. eapply Forall_impl; [|exact Hf]. intros f [Hs _]. exact Hs. }
  assert (Hfe : filter Spec.is_error_frame
                  (Spec.forwarded cfg JSON_parse request requestId trace) = []).
  { apply filter_none. eapply Forall_impl; [|exact Hf]. intros f [_ Hx]. exact Hx. }
  assert (Hex : forall text,
             Spec.is_sentinel (Spec.exit_frame code text) = false /\
             Spec.is_error_frame (Spec.exit_frame code text) = true).
  { intros text. split; reflexivity. }
  split; [exact Hw|]. split; [exact He|].
  split; [|split; [|split; [|split; [|split]]]].
  - rewrite Hw, !filter_app, Hfs. subst error_frames.
    destruct (code_nonzero code); cbn [filter app];
      rewrite ?(proj1 (Hex _)); reflexivity.
  - rewrite Hw, !filter_app, Hfe. subst error_frames.
    destruct (code_nonzero code); cbn [filter app];
      rewrite ?(proj2 (Hex _)); reflexivity.
  - intros Hc. subst error_frames. rewrite Hc. reflexivity.
  - intros Hn Hc. rewrite Hw. subst error_frames.
    rewrite (forwarded_no_assistant cfg JSON_parse request requestId trace Hn).
    rewrite Hc. reflexivity.
  - intros write_error args input st0 events Hx Hc.
    rewrite stream_host_run_handled. cbn [Streaming.delivered].
    assert (Hs0 : Spec.sentinel_state st0).
    { unfold Streaming.executeStreaming in Hx.
      destruct (Streaming._convertMessagesToText (lookup "messages" request));
        cbn [bind] in Hx; [|discriminate Hx].
      injection Hx as _ _ Hx. subst st0.
      destruct write_error; reflexivity. }
    destruct (run_sentinel_state cfg JSON_parse request requestId events st0 Hs0)
      as [Hs Hend].
    unfold Spec.sentinel_state in Hs. rewrite Hend in Hs; [exact Hs|].
    right. exact Hc.
  - intros msg rest. cbv zeta.
    rewrite stream_host_run_stdin_error.
    cbn [Streaming.delivered Streaming.response_ended].
    destruct (run_stream_output cfg JSON_parse request requestId trace
                Streaming.start eq_refl Ho)
      as [[_ [H2 _]] [_ H7]].
    cbn [Streaming.start Streaming.ended Streaming.written app] in H2, H7.
    rewrite H7, H2, Hfs, Hfe. repeat split.
Qed.

(** One assistant event, ["rate limited"] on stderr, exit status 1: the
    chunk, the error frame, the sentinel. The same run in which the stream
    of the input raises [EPIPE] before the exit: the chunk, and nothing
    more. *)
Lemma C3_exit_frames_and_stdin_error_witness :
  let trace :=
    [Streaming.Stdout 0 (Spec.assistant_line ++ nl);
     Streaming.Stderr "rate limited"] in
  let run_of :=
    Streaming.host_run Spec.example_config Json.JSON_parse [] "r1"
      Streaming.start in
  Streaming.delivered
    (run_of (map Streaming.Handled (trace ++ [Streaming.Close (Some 1)])%list))
  = [Spec.assistant_frame;
     "data: {" ++ Spec.lit "error" ++ ":{" ++ Spec.lit "message" ++ ":"
     ++ Spec.lit "Claude process exited with code 1: rate limited" ++ ","
     ++ Spec.lit "type" ++ ":" ++ Spec.lit "execution_error" ++ ","
     ++ Spec.lit "code" ++ ":1}}"
     ++ String "010" (String "010" EmptyString);
     "data: [DONE]" ++ String "010" (String "010" EmptyString)] /\
  Streaming.delivered
    (run_of (map Streaming.Handled trace
             ++ [Streaming.StdinError "write EPIPE";
                 Streaming.Handled (Streaming.Close (Some 1))])%list)
  = [Spec.assistant_frame].
Proof.
  intros trace run_of.
  destruct (C3_exit_frames_and_stdin_error Spec.example_config Json.JSON_parse
              [] "r1" trace (Some 1) eq_refl)
    as [Hw [_ [_ [_ [_ [_ [_ Hx]]]]]]].
  destruct (Hx "write EPIPE" [Streaming.Handled (Streaming.Close (Some 1))])
    as [Hd _].
  split.
  - subst run_of. rewrite Hw. vm_compute. reflexivity.
  - subst run_of. rewrite Hd. vm_compute. reflexivity.
Defined.

(** A backend that prints only a system event and a result event and exits
    with status 0: the sink receives the sentinel alone. *)
Example no_assistant_event_then_exit_0 :
  let output :=
    ("{" ++ quote "type" ++ ":" ++ quote "system" ++ "}" ++ nl
     ++ "{" ++ quote "type" ++ ":" ++ quote "result" ++ ","
     ++ quote "result" ++ ":" ++ quote "4" ++ "}" ++ nl)%string in
  Streaming.written
    (Streaming.run Spec.example_config Json.JSON_parse [] "r1" Streaming.start
       [Streaming.Stdout 0 output; Streaming.Close (Some 0)])
  = [Spec.sentinel].
Proof. vm_compute. reflexivity. Qed.

(** C2: what the code does with a line that arrives in two chunks. The
    stdout handler splits each chunk on its own and keeps nothing from one
    chunk to the next, so each half fails to parse, is warned about and
    skipped: the event the backend sent is never forwarded, while the same
    bytes arriving as one chunk are forwarded as one frame. *)
Lemma C2_line_split_across_chunks_is_dropped :
  let whole := (Spec.assistant_line ++ nl)%string in
  let part1 := substring 0 20 whole in
  let part2 := substring 20 (String.length whole - 20)%nat whole in
  let srun :=
    Streaming.run Spec.example_config Json.JSON_parse [] "r1" Streaming.start in
  (part1 ++ part2)%string = whole /\
  Streaming.written (srun [Streaming.Stdout 0 whole]) = [Spec.assistant_frame] /\
  Streaming.written (srun [Streaming.Stdout 0 part1; Streaming.Stdout 0 part2]) = [] /\
  Streaming.warnings (srun [Streaming.Stdout 0 part1; Streaming.Stdout 0 part2])
  = [part1; substring 20 (String.length Spec.assistant_line - 20)%nat whole].
Proof.
  vm_compute. repeat split.
Qed.

(** The part of C2 that holds: a complete line that is not valid JSON is
    warned about and skipped, and the lines after it are still forwarded. *)
Example malformed_line_is_skipped :
  let data := ("not json" ++ nl ++ Spec.assistant_line ++ nl)%string in
  let st :=
    Streaming.run Spec.example_config Json.JSON_parse [] "r1" Streaming.start
      [Streaming.Stdout 0 data] in
  Streaming.written st = [Spec.assistant_frame] /\
  Streaming.warnings st = ["not json"] /\
  Streaming.ended st = false.
Proof. vm_compute. repeat split. Qed.

(** The sibling of the stdout handler in the buffered executor,
    [_parseStreamJson], splits the whole output at once and so sees the
    line whole. *)
Example parseStreamJson_sees_whole_lines :
  _parseStreamJson Json.JSON_parse (Spec.assistant_line ++ nl)
  = VObj [("type", VStr "assistant");
          ("message", VObj [("content", VArr [Spec.text_block "hi"])])].
Proof. vm_compute. reflexivity. Qed.

(* ================================================================== *)
(** ** Cancellation *)
(* ================================================================== *)

Section Cancellation.

Variable cfg : config.
Variable JSON_parse : string -> result value.

Ltac proc_cbn :=
  cbn [fold_left fst snd timeoutHandle escalation processExited signals settled
       stdout stderr negb app handle].

(** The outer timer expires on a running process, the promise pending. *)
Lemma advance_timeout (t d : Z) (out err : string) :
  d <= t < d + 5000 ->
  advance cfg t
    {| stdout := out; stderr := err; timeoutHandle := Some d;
       escalation := None; processExited := false; signals := [];
       settled := None |}
  = {| stdout := out; stderr := err; timeoutHandle := None;
       escalation := Some (d + 5000); processExited := false;
       signals := [SIGTERM];
       settled := Some (Throw (Error ("Claude process timeout after "
                                      ++ number_text (timeout cfg) ++ "ms"))) |}.
Proof.
  intros [H1 H2]. unfold advance. proc_cbn.
  destruct (d <=? t) eqn:Hd; [|apply Z.leb_gt in Hd; lia].
  unfold timeout_fired, kill, reject, settle. proc_cbn.
  destruct (d + 5000 <=? t) eqn:He; [apply Z.leb_le in He; lia|].
  reflexivity.
Qed.

(** The inner timer expires. *)
Lemma advance_escalation (t e : Z) (out err : string) (exited : bool)
    (sigs : list signal) (p : option (result value)) :
  e <= t ->
  advance cfg t
    {| stdout := out; stderr := err; timeoutHandle := None;
       escalation := Some e; processExited := exited; signals := sigs;
       settled := p |}
  = {| stdout := out; stderr := err; timeoutHandle := None;
       escalation := None; processExited := exited;
       signals := if exited then sigs else (sigs ++ [SIGKILL])%list;
       settled := p |}.
Proof.
  intros H. unfold advance. proc_cbn.
  destruct (e <=? t) eqn:He; [|apply Z.leb_gt in He; lia].
  unfold escalation_fired, kill. proc_cbn.
  destruct exited; reflexivity.
Qed.

(** Before the inner timer expires nothing happens. *)
Lemma advance_escalation_pending (t e : Z) (out err : string) (exited : bool)
    (sigs : list signal) (p : option (result value)) :
  t < e ->
  advance cfg t
    {| stdout := out; stderr := err; timeoutHandle := None;
       escalation := Some e; processExited := exited; signals := sigs;
       settled := p |}
  = {| stdout := out; stderr := err; timeoutHandle := None;
       escalation := Some e; processExited := exited; signals := sigs;
       settled := p |}.
Proof.
  intros H. unfold advance. proc_cbn.
  destruct (e <=? t) eqn:He; [apply Z.leb_le in He; lia|]. reflexivity.
Qed.

(** The close handler on a promise that is settled already. *)
Lemma on_close_settled (code : option Z) (out err : string) (th esc : option Z)
    (exited : bool) (sigs : list signal) (r : result value) :
  on_close JSON_parse code
    {| stdout := out; stderr := err; timeoutHandle := th; escalation := esc;
       processExited := exited; signals := sigs; settled := Some r |}
  = {| stdout := out; stderr := err; timeoutHandle := None; escalation := esc;
       processExited := true; signals := sigs; settled := Some r |}.
Proof.
  unfold on_close, cleanup, reject, resolve, settle. proc_cbn.
  destruct (code_nonzero code); [reflexivity|].
  destruct (JSON_parse out); reflexivity.
Qed.

(** The timeout path of the buffered executor: when the timer expires on a
    running process, SIGTERM is sent, the promise is rejected with the
    timeout error and the escalation timer is armed for 5000 ms later. *)
Lemma timeout_sends_SIGTERM (t0 : Z) :
  let st :=
    run cfg JSON_parse (_spawnClaudeProcess cfg t0 None)
      [(t0 + timeout cfg, Idle)] in
  signals st = [SIGTERM] /\
  escalation st = Some (t0 + timeout cfg + 5000) /\
  settled st
  = Some (Throw (Error ("Claude process timeout after "
                        ++ number_text (timeout cfg) ++ "ms"))).
Proof.
  rewrite spawned_state. unfold run, step. proc_cbn.
  rewrite advance_timeout by lia. proc_cbn.
  split; [reflexivity|]. split; reflexivity.
Qed.

(** If the process is still there when the escalation timer expires,
    SIGKILL follows; the error reported stays the timeout error. *)
Lemma timeout_escalates_to_SIGKILL (t0 : Z) :
  let st :=
    run cfg JSON_parse (_spawnClaudeProcess cfg t0 None)
      [(t0 + timeout cfg, Idle); (t0 + timeout cfg + 5000, Idle)] in
  signals st = [SIGTERM; SIGKILL] /\
  settled st
  = Some (Throw (Error ("Claude process timeout after "
                        ++ number_text (timeout cfg) ++ "ms"))).
Proof.
  rewrite spawned_state. unfold run, step. proc_cbn.
  rewrite advance_timeout by lia. rewrite advance_escalation by lia.
  proc_cbn. split; reflexivity.
Qed.

(** If the process exits on SIGTERM within the grace period, no SIGKILL is
    sent, and the error reported is the timeout error all the same. *)
Lemma timeout_without_escalation (t0 tc : Z) (code : option Z) :
  t0 + timeout cfg <= tc < t0 + timeout cfg + 5000 ->
  let st :=
    run cfg JSON_parse (_spawnClaudeProcess cfg t0 None)
      [(t0 + timeout cfg, Idle); (tc, Close code);
       (t0 + timeout cfg + 5000, Idle)] in
  signals st = [SIGTERM] /\
  settled st
  = Some (Throw (Error ("Claude process timeout after "
                        ++ number_text (timeout cfg) ++ "ms"))).
Proof.
  intros [H1 H2].
  rewrite spawned_state. unfold run, step. proc_cbn.
  rewrite advance_timeout by lia.
  rewrite advance_escalation_pending by lia.
  rewrite on_close_settled. rewrite advance_escalation by lia.
  proc_cbn. split; reflexivity.
Qed.
Lemma res_write_kills (frame : string) (st : Streaming.state) :
  Streaming.kills (Streaming.res_write frame st) = Streaming.kills st.
Proof.
  unfold Streaming.res_write. destruct (Streaming.ended st); reflexivity.
Qed.

Lemma on_stdout_kills (request : props) (requestId : string) (now : Z)
    (data : string) (st : Streaming.state) :
  Streaming.kills (Streaming.on_stdout cfg JSON_parse request requestId now data st)
  = Streaming.kills st.
Proof.
  unfold Streaming.on_stdout. revert st.
  induction (split "010"%char data) as [|line lines IH]; intros st; simpl.
  - reflexivity.
  - rewrite IH.
    destruct (on_line_effect cfg JSON_parse request requestId now st line)
      as [[_ [_ [H _]]] _].
    exact H.
Qed.

(** Every handler of the streaming executor leaves the list of signals as
    it is, or adds one SIGTERM to it. *)
Lemma handle_kills (request : props) (requestId : string)
    (st : Streaming.state) (ev : Streaming.event) :
  let st' := Streaming.handle cfg JSON_parse request requestId st ev in
  Streaming.kills st' = Streaming.kills st
  \/ Streaming.kills st' = (Streaming.kills st ++ [SIGTERM])%list.
Proof.
  destruct ev as [now data|data|msg|code|]; simpl.
  - left. apply on_stdout_kills.
  - left. reflexivity.
  - left. unfold Streaming.on_error. simpl. rewrite !res_write_kills. reflexivity.
  - left. unfold Streaming.on_close. simpl. rewrite res_write_kills.
    destruct (code_nonzero code); [rewrite res_write_kills|]; reflexivity.
  - unfold Streaming.on_res_close.
    destruct (Streaming.killed st); [left|right]; reflexivity.
Qed.

(** No handler of the streaming executor ever sends SIGKILL. *)
Lemma streaming_never_SIGKILL (request : props) (requestId : string)
    (trace : list Streaming.event) :
  forall st : Streaming.state,
    ~ In SIGKILL (Streaming.kills st) ->
    ~ In SIGKILL
        (Streaming.kills (Streaming.run cfg JSON_parse request requestId st trace)).
Proof.
  induction trace as [|ev trace IH]; intros st Hst; simpl; [exact Hst|].
  apply IH.
  destruct (handle_kills request requestId st ev) as [H|H]; rewrite H.
  - exact Hst.
  - rewrite in_app_iff. intros [G|[G|[]]]; [exact (Hst G)|discriminate G].
Qed.

End Cancellation.

(** C4: what the code does when the client of a streaming invocation
    disconnects. The handler sends SIGTERM once and arms no timer; whatever
    the subprocess goes on printing, however long it keeps running, nothing
    further is sent to it, and no run of the streaming executor ever sends
    SIGKILL. The escalation after a grace period exists on the timeout path
    of the buffered executor alone ([timeout_escalates_to_SIGKILL]). *)
Theorem C4_disconnect_never_escalates :
  forall (cfg : config) (JSON_parse : string -> result value)
         (request : props) (requestId : string) (trace : list Streaming.event),
    (forallb Spec.is_stream_output trace = true ->
     let st :=
       Streaming.run cfg JSON_parse request requestId Streaming.start
         (Streaming.ResClose :: trace) in
     Streaming.kills st = [SIGTERM] /\ Streaming.exited st = false) /\
    ~ In SIGKILL
        (Streaming.kills
           (Streaming.run cfg JSON_parse request requestId Streaming.start trace)).
Proof.
  intros cfg JSON_parse request requestId trace. split.
  - intros Ho st. subst st. simpl.
    destruct (run_stream_output cfg JSON_parse request requestId trace
                (Streaming.on_res_close Streaming.start) eq_refl Ho)
      as [[_ [_ [Hk [_ He]]]] _].
    rewrite Hk, He. split; reflexivity.
  - apply streaming_never_SIGKILL. simpl. intros [].
Qed.

(** The client goes away, the subprocess keeps printing: one SIGTERM, and
    the subprocess is still there. *)
Lemma C4_disconnect_never_escalates_witness :
  let trace :=
    [Streaming.Stdout 6000 (Spec.assistant_line ++ nl);
     Streaming.Stdout 60000 (Spec.assistant_line ++ nl)] in
  let st :=
    Streaming.run Spec.example_config Json.JSON_parse [] "r1" Streaming.start
      (Streaming.ResClose :: trace) in
  forallb Spec.is_stream_output trace = true /\
  Streaming.kills st = [SIGTERM] /\ Streaming.exited st = false.
Proof.
  intros trace st. split; [reflexivity|].
  exact (proj1 (C4_disconnect_never_escalates Spec.example_config Json.JSON_parse
                  [] "r1" trace) eq_refl).
Defined.

(* ================================================================== *)
(** ** Further properties of the buffered executor *)
(* ================================================================== *)

Section BufferedInvariants.

Variable cfg : config.
Variable JSON_parse : string -> result value.

(** [resolve] and [reject] touch nothing but the promise, and only once. *)
Lemma settle_keeps (r : result value) (st : proc) :
  processExited (settle r st) = processExited st /\
  signals (settle r st) = signals st /\
  timeoutHandle (settle r st) = timeoutHandle st /\
  escalation (settle r st) = escalation st /\
  (forall x, settled st = Some x -> settled (settle r st) = Some x).
Proof.
  unfold settle. destruct (settled st) as [y|] eqn:E; simpl.
  - repeat split. intros x H. rewrite E. exact H.
  - repeat split. intros x H. discriminate H.
Qed.

(** The handlers of the process events send no signal and arm no timer. *)
Lemma handle_keeps (ev : event) (st : proc) :
  signals (handle JSON_parse ev st) = signals st /\
  escalation (handle JSON_parse ev st) = escalation st /\
  (timeoutHandle st = None ->
   timeoutHandle (handle JSON_parse ev st) = None) /\
  (processExited st = true ->
   processExited (handle JSON_parse ev st) = true) /\
  (forall x, settled st = Some x ->
             settled (handle JSON_parse ev st) = Some x).
Proof.
  assert (Hc : forall r,
             signals (settle r (cleanup st)) = signals st /\
             escalation (settle r (cleanup st)) = escalation st /\
             (timeoutHandle st = None ->
              timeoutHandle (settle r (cleanup st)) = None) /\
             (processExited st = true ->
              processExited (settle r (cleanup st)) = true) /\
             (forall x, settled st = Some x ->
                        settled (settle r (cleanup st)) = Some x)).
  { intros r.
    destruct (settle_keeps r (cleanup st)) as [H1 [H2 [H3 [H4 H5]]]].
    rewrite H1, H2, H3, H4. repeat split. exact H5. }
  destruct ev as [data|data|msg|code|]; cbn [handle].
  - unfold on_stdout. cbn [stdout stderr timeoutHandle escalation processExited
                           signals settled]. repeat split; auto.
  - unfold on_stderr. cbn [stdout stderr timeoutHandle escalation processExited
                           signals settled]. repeat split; auto.
  - unfold on_error, reject. apply Hc.
  - unfold on_close, reject, resolve.
    destruct (code_nonzero code); [apply Hc|].
    change (stdout (cleanup st)) with (stdout st).
    destruct (JSON_parse (stdout st)); apply Hc.
  - repeat split; auto.
Qed.

(** The callback of the outer timer: nothing when the process has exited,
    else one SIGTERM and the inner timer armed. *)
Lemma timeout_fired_keeps (d : Z) (st : proc) :
  processExited (timeout_fired cfg d st) = processExited st /\
  timeoutHandle (timeout_fired cfg d st) = timeoutHandle st /\
  (forall x, settled st = Some x ->
             settled (timeout_fired cfg d st) = Some x) /\
  (processExited st = true ->
   signals (timeout_fired cfg d st) = signals st /\
   escalation (timeout_fired cfg d st) = escalation st) /\
  (processExited st = false ->
   signals (timeout_fired cfg d st) = (signals st ++ [SIGTERM])%list /\
   escalation (timeout_fired cfg d st) = Some (d + 5000)).
Proof.
  unfold timeout_fired, reject.
  destruct (processExited st) eqn:E; cbn [negb].
  - rewrite E. split; [reflexivity|]. split; [reflexivity|].
    split; [intros x H; exact H|]. split; [split; reflexivity|].
    intros H. discriminate H.
  - match goal with
    | |- context [settle ?r ?s] =>
        destruct (settle_keeps r s) as [H1 [H2 [H3 [H4 H5]]]];
        rewrite H1, H2, H3, H4
    end.
    cbn [stdout stderr timeoutHandle escalation processExited signals settled
         kill] in *.
    split; [exact E|]. split; [reflexivity|]. split; [exact H5|].
    split; [intros H; discriminate H|]. intros _. split; reflexivity.
Qed.

(** The callback of the inner timer: nothing when the process has exited,
    else one SIGKILL. *)
Lemma escalation_fired_keeps (st : proc) :
  processExited (escalation_fired st) = processExited st /\
  timeoutHandle (escalation_fired st) = timeoutHandle st /\
  escalation (escalation_fired st) = escalation st /\
  settled (escalation_fired st) = settled st /\
  (processExited st = true -> signals (escalation_fired st) = signals st) /\
  (processExited st = false ->
   signals (escalation_fired st) = (signals st ++ [SIGKILL])%list).
Proof.
  unfold escalation_fired.
  destruct (processExited st) eqn:E; cbn [negb].
  - rewrite E. repeat split. intros H. discriminate H.
  - cbn [stdout stderr timeoutHandle escalation processExited signals settled
         kill].
    repeat split; [exact E|]. intros H. discriminate H.
Qed.

(** The two stages of [advance]: the outer timer, then the inner one. *)
Lemma advance_stages (t : Z) (st : proc) :
  exists st1 : proc,
    (st1 = st \/
     exists d : Z,
       timeoutHandle st = Some d /\
       st1 = timeout_fired cfg d
               {| stdout := stdout st; stderr := stderr st;
                  timeoutHandle := None; escalation := escalation st;
                  processExited := processExited st;
                  signals := signals st; settled := settled st |}) /\
    (advance cfg t st = st1 \/
     exists d : Z,
       escalation st1 = Some d /\
       advance cfg t st
       = escalation_fired
           {| stdout := stdout st1; stderr := stderr st1;
              timeoutHandle := timeoutHandle st1; escalation := None;
              processExited := processExited st1;
              signals := signals st1; settled := settled st1 |}).
Proof.
  exists (match timeoutHandle st with
          | Some d =>
              if d <=? t then
                timeout_fired cfg d
                  {| stdout := stdout st; stderr := stderr st;
                     timeoutHandle := None; escalation := escalation st;
                     processExited := processExited st;
                     signals := signals st; settled := settled st |}
              else st
          | None => st
          end).
  unfold advance. split.
  - destruct (timeoutHandle st) as [d|]; [|left; reflexivity].
    destruct (d <=? t); [|left; reflexivity].
    right. exists d. split; reflexivity.
  - cbv zeta.
    match goal with
    | |- context [match escalation ?x with _ => _ end] =>
        destruct (escalation x) as [d|]; [|left; reflexivity]
    end.
    destruct (d <=? t); [|left; reflexivity].
    right. exists d. split; reflexivity.
Qed.

Lemma advance_settled (t : Z) (st : proc) (r : result value) :
  settled st = Some r -> settled (advance cfg t st) = Some r.
Proof.
  intros H.
  destruct (advance_stages t st) as [st1 [H1 H2]].
  assert (S1 : settled st1 = Some r).
  { destruct H1 as [->|[d [_ ->]]]; [exact H|].
    apply timeout_fired_keeps. exact H. }
  destruct H2 as [->|[d [_ ->]]]; [exact S1|].
  destruct (escalation_fired_keeps
              {| stdout := stdout st1; stderr := stderr st1;
                 timeoutHandle := timeoutHandle st1; escalation := None;
                 processExited := processExited st1;
                 signals := signals st1; settled := settled st1 |})
    as [_ [_ [_ [E _]]]].
  rewrite E. exact S1.
Qed.

Lemma advance_exited (t : Z) (st : proc) :
  processExited st = true ->
  processExited (advance cfg t st) = true /\ signals (advance cfg t st) = signals st.
Proof.
  intros H.
  destruct (advance_stages t st) as [st1 [H1 H2]].
  assert (S1 : processExited st1 = true /\ signals st1 = signals st).
  { destruct H1 as [->|[d [_ ->]]]; [split; [exact H|reflexivity]|].
    match goal with
    | |- context [timeout_fired cfg d ?s] =>
        destruct (timeout_fired_keeps d s) as [T1 [_ [_ [T4 _]]]]
    end.
    rewrite T1. split; [exact H|]. apply T4. exact H. }
  destruct S1 as [S1 S2].
  destruct H2 as [->|[d [_ ->]]]; [split; assumption|].
  match goal with
  | |- context [escalation_fired ?s] =>
      destruct (escalation_fired_keeps s) as [E1 [_ [_ [_ [E5 _]]]]]
  end.
  rewrite E1, (E5 S1). split; [exact S1|exact S2].
Qed.

Lemma advance_signals_inv (t : Z) (st : proc) :
  Props.signals_inv st -> Props.signals_inv (advance cfg t st).
Proof.
  intros H.
  destruct (advance_stages t st) as [st1 [H1 H2]].
  assert (S1 : Props.signals_inv st1).
  { destruct H1 as [->|[d [Hd ->]]]; [exact H|].
    match goal with
    | |- context [timeout_fired cfg d ?s] =>
        destruct (timeout_fired_keeps d s) as [T1 [T2 [_ [T4 T5]]]]
    end.
    cbn [stdout stderr timeoutHandle escalation processExited signals settled]
      in T1, T2, T4, T5.
    unfold Props.signals_inv in *. rewrite T2.
    destruct H as [[Hs He]|[[Hs Ht]|[Hs [Ht He]]]];
      [|rewrite Ht in Hd; discriminate Hd|rewrite Ht in Hd; discriminate Hd].
    destruct (processExited st) eqn:E.
    - destruct (T4 eq_refl) as [A1 A2]. rewrite A1, A2.
      left. split; assumption.
    - destruct (T5 eq_refl) as [A1 A2]. rewrite A1, Hs.
      right. left. split; reflexivity. }
  destruct H2 as [->|[d [Hd ->]]]; [exact S1|].
  match goal with
  | |- context [escalation_fired ?s] =>
      destruct (escalation_fired_keeps s) as [_ [E2 [E3 [_ [E5 E6]]]]]
  end.
  cbn [stdout stderr timeoutHandle escalation processExited signals settled]
    in E2, E3, E5, E6.
  unfold Props.signals_inv in *. rewrite E2, E3.
  destruct S1 as [[Hs He]|[[Hs Ht]|[Hs [Ht He]]]];
    [rewrite He in Hd; discriminate Hd| |rewrite He in Hd; discriminate Hd].
  destruct (processExited st1) eqn:E.
  - rewrite (E5 eq_refl). right. left. split; assumption.
  - rewrite (E6 eq_refl), Hs. right. right.
    split; [reflexivity|]. split; [exact Ht|reflexivity].
Qed.

Lemma step_settled (st : proc) (tev : Z * event) (r : result value) :
  settled st = Some r -> settled (step cfg JSON_parse st tev) = Some r.
Proof.
  intros H. unfold step.
  apply (proj2 (proj2 (proj2 (proj2 (handle_keeps (snd tev) _))))).
  apply advance_settled. exact H.
Qed.

Lemma step_exited (st : proc) (tev : Z * event) :
  processExited st = true ->
  processExited (step cfg JSON_parse st tev) = true /\
  signals (step cfg JSON_parse st tev) = signals st.
Proof.
  intros H. unfold step.
  destruct (advance_exited (fst tev) st H) as [A1 A2].
  destruct (handle_keeps (snd tev) (advance cfg (fst tev) st))
    as [H1 [_ [_ [H4 _]]]].
  rewrite H1, A2. split; [exact (H4 A1)|reflexivity].
Qed.

Lemma step_signals_inv (st : proc) (tev : Z * event) :
  Props.signals_inv st -> Props.signals_inv (step cfg JSON_parse st tev).
Proof.
  intros H. unfold step.
  pose proof (advance_signals_inv (fst tev) st H) as A.
  destruct (handle_keeps (snd tev) (advance cfg (fst tev) st))
    as [H1 [H2 [H3 _]]].
  unfold Props.signals_inv in *. rewrite H1, H2.
  destruct A as [[As Ae]|[[As At]|[As [At Ae]]]].
  - left. split; assumption.
  - right. left. split; [exact As|exact (H3 At)].
  - right. right. split; [exact As|]. split; [exact (H3 At)|exact Ae].
Qed.

Lemma run_settled (trace : list (Z * event)) :
  forall (st : proc) (r : result value),
    settled st = Some r -> settled (run cfg JSON_parse st trace) = Some r.
Proof.
  induction trace as [|tev trace IH]; intros st r H; [exact H|].
  rewrite run_cons. apply IH. apply step_settled. exact H.
Qed.

Lemma run_exited (trace : list (Z * event)) :
  forall st : proc,
    processExited st = true ->
    processExited (run cfg JSON_parse st trace) = true /\
    signals (run cfg JSON_parse st trace) = signals st.
Proof.
  induction trace as [|tev trace IH]; intros st H; [split; [exact H|reflexivity]|].
  rewrite run_cons. destruct (step_exited st tev H) as [H1 H2].
  destruct (IH _ H1) as [G1 G2]. rewrite G1, G2, H2. split; reflexivity.
Qed.

Lemma run_signals_inv (trace : list (Z * event)) :
  forall st : proc,
    Props.signals_inv st -> Props.signals_inv (run cfg JSON_parse st trace).
Proof.
  induction trace as [|tev trace IH]; intros st H; [exact H|].
  rewrite run_cons. apply IH. apply step_signals_inv. exact H.
Qed.

End BufferedInvariants.

(** X1. The promise of [_spawnClaudeProcess] settles once: whatever a run
    has settled it with, no later event (a late close, a late error, a timer)
    changes it. *)
Theorem X1_first_settlement_is_final :
  forall (cfg : config) (JSON_parse : string -> result value)
         (t0 : Z) (write_error : option string)
         (trace1 trace2 : list (Z * event)) (r : result value),
    settled (run cfg JSON_parse (_spawnClaudeProcess cfg t0 write_error) trace1)
    = Some r ->
    settled (run cfg JSON_parse (_spawnClaudeProcess cfg t0 write_error)
               (trace1 ++ trace2))
    = Some r.
Proof.
  intros cfg JSON_parse t0 write_error trace1 trace2 r H.
  rewrite run_app. apply run_settled. exact H.
Qed.

(** The timer expires on a hung process; the process then dies of SIGTERM
    after having printed a well-formed answer: the rejection stands. *)
Lemma X1_first_settlement_is_final_witness :
  let cfg := Spec.example_config in
  let trace1 := [(600000, Idle)] in
  let trace2 := [(600100, Stdout Spec.scenario_stdout); (600200, Close (Some 0))] in
  settled (run cfg Json.JSON_parse (_spawnClaudeProcess cfg 0 None) trace1)
  = Some (Throw (Error "Claude process timeout after 600000ms")) /\
  settled (run cfg Json.JSON_parse (_spawnClaudeProcess cfg 0 None)
             (trace1 ++ trace2))
  = Some (Throw (Error "Claude process timeout after 600000ms")).
Proof.
  intros cfg trace1 trace2.
  assert (H : settled (run cfg Json.JSON_parse (_spawnClaudeProcess cfg 0 None) trace1)
              = Some (Throw (Error "Claude process timeout after 600000ms")))
    by reflexivity.
  split; [exact H|].
  exact (X1_first_settlement_is_final cfg Json.JSON_parse 0 None trace1 trace2 _ H).
Defined.

(** X2. Once the process has closed, or its ['error'] event has fired, the
    buffered executor sends it no signal any more: the timers that are still
    pending find [processExited] set. *)
Theorem X2_no_signal_after_exit :
  forall (cfg : config) (JSON_parse : string -> result value)
         (st : proc) (trace1 trace2 : list (Z * event)) (t : Z) (ev : event),
    (exists code, ev = Close code) \/ (exists msg, ev = ProcError msg) ->
    signals (run cfg JSON_parse st (trace1 ++ (t, ev) :: trace2))
    = signals (run cfg JSON_parse st (trace1 ++ [(t, ev)])).
Proof.
  intros cfg JSON_parse st trace1 trace2 t ev Hev.
  rewrite !run_app, !run_cons.
  set (st1 := run cfg JSON_parse st trace1).
  assert (He : processExited (step cfg JSON_parse st1 (t, ev)) = true).
  { destruct Hev as [[code H]|[msg H]]; subst ev; unfold step; simpl.
    - unfold on_close, cleanup, reject, resolve, settle. simpl.
      destruct (code_nonzero code); simpl.
      + destruct (settled (advance cfg t st1)); reflexivity.
      + destruct (JSON_parse (stdout (advance cfg t st1))); simpl;
          destruct (settled (advance cfg t st1)); reflexivity.
    - unfold on_error, cleanup, reject, settle. simpl.
      destruct (settled (advance cfg t st1)); reflexivity. }
  destruct (run_exited cfg JSON_parse trace2 _ He) as [_ Hs].
  exact Hs.
Qed.

(** The process closes one millisecond before the escalation timer would
    expire: SIGTERM was sent, SIGKILL never is. *)
Lemma X2_no_signal_after_exit_witness :
  let cfg := Spec.example_config in
  let st := _spawnClaudeProcess cfg 0 None in
  let trace1 := [(600000, Idle)] in
  let trace2 := [(605000, Idle); (700000, Idle)] in
  signals (run cfg Json.JSON_parse st (trace1 ++ (604999, Close None) :: trace2))
  = [SIGTERM].
Proof.
  intros cfg st trace1 trace2.
  rewrite (X2_no_signal_after_exit cfg Json.JSON_parse st trace1 trace2 604999
             (Close None) (or_introl (ex_intro _ None eq_refl))).
  reflexivity.
Defined.

(** X3. Whatever happens, a buffered run sends its subprocess no signal,
    or SIGTERM alone, or SIGTERM followed by one SIGKILL: never SIGKILL
    first, never a signal twice. *)
Theorem X3_buffered_signals_shape :
  forall (cfg : config) (JSON_parse : string -> result value)
         (t0 : Z) (write_error : option string) (trace : list (Z * event)),
    Props.signal_shape
      (signals (run cfg JSON_parse (_spawnClaudeProcess cfg t0 write_error) trace)).
Proof.
  intros cfg JSON_parse t0 write_error trace.
  assert (H0 : Props.signals_inv (_spawnClaudeProcess cfg t0 write_error)).
  { unfold Props.signals_inv, _spawnClaudeProcess.
    destruct write_error; simpl; left; split; reflexivity. }
  pose proof (run_signals_inv cfg JSON_parse trace _ H0) as H.
  unfold Props.signals_inv in H. unfold Props.signal_shape.
  destruct H as [[H _]|[[H _]|[H _]]]; rewrite H; auto.
Qed.

(** X4. When writing the input throws, the promise is rejected with
    [Failed to write to Claude stdin: <message>], no timeout is armed, and
    the subprocess, which has been spawned, is never sent a signal by the
    executor, however long it lives. *)
Theorem X4_write_failure_leaves_process_alone :
  forall (cfg : config) (JSON_parse : string -> result value)
         (t0 : Z) (msg : string) (trace : list (Z * event)),
    let st := run cfg JSON_parse (_spawnClaudeProcess cfg t0 (Some msg)) trace in
    settled st = Some (Throw (Error ("Failed to write to Claude stdin: " ++ msg))) /\
    signals st = [] /\
    timeoutHandle (_spawnClaudeProcess cfg t0 (Some msg)) = None.
Proof.
  intros cfg JSON_parse t0 msg trace st. subst st.
  split; [|split].
  - apply run_settled. reflexivity.
  - destruct (run_exited cfg JSON_parse trace
                (_spawnClaudeProcess cfg t0 (Some msg)) eq_refl) as [_ H].
    rewrite H. reflexivity.
  - reflexivity.
Qed.

Section BufferedOutcomes.

Variable cfg : config.
Variable JSON_parse : string -> result value.

Lemma handle_settled (st : proc) (ev : event) (r : result value) :
  settled st = Some r -> settled (handle JSON_parse ev st) = Some r.
Proof.
  intros H. apply (handle_keeps JSON_parse ev st). exact H.
Qed.

(** After the close event the promise is settled for good. *)
Lemma closed_run_settled (t0 tc : Z) (trace rest : list (Z * event))
    (code : option Z) :
  forallb Spec.is_output trace = true ->
  forallb (Spec.before (t0 + timeout cfg)) (trace ++ [(tc, Close code)]) = true ->
  settled (run cfg JSON_parse (_spawnClaudeProcess cfg t0 None)
             (trace ++ (tc, Close code) :: rest))
  = Some
      (if code_nonzero code then
         Throw (Error (Spec.exit_message code (Spec.stderr_of trace)
                                         (Spec.stdout_of trace)))
       else
         match JSON_parse (Spec.stdout_of trace) with
         | Ok response => Ok response
         | Throw e =>
             Throw (Error ("Failed to parse Claude response: " ++ message_of e))
         end).
Proof.
  intros Ho Hb.
  change (trace ++ (tc, Close code) :: rest)%list
    with (trace ++ [(tc, Close code)] ++ rest)%list.
  rewrite app_assoc, run_app.
  apply run_settled. exact (closed_settled cfg JSON_parse t0 tc trace code Ho Hb).
Qed.

Lemma execute_closed (request : props) (options : value) (requestId : string)
    (t0 tc now : Z) (trace rest : list (Z * event)) (code : option Z) :
  (exists x, execute_to_spawn cfg request options = Ok x) ->
  forallb Spec.is_output trace = true ->
  forallb (Spec.before (t0 + timeout cfg)) (trace ++ [(tc, Close code)]) = true ->
  execute cfg JSON_parse request options requestId t0 None
    (trace ++ (tc, Close code) :: rest) now
  = Props.closed_outcome cfg JSON_parse request requestId now code
      (Spec.stdout_of trace) (Spec.stderr_of trace).
Proof.
  intros [x Hx] Ho Hb. unfold execute. rewrite Hx.
  rewrite (closed_run_settled t0 tc trace rest code Ho Hb).
  unfold Props.closed_outcome.
  destruct (code_nonzero code); [reflexivity|].
  destruct (JSON_parse (Spec.stdout_of trace)); reflexivity.
Qed.

(** Once the promise is settled, neither an event of the subprocess nor an
    error of the stream of its input changes what it was settled with. *)
Lemma host_steps_settled (more : list host_event) :
  forall (s : server) (r : result value),
    settled (match s with Running st => st | Exited st => st end) = Some r ->
    settled (match fold_left (host_step cfg JSON_parse) more s with
             | Running st => st
             | Exited st => st
             end) = Some r.
Proof.
  induction more as [|hev more IH]; intros s r H; [exact H|].
  cbn [fold_left]. apply IH.
  destruct s as [st|st]; [|exact H].
  destruct hev as [t ev|t msg]; cbn [host_step].
  - apply (step_settled cfg JSON_parse st (t, ev)). exact H.
  - apply advance_settled. exact H.
Qed.

Lemma host_execute_settled (request : props) (options : value)
    (requestId : string) (t0 now : Z) (trace : list (Z * event))
    (more : list host_event) (r : result value) :
  (exists x, execute_to_spawn cfg request options = Ok x) ->
  settled (run cfg JSON_parse (_spawnClaudeProcess cfg t0 None) trace) = Some r ->
  host_execute cfg JSON_parse request options requestId t0 None
    (map Spec.handled trace ++ more) now
  = Answered
      (match r with
       | Throw e => Thrown e
       | Ok response =>
           match _convertToOpenAiFormat response
                   (or_else (lookup "model" request) (VStr (defaultModel cfg)))
                   requestId now with
           | Ok x => Returned x
           | Throw e => Thrown e
           end
       end).
Proof.
  intros [x Hx] Hs. unfold host_execute. rewrite Hx.
  unfold host_run. rewrite fold_left_app.
  fold (host_run cfg JSON_parse (_spawnClaudeProcess cfg t0 None)
          (map Spec.handled trace)).
  rewrite host_run_handled.
  pose proof (host_steps_settled more (Running _) r Hs) as H.
  destruct (fold_left (host_step cfg JSON_parse) more _) as [st|st];
    unfold outcome_of; rewrite H; reflexivity.
Qed.

End BufferedOutcomes.

(** X5. A buffered run whose subprocess has only printed output when the
    timeout expires is rejected with [Claude process timeout after <n>ms],
    whatever the subprocess does at that moment or later (exit on SIGTERM,
    exit on SIGKILL, exit with status 0 and a complete answer); the first
    signal it is sent is SIGTERM. *)
Theorem X5_timeout_is_reported :
  forall (cfg : config) (JSON_parse : string -> result value)
         (request : props) (options : value) (requestId : string)
         (t0 : Z) (trace1 : list (Z * event)) (t : Z) (ev : event)
         (trace2 : list (Z * event)) (now : Z),
    (exists x, execute_to_spawn cfg request options = Ok x) ->
    forallb Spec.is_output trace1 = true ->
    forallb (Spec.before (t0 + timeout cfg)) trace1 = true ->
    t0 + timeout cfg <= t ->
    execute cfg JSON_parse request options requestId t0 None
      (trace1 ++ (t, ev) :: trace2) now
    = Thrown (Error (Props.timeout_message cfg)) /\
    exists more : list signal,
      signals (run cfg JSON_parse (_spawnClaudeProcess cfg t0 None)
                 (trace1 ++ [(t, ev)]))
      = SIGTERM :: more.
Proof.
  intros cfg JSON_parse request options requestId t0 trace1 t ev trace2 now
    [x Hx] Ho Hb Ht.
  assert (Hadv : exists more,
             settled (advance cfg t
                        (run cfg JSON_parse (_spawnClaudeProcess cfg t0 None) trace1))
             = Some (Throw (Error (Props.timeout_message cfg))) /\
             signals (advance cfg t
                        (run cfg JSON_parse (_spawnClaudeProcess cfg t0 None) trace1))
             = SIGTERM :: more).
  { rewrite (run_output_state cfg JSON_parse t0 trace1 Ho Hb).
    unfold advance. simpl.
    destruct (t0 + timeout cfg <=? t) eqn:Hd;
      [|apply Z.leb_gt in Hd; lia].
    unfold timeout_fired, reject, settle, kill. simpl.
    destruct (t0 + timeout cfg + 5000 <=? t); simpl;
      eexists; split; reflexivity. }
  destruct Hadv as [more [Hs Hk]].
  split.
  - assert (Hstep : settled (step cfg JSON_parse
                               (run cfg JSON_parse
                                  (_spawnClaudeProcess cfg t0 None) trace1) (t, ev))
                    = Some (Throw (Error (Props.timeout_message cfg))))
      by exact (handle_settled JSON_parse _ ev _ Hs).
    unfold execute. rewrite Hx. rewrite run_app, run_cons.
    rewrite (run_settled cfg JSON_parse trace2 _ _ Hstep).
    reflexivity.
  - exists more. rewrite run_app, run_cons.
    change (signals
              (handle JSON_parse ev
                 (advance cfg t
                    (run cfg JSON_parse (_spawnClaudeProcess cfg t0 None) trace1)))
            = SIGTERM :: more).
    rewrite (proj1 (handle_keeps JSON_parse ev _)). exact Hk.
Qed.

(** A subprocess that prints a complete answer and exits with status 0 a
    tenth of a second after the timeout: the caller gets the timeout. *)
Lemma X5_timeout_is_reported_witness :
  let request :=
    [("messages", VArr [VObj [("role", VStr "user"); ("content", VStr "2+2?")]])] in
  execute Spec.example_config Json.JSON_parse request VUndef "r1" 0 None
    ([(10, Stderr "thinking")]
     ++ (600100, Stdout Spec.scenario_stdout) :: [(600200, Close (Some 0))]) 600300
  = Thrown (Error "Claude process timeout after 600000ms").
Proof.
  intros request.
  exact (proj1 (X5_timeout_is_reported Spec.example_config Json.JSON_parse
                  request VUndef "r1" 0 [(10, Stderr "thinking")] 600100
                  (Stdout Spec.scenario_stdout) [(600200, Close (Some 0))] 600300
                  (ex_intro _ _ eq_refl) eq_refl eq_refl ltac:(vm_compute; discriminate))).
Defined.

(** X6. A buffered run whose timer is one the host takes as it is, which
    has seen only output, the timeout not yet expired and the stream of the
    input without error, has no result yet. When the subprocess then closes,
    the result is decided by the exit code and the captured text alone, and
    nothing that follows changes it, an error of the stream of the input
    included: a code other than 0 gives the exit error; code 0 gives the
    conversion of the parsed stdout, or
    [Failed to parse Claude response: <message>] when stdout is not JSON.
    When instead the stream of the input raises an error before the close
    is seen, the server process exits and the call gives nothing. *)
Theorem X6_result_after_close :
  forall (cfg : config) (JSON_parse : string -> result value)
         (request : props) (options : value) (requestId : string)
         (t0 tc now : Z) (trace : list (Z * event)) (code : option Z)
         (more : list host_event),
    (exists x, execute_to_spawn cfg request options = Ok x) ->
    Spec.timer_in_range cfg ->
    forallb Spec.is_output trace = true ->
    forallb (Spec.before (t0 + timeout cfg)) (trace ++ [(tc, Close code)]) = true ->
    host_execute cfg JSON_parse request options requestId t0 None
      (map Spec.handled trace) now
    = Answered Pending /\
    host_execute cfg JSON_parse request options requestId t0 None
      (map Spec.handled (trace ++ [(tc, Close code)]) ++ more) now
    = Answered
        (Props.closed_outcome cfg JSON_parse request requestId now code
           (Spec.stdout_of trace) (Spec.stderr_of trace)) /\
    (forall (te : Z) (msg : string),
       te <= tc ->
       host_execute cfg JSON_parse request options requestId t0 None
         (map Spec.handled trace ++ StdinError te msg :: more) now
       = ServerExit).
Proof.
  intros cfg JSON_parse request options requestId t0 tc now trace code more
    Hx _ Ho Hb.
  pose proof Hb as Hb'.
  rewrite forallb_app in Hb'. apply andb_prop in Hb'. destruct Hb' as [Hb' Hbc].
  cbn [forallb] in Hbc. rewrite andb_true_r in Hbc. unfold Spec.before in Hbc.
  cbn [fst] in Hbc. apply Z.ltb_lt in Hbc.
  split; [|split].
  - rewrite host_execute_handled.
    destruct Hx as [x Hx]. unfold execute. rewrite Hx.
    rewrite (run_output_state cfg JSON_parse t0 trace Ho Hb'). reflexivity.
  - rewrite (host_execute_settled cfg JSON_parse request options requestId t0 now
               _ more _ Hx (closed_settled cfg JSON_parse t0 tc trace code Ho Hb)).
    unfold Props.closed_outcome.
    destruct (code_nonzero code); [reflexivity|].
    destruct (JSON_parse (Spec.stdout_of trace)); reflexivity.
  - intros te msg Hte. destruct Hx as [x Hx].
    unfold host_execute. rewrite Hx.
    rewrite host_run_stdin_error, (run_output_state cfg JSON_parse t0 trace Ho Hb').
    rewrite advance_before_deadline by lia. reflexivity.
Qed.

(** The answer of the scenario in two chunks, exit status 0, and then an
    error of the stream of the input: the response is the one of the
    scenario. The same error before the close: the server process exits. *)
Lemma X6_result_after_close_witness :
  let request :=
    [("messages", VArr [VObj [("role", VStr "user"); ("content", VStr "2+2?")]])] in
  let part1 := substring 0 5 Spec.scenario_stdout in
  let part2 :=
    substring 5 (String.length Spec.scenario_stdout - 5) Spec.scenario_stdout in
  host_execute Spec.example_config Json.JSON_parse request VUndef "r1" 0 None
    [Handled 10 (Stdout part1); Handled 20 (Stdout part2)] 1000
  = Answered Pending /\
  host_execute Spec.example_config Json.JSON_parse request VUndef "r1" 0 None
    [Handled 10 (Stdout part1); Handled 20 (Stdout part2);
     Handled 30 (Close (Some 0)); StdinError 31 "write EPIPE"] 1000
  = Answered
      (Returned
         {| id := "chatcmpl-r1"; object := "chat.completion"; created := 1;
            model := VStr "sonnet";
            choices :=
              [ {| index := 0;
                   message := {| role := "assistant"; content := VStr "4" |};
                   finish_reason := VStr "stop" |} ];
            usage := {| prompt_tokens := VNum 5; completion_tokens := VNum 1;
                        total_tokens := VNum 6 |} |}) /\
  host_execute Spec.example_config Json.JSON_parse request VUndef "r1" 0 None
    [Handled 10 (Stdout part1); Handled 20 (Stdout part2);
     StdinError 25 "write EPIPE"; Handled 30 (Close (Some 0))] 1000
  = ServerExit.
Proof.
  intros request part1 part2.
  destruct (X6_result_after_close Spec.example_config Json.JSON_parse request VUndef
              "r1" 0 30 1000 [(10, Stdout part1); (20, Stdout part2)] (Some 0)
              [StdinError 31 "write EPIPE"]
              (ex_intro _ _ eq_refl) ltac:(unfold Spec.timer_in_range; cbn; lia)
              eq_refl eq_refl) as [H1 [H2 _]].
  destruct (X6_result_after_close Spec.example_config Json.JSON_parse request VUndef
              "r1" 0 30 1000 [(10, Stdout part1); (20, Stdout part2)] (Some 0)
              [Handled 30 (Close (Some 0))]
              (ex_intro _ _ eq_refl) ltac:(unfold Spec.timer_in_range; cbn; lia)
              eq_refl eq_refl) as [_ [_ H3]].
  split; [exact H1|]. split; [exact H2|].
  exact (H3 25 "write EPIPE" ltac:(lia)).
Defined.

(** X8. When the ['error'] event of the process fires before the timeout
    (the executable is missing, say), the run is rejected with
    [Failed to spawn Claude process: <message>], whatever was captured
    before and whatever follows, and the executor sends no signal at all. *)
Theorem X8_spawn_error_is_reported :
  forall (cfg : config) (JSON_parse : string -> result value)
         (request : props) (options : value) (requestId : string)
         (t0 t now : Z) (trace rest : list (Z * event)) (msg : string),
    (exists x, execute_to_spawn cfg request options = Ok x) ->
    forallb Spec.is_output trace = true ->
    forallb (Spec.before (t0 + timeout cfg)) (trace ++ [(t, ProcError msg)]) = true ->
    execute cfg JSON_parse request options requestId t0 None
      (trace ++ (t, ProcError msg) :: rest) now
    = Thrown (Error ("Failed to spawn Claude process: " ++ msg)) /\
    signals (run cfg JSON_parse (_spawnClaudeProcess cfg t0 None)
               (trace ++ (t, ProcError msg) :: rest))
    = [].
Proof.
  intros cfg JSON_parse request options requestId t0 t now trace rest msg
    [x Hx] Ho Hb.
  rewrite forallb_app in Hb. apply andb_prop in Hb. destruct Hb as [Hb Hbc].
  simpl in Hbc. rewrite andb_true_r in Hbc. unfold Spec.before in Hbc.
  simpl in Hbc. apply Z.ltb_lt in Hbc.
  assert (Hstep :
            step cfg JSON_parse
              (run cfg JSON_parse (_spawnClaudeProcess cfg t0 None) trace)
              (t, ProcError msg)
            = {| stdout := Spec.stdout_of trace; stderr := Spec.stderr_of trace;
                 timeoutHandle := None; escalation := None;
                 processExited := true; signals := [];
                 settled :=
                   Some (Throw (Error ("Failed to spawn Claude process: " ++ msg))) |}).
  { rewrite (run_output_state cfg JSON_parse t0 trace Ho Hb).
    unfold step, advance. simpl.
    destruct (t0 + timeout cfg <=? t) eqn:Hd; [apply Z.leb_le in Hd; lia|].
    reflexivity. }
  split.
  - unfold execute. rewrite Hx. rewrite run_app, run_cons, Hstep.
    match goal with
    | |- context [run cfg JSON_parse ?s rest] =>
        rewrite (run_settled cfg JSON_parse rest s _ eq_refl)
    end.
    reflexivity.
  - rewrite run_app, run_cons, Hstep.
    destruct (run_exited cfg JSON_parse rest _
                (eq_refl : processExited
                             {| stdout := Spec.stdout_of trace;
                                stderr := Spec.stderr_of trace;
                                timeoutHandle := None; escalation := None;
                                processExited := true; signals := [];
                                settled :=
                                  Some (Throw (Error ("Failed to spawn Claude process: "
                                                      ++ msg))) |} = true))
      as [_ H].
    exact H.
Qed.

(** [spawn claude ENOENT], followed by the close event with code -2. *)
Lemma X8_spawn_error_is_reported_witness :
  let request :=
    [("messages", VArr [VObj [("role", VStr "user"); ("content", VStr "2+2?")]])] in
  execute Spec.example_config Json.JSON_parse request VUndef "r1" 0 None
    ([] ++ (1, ProcError "spawn claude ENOENT") :: [(2, Close (Some (-2)))]) 3
  = Thrown (Error "Failed to spawn Claude process: spawn claude ENOENT").
Proof.
  intros request.
  exact (proj1 (X8_spawn_error_is_reported Spec.example_config Json.JSON_parse
                  request VUndef "r1" 0 1 3 [] [(2, Close (Some (-2)))]
                  "spawn claude ENOENT" (ex_intro _ _ eq_refl) eq_refl eq_refl)).
Defined.

(* ================================================================== *)
(** ** Lines: [split], [JSON.stringify] and the line protocol *)
(* ================================================================== *)

Lemma free_of_app (c : ascii) (a b : string) :
  Props.free_of c (a ++ b) = Props.free_of c a && Props.free_of c b.
Proof.
  induction a as [|x a IH]; simpl; [reflexivity|].
  rewrite IH. rewrite andb_assoc. reflexivity.
Qed.

Lemma split_not_nil (c : ascii) (s : string) : split c s <> [].
Proof.
  destruct s as [|a s]; simpl; [discriminate|].
  destruct (Ascii.eqb a c); [discriminate|].
  destruct (split c s); discriminate.
Qed.

(** A string without the separator is one piece. *)
Lemma split_free (c : ascii) (s : string) :
  Props.free_of c s = true -> split c s = [s].
Proof.
  induction s as [|a s IH]; simpl; intros H; [reflexivity|].
  apply andb_prop in H. destruct H as [Ha Hs].
  apply negb_true_iff in Ha. rewrite Ha, (IH Hs). reflexivity.
Qed.

(** Splitting distributes over a separator. *)
Lemma split_app (c : ascii) (a b : string) :
  split c (a ++ String c b) = (split c a ++ split c b)%list.
Proof.
  induction a as [|x a IH]; simpl.
  - rewrite Ascii.eqb_refl. reflexivity.
  - destruct (Ascii.eqb x c).
    + rewrite IH. reflexivity.
    + rewrite IH. pose proof (split_not_nil c a) as Hn.
      destruct (split c a) as [|l ls]; [contradiction|]. reflexivity.
Qed.

(** Joining pieces that are free of the separator and splitting again gives
    the pieces back. *)
Lemma split_concat (c : ascii) (pieces : list string) :
  pieces <> [] ->
  forallb (Props.free_of c) pieces = true ->
  split c (String.concat (String c EmptyString) pieces) = pieces.
Proof.
  induction pieces as [|x rest IH]; intros Hn Hf; [contradiction|].
  simpl in Hf. apply andb_prop in Hf. destruct Hf as [Hx Hr].
  destruct rest as [|y rest].
  - simpl. apply split_free. exact Hx.
  - change (String.concat (String c EmptyString) (x :: y :: rest))
      with (x ++ String c (String.concat (String c EmptyString) (y :: rest)))%string.
    rewrite split_app, (split_free c x Hx), IH; [reflexivity|discriminate|exact Hr].
Qed.

(** Induction on values, through the lists nested in them. *)
Lemma value_induction (P : value -> Prop) :
  P VUndef -> P VNull -> (forall b, P (VBool b)) -> (forall n, P (VNum n)) ->
  P VNaN -> (forall s, P (VStr s)) ->
  (forall xs, Forall P xs -> P (VArr xs)) ->
  (forall fields, Forall (fun kv => P (snd kv)) fields -> P (VObj fields)) ->
  forall v, P v.
Proof.
  intros Hu Hn Hb Hz Ha Hs Harr Hobj.
  fix IH 1. intros v. destruct v as [| |b|n| |s|xs|fields].
  - exact Hu.
  - exact Hn.
  - apply Hb.
  - apply Hz.
  - exact Ha.
  - apply Hs.
  - apply Harr. induction xs as [|x xs IHxs]; constructor; [apply IH|exact IHxs].
  - apply Hobj. induction fields as [|[k x] fields IHf]; constructor;
      [apply IH|exact IHf].
Qed.

Lemma one_line_uint (d : Decimal.uint) :
  Props.one_line (NilEmpty.string_of_uint d) = true.
Proof.
  induction d; simpl; try reflexivity; exact IHd.
Qed.

Lemma one_line_string_of_Z (n : Z) : Props.one_line (string_of_Z n) = true.
Proof.
  unfold string_of_Z, NilEmpty.string_of_int.
  destruct (Z.to_int n); simpl; apply one_line_uint.
Qed.

Lemma one_line_zeros (k : nat) : Props.one_line (zeros k) = true.
Proof.
  induction k as [|k IH]; [reflexivity|exact IH].
Qed.

Lemma one_line_number_text (n : Z) : Props.one_line (number_text n) = true.
Proof.
  unfold number_text.
  destruct (Z.abs n <=? 9007199254740992); [apply one_line_string_of_Z|].
  assert (Hm : Props.one_line (magnitude_text (Z.abs n)) = true).
  { unfold magnitude_text.
    destruct (shortest 17 1 (Z.abs n) _) as [s0 e0].
    set (s := if s0 mod 10 =? 0 then s0 / 10 else s0).
    set (e := if s0 mod 10 =? 0 then e0 + 1 else e0).
    pose proof (one_line_string_of_Z s) as Hs.
    destruct (e + Z.of_nat (String.length (string_of_Z s)) <=? 21).
    - unfold Props.one_line in *.
      rewrite free_of_app, Hs. exact (one_line_zeros _).
    - match goal with
      | |- context [string_of_Z (?a - 1)] =>
          pose proof (one_line_string_of_Z (a - 1)) as Hx;
          generalize dependent (string_of_Z (a - 1))
      end.
      intros x Hx.
      destruct (string_of_Z s) as [|c [|c' rest]]; [reflexivity| |].
      + unfold Props.one_line in *. cbn [Props.free_of] in *.
        apply andb_prop in Hs. rewrite (proj1 Hs). cbn [andb].
        change ("e+" ++ x)%string with (String "e" (String "+" x)).
        cbn [Props.free_of]. exact Hx.
      + unfold Props.one_line in *.
        change (Props.free_of "010"
                  (String c ("." ++ String c' rest ++ "e+" ++ x)))
          with (negb (Ascii.eqb c "010")
                && Props.free_of "010" ("." ++ String c' rest ++ "e+" ++ x)).
        cbn [Props.free_of] in Hs. apply andb_prop in Hs.
        rewrite (proj1 Hs). cbn [andb].
        rewrite !free_of_app.
        change (Props.free_of "010" (String c' rest))
          with (negb (Ascii.eqb c' "010") && Props.free_of "010" rest).
        rewrite (proj2 Hs), Hx. reflexivity. }
  unfold Props.one_line in *. rewrite free_of_app, Hm.
  destruct (n <? 0); reflexivity.
Qed.

Lemma one_line_escape_char (a : ascii) : Props.one_line (escape_char a) = true.
Proof.
  destruct a as [[] [] [] [] [] [] [] []]; reflexivity.
Qed.

Lemma one_line_escape (s : string) : Props.one_line (escape s) = true.
Proof.
  pose proof one_line_escape_char as Hc. unfold Props.one_line in *.
  induction s as [|a s IH]; cbn [escape]; [reflexivity|].
  rewrite free_of_app, IH, Hc. reflexivity.
Qed.

Lemma one_line_quote (s : string) : Props.one_line (quote s) = true.
Proof.
  pose proof (one_line_escape s) as He. unfold quote, Props.one_line in *.
  rewrite !free_of_app, He. reflexivity.
Qed.

Lemma one_line_concat (sep : string) (pieces : list string) :
  Props.one_line sep = true ->
  Forall (fun p => Props.one_line p = true) pieces ->
  Props.one_line (String.concat sep pieces) = true.
Proof.
  intros Hsep H. induction H as [|p rest Hp Hrest IH]; [reflexivity|].
  destruct rest as [|q rest]; [exact Hp|].
  change (String.concat sep (p :: q :: rest))
    with (p ++ sep ++ String.concat sep (q :: rest))%string.
  unfold Props.one_line in *. rewrite !free_of_app, Hp, Hsep, IH. reflexivity.
Qed.

(** The text [JSON.stringify] produces holds no newline: the ones inside
    strings are escaped. *)
Lemma one_line_stringify (v : value) : Props.one_line (stringify v) = true.
Proof.
  induction v as [| |b|n| |s|xs IH|fields IH] using value_induction.
  - reflexivity.
  - reflexivity.
  - destruct b; reflexivity.
  - apply one_line_number_text.
  - reflexivity.
  - apply one_line_quote.
  - cbn [stringify].
    assert (Hm : Forall (fun p => Props.one_line p = true) (map stringify xs)).
    { induction IH as [|x xs Hx _ IHxs]; constructor; [exact Hx|exact IHxs]. }
    pose proof (one_line_concat "," _ eq_refl Hm) as Hc.
    unfold Props.one_line in *. rewrite !free_of_app, Hc. reflexivity.
  - cbn [stringify].
    match goal with
    | |- context [String.concat "," ?l] =>
        assert (Hm : Forall (fun p => Props.one_line p = true) l)
    end.
    { induction IH as [|[k x] fields Hx _ IHf]; [exact (Forall_nil _)|].
      cbn [snd] in Hx.
      assert (Hk : Props.one_line (quote k ++ ":" ++ stringify x) = true).
      { pose proof (one_line_quote k) as Hq. unfold Props.one_line in *.
        rewrite !free_of_app, Hq, Hx. reflexivity. }
      destruct x; try exact IHf; (constructor; [exact Hk|exact IHf]). }
    pose proof (one_line_concat "," _ eq_refl Hm) as Hc.
    unfold Props.one_line in *. rewrite !free_of_app, Hc. reflexivity.
Qed.

Lemma get_nullish (v : value) (k : string) :
  nullish v = true -> get v k = Throw TypeError.
Proof.
  destruct v; simpl; intros H; try discriminate H; reflexivity.
Qed.

(** The parts of the text payload are made unless a message is [null] or a
    content that goes after a label cannot be converted; the content of a
    user message is converted only when the parts are joined. *)
Lemma textParts_outcome (msgs : list value) :
  match textParts msgs with
  | Ok parts =>
      existsb nullish msgs = false /\
      forallb printable parts = negb (existsb Props.text_fails msgs)
  | Throw e => e = TypeError /\ existsb Props.text_fails msgs = true
  end.
Proof.
  induction msgs as [|msg rest IH]; [split; reflexivity|].
  cbn [textParts existsb].
  assert (Hf : Props.text_fails msg
               = nullish msg
                 || (Server.is_valid_role (get_opt msg "role")
                     && negb (printable (get_opt msg "content"))))
    by reflexivity.
  rewrite Hf. clear Hf. unfold Server.is_valid_role.
  destruct (nullish msg) eqn:Hn.
  - rewrite (get_nullish msg "role" Hn). split; reflexivity.
  - rewrite !(get_not_nullish msg _ Hn). cbn [bind orb]. unfold to_string.
    destruct (eq_str (get_opt msg "role") "system");
      [|destruct (eq_str (get_opt msg "role") "user");
        [|destruct (eq_str (get_opt msg "role") "assistant")]];
      cbn [orb andb bind];
      try (destruct (printable (get_opt msg "content")) eqn:Hp;
           cbn [bind negb orb]);
      try (split; reflexivity);
      destruct (textParts rest) as [parts|e]; cbn [bind];
      try exact IH;
      destruct IH as [I1 I2]; (split; [exact I1|]);
      cbn [app forallb printable]; try rewrite Hp; cbn [andb];
      try exact I2; reflexivity.
Qed.

Lemma textParts_no_null (msgs : list value) :
  existsb nullish msgs = true -> textParts msgs = Throw TypeError.
Proof.
  intros H. pose proof (textParts_outcome msgs) as Ho.
  destruct (textParts msgs) as [parts|e].
  - destruct Ho as [Ho _]. rewrite Ho in H. discriminate H.
  - destruct Ho as [Ho _]. rewrite Ho. reflexivity.
Qed.

(** The text payload as a whole. *)
Lemma text_payload_outcome (msgs : list value) :
  (existsb Props.text_fails msgs = true ->
   (parts <- textParts msgs ;; join (nl ++ nl) parts) = Throw TypeError) /\
  (existsb Props.text_fails msgs = false ->
   exists payload, (parts <- textParts msgs ;; join (nl ++ nl) parts) = Ok payload).
Proof.
  pose proof (textParts_outcome msgs) as Ho.
  destruct (textParts msgs) as [parts|e]; cbn [bind].
  - destruct Ho as [_ Ho]. unfold join. rewrite Ho.
    split; intros H; rewrite H; cbn [negb]; [reflexivity|eexists; reflexivity].
  - destruct Ho as [He Ho]. subst e.
    split; intros H; [reflexivity|rewrite Ho in H; discriminate H].
Qed.

Lemma jsonLines_outcome (msgs : list value) :
  (existsb nullish msgs = true -> jsonLines msgs = Throw TypeError) /\
  (existsb nullish msgs = false ->
   jsonLines msgs = Ok (map Props.json_line msgs)).
Proof.
  induction msgs as [|msg rest [IH1 IH2]]; simpl.
  - split; [discriminate|reflexivity].
  - destruct (nullish msg) eqn:Hn; simpl.
    + split; [|discriminate]. intros _. rewrite (get_nullish msg "role" Hn).
      reflexivity.
    + rewrite !(get_not_nullish msg _ Hn). simpl. split; intros H.
      * rewrite (IH1 H). reflexivity.
      * rewrite (IH2 H). reflexivity.
Qed.

(** X9. [_prepareInput] raises exactly when it cannot iterate or read a
    message, or cannot convert a content it puts into the text payload, and
    what it raises is then a [TypeError]. A [messages] that is neither an
    array nor a string fails in both input modes. For an array, the line
    protocol fails exactly when the array holds [null] or [undefined]; the
    text payload fails exactly when it holds [null] or [undefined] or a
    message with one of the three roles whose content cannot be converted to
    a string (an object with a [toString] of its own that is not a
    function). Every other array gives a payload. *)
Theorem X9_prepareInput_errors :
  forall (request : props) (input_format : value),
    (is_array (lookup "messages" request) = false ->
     is_string (lookup "messages" request) = false ->
     _prepareInput request input_format = Throw TypeError) /\
    (forall msgs : list value,
       lookup "messages" request = VArr msgs ->
       (eq_str input_format "stream-json" = true ->
        (existsb nullish msgs = true ->
         _prepareInput request input_format = Throw TypeError) /\
        (existsb nullish msgs = false ->
         exists payload, _prepareInput request input_format = Ok payload)) /\
       (eq_str input_format "stream-json" = false ->
        (existsb Props.text_fails msgs = true ->
         _prepareInput request input_format = Throw TypeError) /\
        (existsb Props.text_fails msgs = false ->
         exists payload, _prepareInput request input_format = Ok payload))).
Proof.
  intros request input_format. split.
  - intros Ha Hs. unfold _prepareInput.
    destruct (lookup "messages" request); try discriminate;
      destruct (eq_str input_format "stream-json"); reflexivity.
  - intros msgs Hm. unfold _prepareInput. rewrite Hm. cbn [iterate bind].
    destruct (text_payload_outcome msgs) as [T1 T2].
    destruct (jsonLines_outcome msgs) as [J1 J2].
    split; intros Hf; rewrite Hf; split; intros H.
    + rewrite (J1 H). reflexivity.
    + rewrite (J2 H). eexists. reflexivity.
    + exact (T1 H).
    + exact (T2 H).
Qed.

(** A list with [null] in it; a [messages] that is an object; a user
    message whose content is [{toString: 1}], which the line protocol takes
    and the text payload does not. *)
Lemma X9_prepareInput_errors_witness :
  let request :=
    [("messages",
       VArr [VObj [("role", VStr "user"); ("content", VStr "hi")]; VNull])] in
  let odd :=
    [("messages",
       VArr [VObj [("role", VStr "user");
                   ("content", VObj [("toString", VNum 1)])]])] in
  _prepareInput request (VStr "text") = Throw TypeError /\
  _prepareInput [("messages", VObj [])] (VStr "stream-json") = Throw TypeError /\
  _prepareInput odd (VStr "text") = Throw TypeError /\
  (exists payload, _prepareInput odd (VStr "stream-json") = Ok payload).
Proof.
  intros request odd. split; [|split; [|split]].
  - exact (proj1 (proj2 (proj2 (X9_prepareInput_errors request (VStr "text"))
                           _ eq_refl) eq_refl) eq_refl).
  - exact (proj1 (X9_prepareInput_errors [("messages", VObj [])] (VStr "stream-json"))
             eq_refl eq_refl).
  - exact (proj1 (proj2 (proj2 (X9_prepareInput_errors odd (VStr "text"))
                           _ eq_refl) eq_refl) eq_refl).
  - exact (proj2 (proj1 (proj2 (X9_prepareInput_errors odd (VStr "stream-json"))
                           _ eq_refl) eq_refl) eq_refl).
Defined.

(** X10. In line-protocol input mode the payload holds one JSON object per
    message, in order, each on a line of its own: no line contains a
    newline, whatever the contents of the messages, so that splitting the
    payload at newlines gives back exactly one line per message; a message
    is tagged ["user"] when its role is ["user"] and ["control"] otherwise. *)
Theorem X10_line_protocol_framing :
  forall (request : props) (msgs : list value),
    lookup "messages" request = VArr msgs ->
    existsb nullish msgs = false ->
    _prepareInput request (VStr "stream-json")
    = Ok (String.concat nl (map Props.json_line msgs)) /\
    forallb Props.one_line (map Props.json_line msgs) = true /\
    (msgs <> [] ->
     split "010"%char (String.concat nl (map Props.json_line msgs))
     = map Props.json_line msgs).
Proof.
  intros request msgs Hm Hn.
  assert (Hl : forallb Props.one_line (map Props.json_line msgs) = true).
  { apply forallb_forall. intros line Hin. apply in_map_iff in Hin.
    destruct Hin as [msg [Hline _]]. subst line. apply one_line_stringify. }
  split; [|split].
  - unfold _prepareInput. rewrite Hm. simpl.
    rewrite (proj2 (jsonLines_outcome msgs) Hn). reflexivity.
  - exact Hl.
  - intros Hne. apply split_concat; [|exact Hl].
    destruct msgs; [contradiction|discriminate].
Qed.

(** A user message whose content spans two lines, and a system message. *)
Lemma X10_line_protocol_framing_witness :
  let msgs :=
    [VObj [("role", VStr "system"); ("content", VStr "Be brief.")];
     VObj [("role", VStr "user"); ("content", VStr ("line 1" ++ nl ++ "line 2"))]] in
  let request := [("messages", VArr msgs)] in
  exists payload,
    _prepareInput request (VStr "stream-json") = Ok payload /\
    List.length (split "010"%char payload) = 2%nat.
Proof.
  intros msgs request.
  destruct (X10_line_protocol_framing request msgs eq_refl eq_refl)
    as [H1 [_ H3]].
  eexists. split; [exact H1|].
  rewrite H3; [reflexivity|discriminate].
Defined.

(* ================================================================== *)
(** ** Further properties of the streaming executor *)
(* ================================================================== *)

(** X11. The argument vector the streaming executor builds inline is the
    one [_buildClaudeArgs] builds for text input and ["stream-json"]
    output: the two executors start the backend the same way. *)
Theorem X11_streaming_args_agree :
  forall (cfg : config) (request : props),
    Streaming.streaming_args cfg request
    = _buildClaudeArgs cfg request (VStr "text") (VStr "stream-json").
Proof.
  intros cfg request. unfold Streaming.streaming_args, _buildClaudeArgs. simpl.
  destruct (truthy (lookup "max_tokens" request)
            || negb (is_undefined (lookup "temperature" request))); reflexivity.
Qed.


Section StreamingChunks.

Variable cfg : config.
Variable JSON_parse : string -> result value.
Variable request : props.
Variable requestId : string.

Lemma on_stdout_at_line_boundary (now : Z) (a b : string) (st : Streaming.state) :
  Streaming.on_stdout cfg JSON_parse request requestId now b
    (Streaming.on_stdout cfg JSON_parse request requestId now (a ++ nl) st)
  = Streaming.on_stdout cfg JSON_parse request requestId now (a ++ nl ++ b) st.
Proof.
  unfold Streaming.on_stdout.
  change (a ++ nl ++ b)%string with (a ++ String "010"%char b)%string.
  change (a ++ nl)%string with (a ++ String "010"%char EmptyString)%string.
  rewrite !split_app, !fold_left_app. reflexivity.
Qed.

Lemma sse_frame_json (v : value) :
  Props.sse_frame ("data: " ++ stringify v ++ nl ++ nl).
Proof.
  exists (stringify v). split; [reflexivity|apply one_line_stringify].
Qed.

Lemma sse_frame_DONE : Props.sse_frame Streaming.DONE.
Proof.
  exists "[DONE]". split; reflexivity.
Qed.

Lemma res_write_sse (frame : string) (st : Streaming.state) :
  Props.sse_frame frame ->
  Forall Props.sse_frame (Streaming.written st) ->
  Forall Props.sse_frame (Streaming.written (Streaming.res_write frame st)).
Proof.
  intros Hf Hw. unfold Streaming.res_write.
  destruct (Streaming.ended st); simpl; [exact Hw|].
  apply Forall_app. split; [exact Hw|]. constructor; [exact Hf|constructor].
Qed.

Lemma on_line_sse (now : Z) (st : Streaming.state) (line : string) :
  Forall Props.sse_frame (Streaming.written st) ->
  Forall Props.sse_frame
    (Streaming.written
       (Streaming.on_line cfg JSON_parse request requestId now st line)).
Proof.
  intros Hw. unfold Streaming.on_line.
  destruct (is_empty (trim line)); [exact Hw|].
  destruct (Streaming.line_frame cfg JSON_parse request requestId now line)
    as [[frame|]|e] eqn:Hf; try exact Hw.
  apply res_write_sse; [|exact Hw].
  destruct (line_frame_is_chunk cfg JSON_parse request requestId now line frame Hf)
    as [content [sr H]].
  subst frame. apply sse_frame_json.
Qed.

Lemma handle_sse (st : Streaming.state) (ev : Streaming.event) :
  Forall Props.sse_frame (Streaming.written st) ->
  Forall Props.sse_frame
    (Streaming.written (Streaming.handle cfg JSON_parse request requestId st ev)).
Proof.
  intros Hw. destruct ev as [now data|data|msg|code|]; simpl.
  - unfold Streaming.on_stdout. revert st Hw.
    induction (split "010"%char data) as [|line lines IH]; intros st Hw; simpl.
    + exact Hw.
    + apply IH. apply on_line_sse. exact Hw.
  - exact Hw.
  - unfold Streaming.on_error. simpl.
    apply res_write_sse; [apply sse_frame_DONE|].
    apply res_write_sse; [apply sse_frame_json|exact Hw].
  - unfold Streaming.on_close. simpl.
    apply res_write_sse; [apply sse_frame_DONE|].
    destruct (code_nonzero code); [|exact Hw].
    apply res_write_sse; [apply sse_frame_json|exact Hw].
  - unfold Streaming.on_res_close, Streaming.kill.
    destruct (Streaming.killed st); exact Hw.
Qed.

Lemma run_sse (trace : list Streaming.event) :
  forall st : Streaming.state,
    Forall Props.sse_frame (Streaming.written st) ->
    Forall Props.sse_frame
      (Streaming.written (Streaming.run cfg JSON_parse request requestId st trace)).
Proof.
  induction trace as [|ev trace IH]; intros st Hw; [exact Hw|].
  simpl. apply IH. apply handle_sse. exact Hw.
Qed.

End StreamingChunks.

(** X12. Where the chunks of stdout end at line boundaries, their boundaries
    do not matter: a chunk ending in a newline followed by a second chunk,
    both handled at the same reading of the clock, leaves the streaming
    executor in the very state the two leave it in when they arrive as one
    chunk, so that everything written from then on is the same. *)
Theorem X12_chunks_at_line_boundaries :
  forall (cfg : config) (JSON_parse : string -> result value)
         (request : props) (requestId : string)
         (st : Streaming.state) (trace1 trace2 : list Streaming.event)
         (now : Z) (a b : string),
    Streaming.run cfg JSON_parse request requestId st
      (trace1 ++ Streaming.Stdout now (a ++ nl) :: Streaming.Stdout now b :: trace2)
    = Streaming.run cfg JSON_parse request requestId st
        (trace1 ++ Streaming.Stdout now (a ++ nl ++ b) :: trace2).
Proof.
  intros cfg JSON_parse request requestId st trace1 trace2 now a b.
  unfold Streaming.run. rewrite !fold_left_app. simpl.
  rewrite on_stdout_at_line_boundary. reflexivity.
Qed.

(** X13. Everything the streaming executor writes to the response is a
    well-formed frame of the event stream: [data: ], a payload that holds no
    newline (the newlines of the assistant's text and of stderr are escaped
    by [JSON.stringify]), and a blank line. This holds in every run, whether
    or not the stdin write failed. *)
Theorem X13_frames_are_well_formed :
  forall (cfg : config) (JSON_parse : string -> result value)
         (request : props) (requestId : string)
         (write_error : option string) (args : list value) (input : string)
         (st0 : Streaming.state) (trace : list Streaming.event),
    Streaming.executeStreaming cfg request write_error = Ok (args, input, st0) ->
    Forall Props.sse_frame
      (Streaming.written
         (Streaming.run cfg JSON_parse request requestId st0 trace)).
Proof.
  intros cfg JSON_parse request requestId write_error args input st0 trace Hx.
  apply run_sse.
  unfold Streaming.executeStreaming in Hx.
  destruct (Streaming._convertMessagesToText (lookup "messages" request));
    simpl in Hx; [|discriminate Hx].
  injection Hx as _ _ Hx. subst st0.
  destruct write_error as [msg|]; simpl; [|constructor].
  unfold Streaming.res_write. simpl.
  constructor; [apply sse_frame_json|].
  constructor; [apply sse_frame_DONE|constructor].
Qed.

(** An assistant text of two lines and a stderr text of two lines: three
    frames, each with its payload on one line. *)
Lemma X13_frames_are_well_formed_witness :
  let request :=
    [("messages", VArr [VObj [("role", VStr "user"); ("content", VStr "hi")]])] in
  let event :=
    VObj [("type", VStr "assistant");
          ("message",
            VObj [("content", VArr [Spec.text_block ("a" ++ nl ++ "b")])])] in
  let trace :=
    [Streaming.Stdout 0 (stringify event ++ nl);
     Streaming.Stderr ("warn" ++ nl ++ "more");
     Streaming.Close (Some 1)] in
  exists st0,
    Streaming.executeStreaming Spec.example_config request None
    = Ok (Streaming.streaming_args Spec.example_config request, "hi", st0) /\
    List.length
      (Streaming.written
         (Streaming.run Spec.example_config Json.JSON_parse request "r1" st0 trace))
    = 3%nat /\
    Forall Props.sse_frame
      (Streaming.written
         (Streaming.run Spec.example_config Json.JSON_parse request "r1" st0 trace)).
Proof.
  intros request event trace.
  eexists. split; [reflexivity|]. split; [vm_compute; reflexivity|].
  exact (X13_frames_are_well_formed Spec.example_config Json.JSON_parse request "r1"
           None _ _ _ trace eq_refl).
Defined.

Lemma concat_empty_cons (x : string) (l : list string) :
  String.concat EmptyString (x :: l) = (x ++ String.concat EmptyString l)%string.
Proof.
  destruct l as [|y l]; simpl; [rewrite append_empty_r|]; reflexivity.
Qed.

(** The loop over the content blocks of an assistant event. *)
Lemma blocks_text_outcome (blocks : list value) :
  forall acc : string,
    (existsb nullish blocks = true ->
     Streaming.blocks_text acc blocks = Throw TypeError) /\
    (forallb printable (Spec.block_texts blocks) = false ->
     Streaming.blocks_text acc blocks = Throw TypeError) /\
    (existsb nullish blocks = false ->
     forallb printable (Spec.block_texts blocks) = true ->
     Streaming.blocks_text acc blocks
     = Ok (acc ++ Spec.text_concatenation blocks)).
Proof.
  unfold Spec.text_concatenation, Spec.block_texts, Spec.text_blocks.
  induction blocks as [|b rest IH]; intros acc;
    cbn [Streaming.blocks_text existsb filter map forallb].
  - split; [discriminate|]. split; [discriminate|]. intros _ _.
    cbn [String.concat]. rewrite append_empty_r. reflexivity.
  - destruct (nullish b) eqn:Hn; cbn [orb].
    + rewrite (get_nullish b "type" Hn).
      split; [reflexivity|]. split; [reflexivity|discriminate].
    + rewrite (get_not_nullish b "type" Hn). cbn [bind].
      destruct (eq_str (get_opt b "type") "text"); cbn [map forallb].
      * rewrite (get_not_nullish b "text" Hn). cbn [bind]. unfold to_string.
        destruct (printable (get_opt b "text")); cbn [bind andb].
        -- destruct (IH (acc ++ text_of (get_opt b "text"))%string)
             as [I1 [I2 I3]].
           split; [exact I1|]. split; [exact I2|]. intros H H'.
           rewrite (I3 H H'), concat_empty_cons, append_assoc. reflexivity.
        -- split; [reflexivity|]. split; [reflexivity|discriminate].
      * exact (IH acc).
Qed.

Lemma or_else_defined (a b : value) : b <> VUndef -> or_else a b <> VUndef.
Proof.
  intros Hb. unfold or_else. destruct a; cbn [truthy]; try exact Hb;
    try discriminate;
    repeat match goal with
           | |- context [if ?c then _ else _] => destruct c
           end; try exact Hb; discriminate.
Qed.

(** The frame of a chunk, letter by letter. *)
Lemma sse_chunk_text (cfg : config) (request : props) (requestId : string)
    (now : Z) (content : string) (sr : value) :
  ("data: " ++ stringify (Streaming.sseChunk cfg request requestId now content sr)
   ++ nl ++ nl)%string
  = Props.chunk_frame cfg request requestId now content sr.
Proof.
  unfold Streaming.sseChunk, Props.chunk_frame, Spec.lit.
  pose proof (or_else_defined (lookup "model" request) (VStr (defaultModel cfg))
                ltac:(discriminate)) as Hm.
  pose proof (or_else_defined sr VNull ltac:(discriminate)) as Hs.
  set (m := or_else (lookup "model" request) (VStr (defaultModel cfg))) in *.
  set (f := or_else sr VNull) in *.
  assert (Hf : stringify (VObj [("index", VNum 0);
                                ("delta", VObj [("content", VStr content)]);
                                ("finish_reason", f)])
               = ("{" ++ quote "index" ++ ":0," ++ quote "delta" ++ ":{"
                  ++ quote "content" ++ ":" ++ quote content ++ "},"
                  ++ quote "finish_reason" ++ ":" ++ stringify f ++ "}")%string).
  { destruct f; try (exfalso; apply Hs; reflexivity);
      cbn [stringify map String.concat];
      change (number_text 0) with "0";
      generalize (quote content); intros q;
      rewrite !append_assoc; reflexivity. }
  remember (VObj [("index", VNum 0);
                  ("delta", VObj [("content", VStr content)]);
                  ("finish_reason", f)]) as o eqn:Ho.
  clearbody m f.
  destruct m; try (exfalso; apply Hm; reflexivity);
    cbn [stringify map String.concat]; rewrite Hf;
    rewrite !append_assoc; reflexivity.
Qed.

(** X14. What the stdout handler forwards for an assistant event. When
    the content of its message is a list of blocks none of which is [null]
    and whose texts can all be converted to a string, the frame is
    [data: {"id":"chatcmpl-<id>","object":"chat.completion.chunk",
    "created":<seconds>,"model":<model>,"choices":[{"index":0,
    "delta":{"content":<delta>},"finish_reason":<reason>}]}] and a blank
    line, where the delta is the concatenation of the texts of the blocks of
    type ["text"], with nothing between them, and the finish reason is the
    stop reason of the message ([null] when there is none); when the content
    is not a list (a plain string, say) the delta is empty. When the list
    holds [null], or a text block whose text cannot be converted (an object
    with a [toString] of its own that is not a function), the line raises a
    [TypeError] and nothing is forwarded for it. *)
Theorem X14_assistant_event_delta :
  forall (cfg : config) (JSON_parse : string -> result value)
         (request : props) (requestId : string) (now : Z)
         (line : string) (event message : props),
    JSON_parse line = Ok (VObj event) ->
    lookup "type" event = VStr "assistant" ->
    lookup "message" event = VObj message ->
    (forall blocks : list value,
       lookup "content" message = VArr blocks ->
       existsb nullish blocks = false ->
       forallb printable (Spec.block_texts blocks) = true ->
       Streaming.line_frame cfg JSON_parse request requestId now line
       = Ok (Some (Props.chunk_frame cfg request requestId now
                     (Spec.text_concatenation blocks)
                     (lookup "stop_reason" message)))) /\
    (is_array (lookup "content" message) = false ->
     Streaming.line_frame cfg JSON_parse request requestId now line
     = Ok (Some (Props.chunk_frame cfg request requestId now EmptyString
                   (lookup "stop_reason" message)))) /\
    (forall (blocks : list value) (st : Streaming.state),
       lookup "content" message = VArr blocks ->
       existsb nullish blocks = true
       \/ forallb printable (Spec.block_texts blocks) = false ->
       Streaming.line_frame cfg JSON_parse request requestId now line
       = Throw TypeError /\
       Streaming.written
         (Streaming.on_line cfg JSON_parse request requestId now st line)
       = Streaming.written st).
Proof.
  intros cfg JSON_parse request requestId now line event message Hp Ht Hm.
  assert (Hl : Streaming.line_frame cfg JSON_parse request requestId now line
               = (content <-
                    (match lookup "content" message with
                     | VArr blocks => Streaming.blocks_text EmptyString blocks
                     | _ => Ok EmptyString
                     end) ;;
                  Ok (Some (Props.chunk_frame cfg request requestId now
                              content (lookup "stop_reason" message))))).
  { unfold Streaming.line_frame. rewrite Hp. cbn [bind get]. rewrite Ht, Hm.
    change (eq_str (VStr "assistant") "assistant" && truthy (VObj message))
      with true.
    cbv iota. cbn [bind get].
    destruct (match lookup "content" message with
              | VArr blocks => Streaming.blocks_text EmptyString blocks
              | _ => Ok EmptyString
              end) as [content|e]; cbn [bind]; [|reflexivity].
    rewrite sse_chunk_text. reflexivity. }
  split; [|split].
  - intros blocks Hc Hn Hq. rewrite Hl, Hc.
    rewrite (proj2 (proj2 (blocks_text_outcome blocks EmptyString)) Hn Hq).
    reflexivity.
  - intros Ha. rewrite Hl.
    destruct (lookup "content" message); try discriminate Ha; reflexivity.
  - intros blocks st Hc Hbad.
    assert (Ht' : Streaming.line_frame cfg JSON_parse request requestId now line
                  = Throw TypeError).
    { rewrite Hl, Hc.
      destruct Hbad as [Hn|Hq].
      - rewrite (proj1 (blocks_text_outcome blocks EmptyString) Hn). reflexivity.
      - rewrite (proj1 (proj2 (blocks_text_outcome blocks EmptyString)) Hq).
        reflexivity. }
    split; [exact Ht'|].
    unfold Streaming.on_line.
    destruct (is_empty (trim line)); [reflexivity|].
    rewrite Ht'. reflexivity.
Qed.

(** A message of two text blocks around a tool-use block, stopped at the
    end of its turn; and a message whose only text is [{toString: 1}]. *)
Lemma X14_assistant_event_delta_witness :
  let message :=
    [("content",
       VArr [Spec.text_block "2+2";
             VObj [("type", VStr "tool_use"); ("text", VStr "ignored")];
             Spec.text_block "=4"]);
     ("stop_reason", VStr "end_turn")] in
  let event := [("type", VStr "assistant"); ("message", VObj message)] in
  let odd :=
    [("content",
       VArr [VObj [("type", VStr "text");
                   ("text", VObj [("toString", VNum 1)])]])] in
  let odd_event := [("type", VStr "assistant"); ("message", VObj odd)] in
  Streaming.line_frame Spec.example_config Json.JSON_parse [] "r1" 5000
    (stringify (VObj event))
  = Ok (Some ("data: {" ++ Spec.lit "id" ++ ":" ++ Spec.lit "chatcmpl-r1" ++ ","
              ++ Spec.lit "object" ++ ":" ++ Spec.lit "chat.completion.chunk"
              ++ "," ++ Spec.lit "created" ++ ":5,"
              ++ Spec.lit "model" ++ ":" ++ Spec.lit "sonnet" ++ ","
              ++ Spec.lit "choices" ++ ":[{" ++ Spec.lit "index" ++ ":0,"
              ++ Spec.lit "delta" ++ ":{" ++ Spec.lit "content" ++ ":"
              ++ Spec.lit "2+2=4" ++ "}," ++ Spec.lit "finish_reason" ++ ":"
              ++ Spec.lit "end_turn" ++ "}]}"
              ++ String "010" (String "010" EmptyString))) /\
  Streaming.line_frame Spec.example_config Json.JSON_parse [] "r1" 5000
    (stringify (VObj odd_event))
  = Throw TypeError /\
  Streaming.written
    (Streaming.on_line Spec.example_config Json.JSON_parse [] "r1" 5000
       Streaming.start (stringify (VObj odd_event)))
  = [].
Proof.
  intros message event odd odd_event. split.
  - rewrite (proj1 (X14_assistant_event_delta Spec.example_config Json.JSON_parse
                      [] "r1" 5000 (stringify (VObj event)) event message
                      eq_refl eq_refl eq_refl)
               _ eq_refl eq_refl eq_refl).
    vm_compute. reflexivity.
  - exact (proj2 (proj2 (X14_assistant_event_delta Spec.example_config
                           Json.JSON_parse [] "r1" 5000
                           (stringify (VObj odd_event)) odd_event odd
                           eq_refl eq_refl eq_refl))
             _ Streaming.start eq_refl (or_intror eq_refl)).
Defined.



(* ================================================================== *)
(** ** Further properties of the HTTP layer *)
(* ================================================================== *)

Lemma validate_messages_accepts (msgs : list value) :
  forall i : Z,
    Server.validate_messages i msgs = Ok None ->
    forallb Props.valid_message msgs = true.
Proof.
  induction msgs as [|msg rest IH]; intros i; simpl; [reflexivity|].
  unfold Props.valid_message at 1.
  destruct (nullish msg) eqn:Hn.
  - rewrite (get_nullish msg "role" Hn). discriminate.
  - rewrite !(get_not_nullish msg _ Hn). simpl.
    destruct (truthy (get_opt msg "role")); simpl; [|discriminate].
    destruct (truthy (get_opt msg "content")); simpl; [|discriminate].
    destruct (Server.is_valid_role (get_opt msg "role")); simpl;
      [|destruct (to_string (get_opt msg "role")); discriminate].
    apply IH.
Qed.

Lemma validate_messages_skips (good rest : list value) :
  forall i : Z,
    forallb Props.valid_message good = true ->
    Server.validate_messages i (good ++ rest)
    = Server.validate_messages (i + Z.of_nat (List.length good)) rest.
Proof.
  induction good as [|msg good IH]; intros i Hg.
  - simpl. rewrite Z.add_0_r. reflexivity.
  - simpl in Hg. apply andb_prop in Hg. destruct Hg as [Hm Hg].
    unfold Props.valid_message in Hm.
    apply andb_prop in Hm. destruct Hm as [Hm Hv].
    apply andb_prop in Hm. destruct Hm as [Hm Hc].
    apply andb_prop in Hm. destruct Hm as [Hn Hr].
    apply negb_true_iff in Hn.
    cbn [app Server.validate_messages].
    rewrite !(get_not_nullish msg _ Hn). simpl. rewrite Hr, Hc, Hv. simpl.
    rewrite (IH (i + 1) Hg). f_equal. cbn [List.length]. lia.
Qed.

Lemma valid_messages_parts (msgs : list value) :
  forallb Props.valid_message msgs = true ->
  existsb nullish msgs = false /\
  existsb Props.text_fails msgs = negb (forallb Props.content_printable msgs) /\
  (forallb Props.content_printable msgs = true ->
   exists parts : list value,
     textParts msgs = Ok parts /\ List.length parts = List.length msgs).
Proof.
  induction msgs as [|msg rest IH]; cbn [forallb existsb]; intros H.
  - split; [reflexivity|]. split; [reflexivity|]. intros _.
    exists []. split; reflexivity.
  - apply andb_prop in H. destruct H as [Hm Hrest].
    destruct (IH Hrest) as [Hex [Hf Hparts]].
    unfold Props.valid_message in Hm.
    apply andb_prop in Hm. destruct Hm as [Hm Hv].
    apply andb_prop in Hm. destruct Hm as [Hm _].
    apply andb_prop in Hm. destruct Hm as [Hn _].
    apply negb_true_iff in Hn.
    assert (Hfm : Props.text_fails msg = negb (Props.content_printable msg)).
    { unfold Props.text_fails, Props.content_printable.
      rewrite Hn, Hv. reflexivity. }
    rewrite Hn, Hex, Hfm, Hf.
    split; [reflexivity|].
    split; [destruct (Props.content_printable msg); reflexivity|].
    intros Hc. apply andb_prop in Hc. destruct Hc as [Hc Hcr].
    destruct (Hparts Hcr) as [parts [Hp Hl]].
    unfold Props.content_printable in Hc.
    cbn [textParts]. rewrite !(get_not_nullish msg _ Hn). cbn [bind].
    unfold to_string. rewrite Hc, Hp. cbn [bind].
    unfold Server.is_valid_role in Hv.
    destruct (eq_str (get_opt msg "role") "system"); cbn [bind];
      [eexists; split; [reflexivity|cbn [app List.length]; rewrite Hl; reflexivity]|].
    destruct (eq_str (get_opt msg "role") "user"); cbn [bind];
      [eexists; split; [reflexivity|cbn [app List.length]; rewrite Hl; reflexivity]|].
    destruct (eq_str (get_opt msg "role") "assistant"); cbn [bind];
      [eexists; split; [reflexivity|cbn [app List.length]; rewrite Hl; reflexivity]|].
    discriminate Hv.
Qed.

(** X16. A request that [validateChatCompletionRequest] lets through has a
    non-empty array of messages, each with a truthy role among [system],
    [user], [assistant] and a truthy content. On such a request the line
    protocol payload is always built. The text payload, of either executor,
    is built exactly when every content can be converted to a string, and
    then every message contributes exactly one part; a validated request
    with a content that cannot be converted (an object with a [toString] of
    its own that is not a function) makes both raise [TypeError]. *)
Theorem X16_validated_requests_build :
  forall body : props,
    Server.validateChatCompletionRequest body = Ok None ->
    exists msgs : list value,
      lookup "messages" body = VArr msgs /\ msgs <> [] /\
      forallb Props.valid_message msgs = true /\
      (exists payload, _prepareInput body (VStr "stream-json") = Ok payload) /\
      (forallb Props.content_printable msgs = true ->
       (exists parts : list value,
          textParts msgs = Ok parts /\ List.length parts = List.length msgs) /\
       (forall input_format : value,
          exists payload, _prepareInput body input_format = Ok payload) /\
       (exists payload,
          Streaming._convertMessagesToText (lookup "messages" body) = Ok payload)) /\
      (forallb Props.content_printable msgs = false ->
       (forall input_format : value,
          eq_str input_format "stream-json" = false ->
          _prepareInput body input_format = Throw TypeError) /\
       Streaming._convertMessagesToText (lookup "messages" body) = Throw TypeError).
Proof.
  intros body. unfold Server.validateChatCompletionRequest.
  destruct (lookup "messages" body) as [| | | | | |msgs|] eqn:Hm; try discriminate.
  destruct msgs as [|m ms]; [discriminate|].
  destruct (Server.validate_messages 0 (m :: ms)) as [[e|]|] eqn:Hv;
    cbn [bind]; try discriminate.
  intros _.
  pose proof (validate_messages_accepts (m :: ms) 0 Hv) as Hvalid.
  destruct (valid_messages_parts (m :: ms) Hvalid) as [Hex [Hf Hparts]].
  destruct (text_payload_outcome (m :: ms)) as [T1 T2].
  assert (Hj : exists payload, _prepareInput body (VStr "stream-json") = Ok payload).
  { unfold _prepareInput. rewrite Hm.
    change (eq_str (VStr "stream-json") "stream-json") with true.
    cbv iota. cbn [iterate bind].
    rewrite (proj2 (jsonLines_outcome (m :: ms)) Hex). eexists. reflexivity. }
  exists (m :: ms). split; [reflexivity|]. split; [discriminate|].
  split; [exact Hvalid|]. split; [exact Hj|]. split.
  - intros Hc. rewrite Hc in Hf. split; [exact (Hparts Hc)|]. split.
    + intros input_format. unfold _prepareInput. rewrite Hm.
      cbn [iterate bind].
      destruct (eq_str input_format "stream-json").
      * rewrite (proj2 (jsonLines_outcome (m :: ms)) Hex). eexists. reflexivity.
      * exact (T2 Hf).
    + unfold Streaming._convertMessagesToText. cbn [iterate bind].
      rewrite streaming_textParts_same. exact (T2 Hf).
  - intros Hc. rewrite Hc in Hf. split.
    + intros input_format He. unfold _prepareInput. rewrite Hm, He.
      cbn [iterate bind]. exact (T1 Hf).
    + unfold Streaming._convertMessagesToText. cbn [iterate bind].
      rewrite streaming_textParts_same. exact (T1 Hf).
Qed.

(** A validated request; and one the validator lets through as well, whose
    user message has the content [{toString: 1}]: its text payload is never
    built. *)
Lemma X16_validated_requests_build_witness :
  let body :=
    [("model", VStr "claude-sonnet");
     ("messages",
       VArr [VObj [("role", VStr "system"); ("content", VStr "Be brief.")];
             VObj [("role", VStr "user"); ("content", VStr "2+2?")]])] in
  let odd :=
    [("messages",
       VArr [VObj [("role", VStr "user");
                   ("content", VObj [("toString", VNum 1)])]])] in
  Server.validateChatCompletionRequest body = Ok None /\
  (exists payload, _prepareInput body (VStr "text") = Ok payload) /\
  Server.validateChatCompletionRequest odd = Ok None /\
  _prepareInput odd (VStr "text") = Throw TypeError /\
  Streaming._convertMessagesToText (lookup "messages" odd) = Throw TypeError.
Proof.
  intros body odd.
  destruct (X16_validated_requests_build body eq_refl)
    as [msgs [Hm [_ [_ [_ [H _]]]]]].
  destruct (X16_validated_requests_build odd eq_refl)
    as [msgs' [Hm' [_ [_ [_ [_ H']]]]]].
  injection Hm as Hm. subst msgs. injection Hm' as Hm'. subst msgs'.
  split; [reflexivity|].
  split; [exact (proj1 (proj2 (H eq_refl)) (VStr "text"))|].
  split; [reflexivity|].
  split; [exact (proj1 (H' eq_refl) (VStr "text") eq_refl)|].
  exact (proj2 (H' eq_refl)).
Defined.

(** X17. The request validator stops at the first message it cannot
    accept and names its index: after any number of acceptable messages, a
    message without a truthy role or content is answered with 400
    [invalid_message_format], a message with another role with 400
    [invalid_role], both naming the position of that message; a message that
    is [null] makes the validator itself raise [TypeError], and so does a
    role that is not one of the three and cannot be converted to a string
    for the reply (an object with a [toString] of its own that is not a
    function). *)
Theorem X17_validator_names_first_offender :
  forall (body : props) (good : list value) (bad : value) (rest : list value),
    lookup "messages" body = VArr (good ++ bad :: rest) ->
    forallb Props.valid_message good = true ->
    let i := Z.of_nat (List.length good) in
    (nullish bad = true ->
     Server.validateChatCompletionRequest body = Throw TypeError) /\
    (nullish bad = false ->
     truthy (get_opt bad "role") && truthy (get_opt bad "content") = false ->
     Server.validateChatCompletionRequest body
     = Ok (Some (Props.missing_fields_reply i))) /\
    (nullish bad = false ->
     truthy (get_opt bad "role") && truthy (get_opt bad "content") = true ->
     Server.is_valid_role (get_opt bad "role") = false ->
     (printable (get_opt bad "role") = true ->
      Server.validateChatCompletionRequest body
      = Ok (Some (Props.invalid_role_reply i (get_opt bad "role")))) /\
     (printable (get_opt bad "role") = false ->
      Server.validateChatCompletionRequest body = Throw TypeError)).
Proof.
  intros body good bad rest Hm Hg i.
  assert (Hv : Server.validateChatCompletionRequest body
               = (r <- Server.validate_messages i (bad :: rest) ;;
                  match r with
                  | Some e => Ok (Some e)
                  | None =>
                      _ <- Server.model_check (lookup "model" body) ;; Ok None
                  end)).
  { unfold Server.validateChatCompletionRequest. rewrite Hm.
    destruct (good ++ bad :: rest)%list as [|m ms] eqn:Hl.
    - destruct good; discriminate Hl.
    - rewrite <- Hl. rewrite (validate_messages_skips good (bad :: rest) 0 Hg).
      reflexivity. }
  rewrite Hv. cbn [Server.validate_messages]. split; [|split].
  - intros Hn. rewrite (get_nullish bad "role" Hn). reflexivity.
  - intros Hn Hf. rewrite !(get_not_nullish bad _ Hn). cbn [bind].
    destruct (truthy (get_opt bad "role")); destruct (truthy (get_opt bad "content"));
      try discriminate Hf; reflexivity.
  - intros Hn Ht Hr. rewrite !(get_not_nullish bad _ Hn). cbn [bind].
    apply andb_prop in Ht. destruct Ht as [Ht1 Ht2].
    rewrite Ht1, Ht2, Hr. cbn [negb orb]. unfold to_string.
    split; intros Hp; rewrite Hp; reflexivity.
Qed.

(** Two acceptable messages, then one with the role ["tool"]: the reply
    names index 2. With the role [{toString: 1}] instead, the validator
    raises. *)
Lemma X17_validator_names_first_offender_witness :
  let good :=
    [VObj [("role", VStr "system"); ("content", VStr "Be brief.")];
     VObj [("role", VStr "user"); ("content", VStr "2+2?")]] in
  let bad := VObj [("role", VStr "tool"); ("content", VStr "4")] in
  let odd :=
    VObj [("role", VObj [("toString", VNum 1)]); ("content", VStr "4")] in
  Server.validateChatCompletionRequest [("messages", VArr (good ++ bad :: []))]
  = Ok (Some {| Server.status := 400;
                Server.message :=
                  "Message at index 2 has invalid role 'tool'. Must be 'system', 'user', or 'assistant'";
                Server.type := "invalid_request_error";
                Server.code := "invalid_role" |}) /\
  Server.validateChatCompletionRequest [("messages", VArr (good ++ odd :: []))]
  = Throw TypeError.
Proof.
  intros good bad odd. split.
  - exact (proj1 (proj2 (proj2 (X17_validator_names_first_offender
                                  [("messages", VArr (good ++ bad :: []))]
                                  good bad [] eq_refl eq_refl))
                    eq_refl eq_refl eq_refl) eq_refl).
  - exact (proj2 (proj2 (proj2 (X17_validator_names_first_offender
                                  [("messages", VArr (good ++ odd :: []))]
                                  good odd [] eq_refl eq_refl))
                    eq_refl eq_refl eq_refl) eq_refl).
Defined.



Lemma or_else_twice (v d : value) : or_else (or_else v d) d = or_else v d.
Proof.
  unfold or_else. destruct (truthy v) eqn:H; [rewrite H; reflexivity|].
  destruct (truthy d); reflexivity.
Qed.

(** X19. The routes [/v1/messages] and [/api/rca] fill in the defaults
    before they call the executor, so the backend is always started with a
    [--settings] option holding a temperature, and with the model of the
    request or else the default one: with a configured default temperature,
    the argument vector of such a request is [--print
    --dangerously-skip-permissions --output-format json --model <model>
    --settings <blob>]. *)
Theorem X19_compat_routes_always_send_settings :
  forall (cfg : config) (body req : props) (opts : value),
    defaultTemperature cfg <> VUndef ->
    Server.messages_route cfg body = Server.RunBuffered req opts
    \/ Middleware.rca_route cfg body = Server.RunBuffered req opts ->
    formats_of opts = Ok (VStr "text", VStr "json") /\
    _buildClaudeArgs cfg req (VStr "text") (VStr "json")
    = [VStr "--print"; VStr "--dangerously-skip-permissions";
       VStr "--output-format"; VStr "json";
       VStr "--model"; or_else (lookup "model" body) (VStr (defaultModel cfg));
       VStr "--settings"; VStr (stringify (VObj (settings_of req)))] /\
    lookup "temperature" (settings_of req) <> VUndef.
Proof.
  intros cfg body req opts Hd H.
  assert (Hreq : exists messages,
             req = [("model", or_else (lookup "model" body) (VStr (defaultModel cfg)));
                    ("messages", messages);
                    ("max_tokens",
                      or_else (lookup "max_tokens" body) (defaultMaxTokens cfg));
                    ("temperature",
                      if is_undefined (lookup "temperature" body)
                      then defaultTemperature cfg else lookup "temperature" body)]
             /\ opts = VObj [("input_format", VStr "text");
                             ("output_format", VStr "json")]).
  { destruct H as [H|H].
    - unfold Server.messages_route in H.
      destruct (lookup "messages" body) as [| | | | | |[|m ms]|]; try discriminate H.
      injection H as H1 H2. subst req opts. eexists. split; reflexivity.
    - unfold Middleware.rca_route in H.
      destruct (truthy (lookup "prompt" body)); simpl in H; [|discriminate H].
      injection H as H1 H2. subst req opts. eexists. split; reflexivity. }
  destruct Hreq as [messages [Hr Ho]]. subst req opts.
  assert (Ht : (if is_undefined (lookup "temperature" body)
                then defaultTemperature cfg else lookup "temperature" body)
               <> VUndef).
  { destruct (is_undefined (lookup "temperature" body)) eqn:E; [exact Hd|].
    apply is_undefined_false. exact E. }
  split; [reflexivity|]. split.
  - rewrite buildClaudeArgs_parts. simpl. rewrite or_else_twice.
    apply is_undefined_false in Ht. rewrite Ht. rewrite orb_true_r. reflexivity.
  - destruct (settings_of_fields
                [("model", or_else (lookup "model" body) (VStr (defaultModel cfg)));
                 ("messages", messages);
                 ("max_tokens",
                   or_else (lookup "max_tokens" body) (defaultMaxTokens cfg));
                 ("temperature",
                   if is_undefined (lookup "temperature" body)
                   then defaultTemperature cfg else lookup "temperature" body)])
      as [_ [H2 _]].
    rewrite H2. simpl. exact Ht.
Qed.

Lemma X19_compat_routes_always_send_settings_witness :
  let body :=
    [("messages", VArr [VObj [("role", VStr "user"); ("content", VStr "2+2?")]])] in
  exists req opts,
    Server.messages_route Spec.example_config body = Server.RunBuffered req opts /\
    _buildClaudeArgs Spec.example_config req (VStr "text") (VStr "json")
    = [VStr "--print"; VStr "--dangerously-skip-permissions";
       VStr "--output-format"; VStr "json"; VStr "--model"; VStr "sonnet";
       VStr "--settings";
       VStr ("{" ++ quote "maxTokens" ++ ":2000," ++ quote "temperature" ++ ":1}")].
Proof.
  intros body. eexists _, _. split; [reflexivity|].
  destruct (X19_compat_routes_always_send_settings Spec.example_config body _ _
              ltac:(discriminate) (or_introl eq_refl)) as [_ [H _]].
  rewrite H. reflexivity.
Defined.

(** X20. For every response produced by the translation, the Anthropic
    shape carries the token counts, the model and the identifier of the
    OpenAI shape unchanged: [input_tokens] is [prompt_tokens],
    [output_tokens] is [completion_tokens], and the id is the OpenAI id
    after [msg-]. *)
Theorem X20_anthropic_usage_agrees :
  forall (raw mdl : value) (requestId : string) (now : Z) (r : Response),
    _convertToOpenAiFormat raw mdl requestId now = Ok r ->
    Server.input_tokens (Server.usage (Server.anthropicResponse r))
    = prompt_tokens (usage r) /\
    Server.output_tokens (Server.usage (Server.anthropicResponse r))
    = completion_tokens (usage r) /\
    Server.model (Server.anthropicResponse r) = mdl /\
    Server.id (Server.anthropicResponse r) = "msg-chatcmpl-" ++ requestId.
Proof.
  intros raw mdl requestId now r. unfold _convertToOpenAiFormat.
  destruct (extract_content raw) as [c|]; simpl; [|discriminate].
  destruct (get raw "usage") as [u|]; simpl; [|discriminate].
  destruct (get raw "stop_reason") as [sr|]; simpl; [|discriminate].
  destruct (add _ _) as [total|]; simpl; [|discriminate].
  intros H. injection H as H. subst r. simpl.
  rewrite !or_else_twice. repeat split.
Qed.

Lemma X20_anthropic_usage_agrees_witness :
  exists r : Response,
    _convertToOpenAiFormat (VObj Spec.scenario_fields) (VStr "sonnet") "r1" 0 = Ok r /\
    Server.usage (Server.anthropicResponse r)
    = {| Server.input_tokens := VNum 5; Server.output_tokens := VNum 1 |}.
Proof.
  eexists. split; [reflexivity|].
  destruct (X20_anthropic_usage_agrees (VObj Spec.scenario_fields) (VStr "sonnet")
              "r1" 0 _ eq_refl) as [H1 [H2 _]].
  reflexivity.
Defined.

Lemma lookup_assign_same (k : string) (v : value) (err : props) :
  lookup k (Middleware.assign k v err) = v.
Proof.
  induction err as [|[k' v'] rest IH]; simpl.
  - rewrite String.eqb_refl. reflexivity.
  - destruct (String.eqb k k') eqn:E; simpl; rewrite E; [reflexivity|exact IH].
Qed.

Lemma lookup_assign_other (k k' : string) (v : value) (err : props) :
  k <> k' -> lookup k' (Middleware.assign k v err) = lookup k' err.
Proof.
  intros Hk. induction err as [|[k0 v0] rest IH]; simpl.
  - destruct (String.eqb k' k) eqn:E; [|reflexivity].
    apply String.eqb_eq in E. congruence.
  - destruct (String.eqb k k0) eqn:E; simpl.
    + apply String.eqb_eq in E. subst k0.
      destruct (String.eqb k' k) eqn:E'; [|reflexivity].
      apply String.eqb_eq in E'. congruence.
    + destruct (String.eqb k' k0); [reflexivity|exact IH].
Qed.

(** X21. Whatever error an executor throws, and whatever properties that
    error object carries (a [statusCode] or [type] of its own included), a
    route that catches it answers with status 500 and the type of the route;
    the message is the message of the error (or [Internal server error]
    when it has none), the code is the code of the error or else
    [unknown_error], and the stack is part of the reply in development mode
    only. *)
Theorem X21_executor_failures_are_500 :
  forall (isDevelopment : bool) (type : string) (err : props),
    type <> EmptyString ->
    Middleware.route_catch isDevelopment type err
    = (VNum 500,
       VObj [("error",
               VObj ([("message",
                        or_else (lookup "message" err) (VStr "Internal server error"));
                      ("type", VStr type);
                      ("code", or_else (lookup "code" err) (VStr "unknown_error"))]
                     ++ (if isDevelopment && truthy (lookup "stack" err)
                         then [("stack", lookup "stack" err)] else [])))]).
Proof.
  intros isDevelopment type err Ht.
  unfold Middleware.route_catch, Middleware.errorHandler.
  rewrite lookup_assign_other by discriminate.
  rewrite lookup_assign_same.
  rewrite lookup_assign_same.
  rewrite !(lookup_assign_other "type") by discriminate.
  rewrite !(lookup_assign_other "statusCode") by discriminate.
  unfold or_else at 1. simpl.
  assert (Hty : or_else (VStr type) (VStr "internal_error") = VStr type).
  { unfold or_else. simpl. destruct type; [contradiction|reflexivity]. }
  rewrite Hty.
  destruct (isDevelopment && truthy (lookup "stack" err)); reflexivity.
Qed.

(** The exit error of the scenario, caught by [/v1/chat/completions] in
    production: status 500, no stack. *)
Lemma X21_executor_failures_are_500_witness :
  let err :=
    [("stack", VStr "Error: Claude process exited with code 1: rate limited");
     ("message", VStr "Claude process exited with code 1: rate limited")] in
  "claude_execution_error" <> EmptyString /\
  Middleware.route_catch false "claude_execution_error" err
  = (VNum 500,
     VObj [("error",
             VObj [("message",
                     VStr "Claude process exited with code 1: rate limited");
                   ("type", VStr "claude_execution_error");
                   ("code", VStr "unknown_error")])]).
Proof.
  intros err. split; [discriminate|].
  rewrite (X21_executor_failures_are_500 false "claude_execution_error" err
             ltac:(discriminate)).
  reflexivity.
Defined.

(** X22. With authentication enabled, a request passes [authMiddleware]
    exactly when it carries a non-empty key equal to the configured one; in
    particular, when no key is configured nothing passes, and an empty key
    never does. With authentication disabled everything passes. *)
Theorem X22_auth_passes_exactly_the_key :
  forall (auth : Middleware.auth_config) (providedKey : option string),
    (Middleware.authMiddleware auth providedKey = Middleware.Next
     <-> Middleware.enabled auth = false
         \/ exists k : string,
              providedKey = Some k /\ k <> EmptyString
              /\ Middleware.apiKey auth = Some k) /\
    (Middleware.enabled auth = true -> Middleware.apiKey auth = None ->
     Middleware.authMiddleware auth providedKey <> Middleware.Next).
Proof.
  intros auth providedKey. unfold Middleware.authMiddleware.
  destruct (Middleware.enabled auth); cbn [negb].
  - destruct providedKey as [k|].
    + destruct (is_empty k) eqn:Ek.
      * destruct k as [|a k]; [|discriminate Ek].
        split; [split|].
        -- intros H. discriminate H.
        -- intros [H|[k0 [H1 [H2 _]]]]; [discriminate H|].
           injection H1 as H1. subst k0. contradiction.
        -- intros _ _ H. discriminate H.
      * destruct (Middleware.apiKey auth) as [k'|].
        -- destruct (String.eqb k k') eqn:E.
           ++ apply String.eqb_eq in E. subst k'. split; [split|].
              ** intros _. right. exists k. split; [reflexivity|].
                 split; [|reflexivity]. intros Hk. subst k. discriminate Ek.
              ** intros _. reflexivity.
              ** intros _ H. discriminate H.
           ++ split; [split|].
              ** intros H. discriminate H.
              ** intros [H|[k0 [H1 [_ H3]]]]; [discriminate H|].
                 injection H1 as H1. injection H3 as H3. subst k0. subst k'.
                 rewrite String.eqb_refl in E. discriminate E.
              ** intros _ H. discriminate H.
        -- split; [split|].
           ++ intros H. discriminate H.
           ++ intros [H|[k0 [_ [_ H3]]]]; [discriminate H|discriminate H3].
           ++ intros _ _ H. discriminate H.
    + split; [split|].
      * intros H. discriminate H.
      * intros [H|[k0 [H1 _]]]; [discriminate H|discriminate H1].
      * intros _ _ H. discriminate H.
  - split; [split|].
    + intros _. left. reflexivity.
    + intros _. reflexivity.
    + intros H. discriminate H.
Qed.

(** Authentication switched on, [API_KEY] left unset: the key is refused. *)
Lemma X22_auth_passes_exactly_the_key_witness :
  let auth :=
    {| Middleware.enabled := true; Middleware.apiKey := None;
       Middleware.headerName := "X-API-Key" |} in
  Middleware.authMiddleware auth (Some "secret") <> Middleware.Next.
Proof.
  intros auth.
  exact (proj2 (X22_auth_passes_exactly_the_key auth (Some "secret"))
           eq_refl eq_refl).
Defined.

(** X23. [POST /api/rca] answers a request without a truthy prompt with 400
    [missing_prompt] and calls no executor; otherwise the prompt becomes the
    content of a single user message and, when it can be converted to a
    string, reaches the stdin of the backend as it is, without any label: the
    payload is the prompt converted to a string. A prompt that cannot be
    converted (an object with a [toString] of its own that is not a function)
    makes the executor raise [TypeError] before any process is started. *)
Theorem X23_rca_prompt_reaches_backend :
  forall (cfg : config) (body : props),
    (truthy (lookup "prompt" body) = false ->
     Middleware.rca_route cfg body
     = Server.Reply {| Server.status := 400;
                       Server.message := "prompt field is required";
                       Server.type := "invalid_request_error";
                       Server.code := "missing_prompt" |}) /\
    (truthy (lookup "prompt" body) = true ->
     exists (req : props) (opts : value),
       Middleware.rca_route cfg body = Server.RunBuffered req opts /\
       (printable (lookup "prompt" body) = true ->
        execute_to_spawn cfg req opts
        = Ok (_buildClaudeArgs cfg req (VStr "text") (VStr "json"),
              text_of (lookup "prompt" body))) /\
       (printable (lookup "prompt" body) = false ->
        execute_to_spawn cfg req opts = Throw TypeError)).
Proof.
  intros cfg body. unfold Middleware.rca_route.
  destruct (truthy (lookup "prompt" body)) eqn:Hp; cbn [negb].
  - split; [discriminate|]. intros _. eexists _, _. split; [reflexivity|].
    unfold execute_to_spawn. simpl.
    unfold _prepareInput. simpl.
    unfold join. cbn [forallb map String.concat]. rewrite andb_true_r.
    split; intros Hq; rewrite Hq; [|reflexivity].
    unfold elem_text.
    destruct (lookup "prompt" body); cbn [truthy] in Hp; try discriminate Hp;
      reflexivity.
  - split; [reflexivity|discriminate].
Qed.

(** A prompt of two lines; and the prompt [{toString: 1}]. *)
Lemma X23_rca_prompt_reaches_backend_witness :
  let body := [("prompt", VStr ("Why did the job fail?" ++ nl ++ "Exit code 137."))] in
  let odd := [("prompt", VObj [("toString", VNum 1)])] in
  (exists (req : props) (opts : value) (args : list value),
     Middleware.rca_route Spec.example_config body = Server.RunBuffered req opts /\
     execute_to_spawn Spec.example_config req opts
     = Ok (args, "Why did the job fail?" ++ nl ++ "Exit code 137.")) /\
  (exists (req : props) (opts : value),
     Middleware.rca_route Spec.example_config odd = Server.RunBuffered req opts /\
     execute_to_spawn Spec.example_config req opts = Throw TypeError).
Proof.
  intros body odd. split.
  - destruct (proj2 (X23_rca_prompt_reaches_backend Spec.example_config body) eq_refl)
      as [req [opts [H1 [H2 _]]]].
    exists req, opts. eexists. split; [exact H1|exact (H2 eq_refl)].
  - destruct (proj2 (X23_rca_prompt_reaches_backend Spec.example_config odd) eq_refl)
      as [req [opts [H1 [_ H2]]]].
    exists req, opts. split; [exact H1|exact (H2 eq_refl)].
Defined.

Lemma parsed_lines_app (JSON_parse : string -> result value) (l1 l2 : list string) :
  parsed_lines JSON_parse (l1 ++ l2)
  = (parsed_lines JSON_parse l1 ++ parsed_lines JSON_parse l2)%list.
Proof.
  induction l1 as [|line l1 IH]; simpl; [reflexivity|].
  destruct (is_empty (trim line)); [exact IH|].
  destruct (JSON_parse line); [rewrite IH; reflexivity|exact IH].
Qed.

Lemma parsed_lines_passed_over (JSON_parse : string -> result value)
    (lines : list string) :
  forallb (Props.passed_over JSON_parse) lines = true ->
  parsed_lines JSON_parse lines = [].
Proof.
  induction lines as [|line lines IH]; simpl; intros H; [reflexivity|].
  apply andb_prop in H. destruct H as [Hl Hr]. unfold Props.passed_over in Hl.
  destruct (is_empty (trim line)); [exact (IH Hr)|]. simpl in Hl.
  destruct (JSON_parse line); [discriminate Hl|exact (IH Hr)].
Qed.

(** X24. [_parseStreamJson] never raises and returns the value of the last
    line of the output that is not blank and parses as JSON, when that value
    is truthy; when no line parses (the output is empty, or garbage), it
    returns the object [{content: ''}]. *)
Theorem X24_parseStreamJson_last_line :
  forall (JSON_parse : string -> result value) (output : string),
    (forall (before after : list string) (line : string) (v : value),
       split "010"%char (trim output) = (before ++ line :: after)%list ->
       is_empty (trim line) = false ->
       JSON_parse line = Ok v ->
       truthy v = true ->
       forallb (Props.passed_over JSON_parse) after = true ->
       _parseStreamJson JSON_parse output = v) /\
    (forallb (Props.passed_over JSON_parse) (split "010"%char (trim output)) = true ->
     _parseStreamJson JSON_parse output = VObj [("content", VStr EmptyString)]).
Proof.
  intros JSON_parse output. unfold _parseStreamJson. split.
  - intros before after line v Hs Hb Hp Hv Ha.
    rewrite Hs, parsed_lines_app. simpl. rewrite Hb, Hp.
    rewrite (parsed_lines_passed_over JSON_parse after Ha).
    rewrite last_last. unfold or_else. rewrite Hv. reflexivity.
  - intros H. rewrite (parsed_lines_passed_over JSON_parse _ H). reflexivity.
Qed.

(** A system event, the result event, a line of garbage, a blank line.
    And an output that is the result event between a byte order mark and a
    no-break space, which [trim] removes. *)
Lemma X24_parseStreamJson_last_line_witness :
  let result_line :=
    ("{" ++ quote "type" ++ ":" ++ quote "result" ++ ","
     ++ quote "result" ++ ":" ++ quote "4" ++ "}")%string in
  let output :=
    ("{" ++ quote "type" ++ ":" ++ quote "system" ++ "}" ++ nl
     ++ result_line ++ nl ++ "garbage" ++ nl ++ "  " ++ nl ++ "x")%string in
  _parseStreamJson Json.JSON_parse output
  = VObj [("type", VStr "result"); ("result", VStr "4")] /\
  _parseStreamJson Json.JSON_parse (Spec.bom ++ result_line ++ Spec.nbsp ++ nl)
  = VObj [("type", VStr "result"); ("result", VStr "4")] /\
  _parseStreamJson Json.JSON_parse (Spec.nbsp ++ nl ++ Spec.bom)
  = VObj [("content", VStr EmptyString)].
Proof.
  intros result_line output. split; [|split].
  - exact (proj1 (X24_parseStreamJson_last_line Json.JSON_parse output)
             [("{" ++ quote "type" ++ ":" ++ quote "system" ++ "}")%string]
             ["garbage"; "  "; "x"] result_line _
             eq_refl eq_refl eq_refl eq_refl eq_refl).
  - exact (proj1 (X24_parseStreamJson_last_line Json.JSON_parse
                    (Spec.bom ++ result_line ++ Spec.nbsp ++ nl))
             [] [] result_line _ eq_refl eq_refl eq_refl eq_refl eq_refl).
  - exact (proj2 (X24_parseStreamJson_last_line Json.JSON_parse
                    (Spec.nbsp ++ nl ++ Spec.bom)) eq_refl).
Defined.

(* ================================================================== *)
(** ** Further properties of the response translation *)
(* ================================================================== *)

Lemma filter_text_outcome (blocks : list value) :
  (existsb nullish blocks = true -> filter_text blocks = Throw TypeError) /\
  (existsb nullish blocks = false ->
   filter_text blocks = Ok (Spec.text_blocks blocks)).
Proof.
  induction blocks as [|b rest [IH1 IH2]]; simpl.
  - split; [discriminate|reflexivity].
  - destruct (nullish b) eqn:Hn; simpl.
    + split; [|discriminate]. intros _. rewrite (get_nullish b "type" Hn).
      reflexivity.
    + rewrite (get_not_nullish b "type" Hn). simpl. split; intros H.
      * rewrite (IH1 H). reflexivity.
      * rewrite (IH2 H). simpl.
        destruct (eq_str (get_opt b "type") "text"); reflexivity.
Qed.

Lemma extract_content_outcome (raw : value) :
  (nullish raw || Props.content_fails raw = true ->
   extract_content raw = Throw TypeError) /\
  (nullish raw || Props.content_fails raw = false ->
   exists c, extract_content raw = Ok c).
Proof.
  unfold Props.content_fails, extract_content.
  destruct raw as [| |b|n| |s|xs|fields];
    cbn [nullish is_string negb andb orb get get_opt bind truthy is_empty];
    try (split; [discriminate|intros _; eexists; reflexivity]);
    try (split; [reflexivity|discriminate]).
  destruct (truthy (lookup "result" fields)); cbn [negb andb];
    [split; [discriminate|intros _; eexists; reflexivity]|].
  destruct (lookup "content" fields) as [| |b|n| |s|blocks|fs] eqn:Hc;
    cbn [truthy];
    try (split; [discriminate|intros _];
         repeat match goal with
                | |- context [if ?b then _ else _] => destruct b
                end; eexists; reflexivity).
  destruct (filter_text_outcome blocks) as [F1 F2].
  destruct (existsb nullish blocks) eqn:Hn; cbn [orb].
  - split; [|discriminate]. intros _. rewrite (F1 eq_refl). reflexivity.
  - rewrite (F2 eq_refl). cbn [bind].
    rewrite (map_text_total _ (text_blocks_not_nullish blocks)). cbn [bind].
    fold (Spec.block_texts blocks). unfold join.
    destruct (forallb printable (Spec.block_texts blocks)); cbn [negb bind].
    + split; [discriminate|]. intros _. eexists. reflexivity.
    + split; [reflexivity|discriminate].
Qed.

(** [+] raises exactly when one of its operands cannot be converted. *)
Lemma add_outcome (a b : value) :
  (printable a && printable b = false -> add a b = Throw TypeError) /\
  (printable a && printable b = true -> exists total, add a b = Ok total).
Proof.
  assert (Hs : forall v, printable v = false -> stringy v = true).
  { intros v. destruct v; try discriminate; reflexivity. }
  unfold add, to_string.
  destruct (printable a) eqn:Ha; destruct (printable b) eqn:Hb; cbn [andb].
  - split; [discriminate|]. intros _.
    destruct (stringy a || stringy b); cbn [bind]; eexists; reflexivity.
  - rewrite (Hs b Hb), orb_true_r. cbn [bind].
    split; [reflexivity|discriminate].
  - rewrite (Hs a Ha). cbn [orb bind]. split; [reflexivity|discriminate].
  - rewrite (Hs a Ha). cbn [orb bind]. split; [reflexivity|discriminate].
Qed.

(** X25. [_convertToOpenAiFormat] raises in these cases only, all with
    [TypeError]: when the parsed output is [null]; when it is an object with
    a falsy result whose content is a list holding [null] or a text block
    whose text cannot be converted to a string; and when one of the two token
    counts cannot be converted for the addition (an object with a [toString]
    of its own that is not a function, or a list holding one). On every other
    value (objects of any shape, strings, numbers, booleans, arrays) it
    returns a response. *)
Theorem X25_convert_raises_exactly :
  forall (raw mdl : value) (requestId : string) (now : Z),
    (Props.convert_fails raw = true ->
     _convertToOpenAiFormat raw mdl requestId now = Throw TypeError) /\
    (Props.convert_fails raw = false ->
     exists r : Response, _convertToOpenAiFormat raw mdl requestId now = Ok r).
Proof.
  intros raw mdl requestId now.
  unfold _convertToOpenAiFormat, Props.convert_fails, Props.counts_fail.
  destruct (extract_content_outcome raw) as [E1 E2].
  destruct (nullish raw || Props.content_fails raw) eqn:Hf.
  - split; [|discriminate]. intros _. rewrite (E1 eq_refl). reflexivity.
  - destruct (E2 eq_refl) as [c Hc]. rewrite Hc. cbn [bind orb].
    assert (Hn : nullish raw = false).
    { apply orb_false_elim in Hf. exact (proj1 Hf). }
    rewrite !(get_not_nullish raw _ Hn). cbn [bind].
    destruct (add_outcome
                (or_else (get_opt (get_opt raw "usage") "input_tokens") (VNum 0))
                (or_else (get_opt (get_opt raw "usage") "output_tokens") (VNum 0)))
      as [A1 A2].
    rewrite <- negb_andb.
    destruct (printable
                (or_else (get_opt (get_opt raw "usage") "input_tokens") (VNum 0))
              && printable
                   (or_else (get_opt (get_opt raw "usage") "output_tokens") (VNum 0))).
    + split; [discriminate|]. intros _.
      destruct (A2 eq_refl) as [total Ht]. rewrite Ht. eexists. reflexivity.
    + split; [|discriminate]. intros _. rewrite (A1 eq_refl). reflexivity.
Qed.

(** The backend prints [null]; a bare number; an object whose input count
    is [{toString: 1}]; a text block whose text is that object. *)
Lemma X25_convert_raises_exactly_witness :
  let odd := VObj [("toString", VNum 1)] in
  _convertToOpenAiFormat VNull (VStr "sonnet") "r1" 0 = Throw TypeError /\
  (exists r : Response,
     _convertToOpenAiFormat (VNum 42) (VStr "sonnet") "r1" 0 = Ok r) /\
  _convertToOpenAiFormat
    (VObj [("result", VStr "4"); ("usage", VObj [("input_tokens", odd)])])
    (VStr "sonnet") "r1" 0
  = Throw TypeError /\
  _convertToOpenAiFormat
    (VObj [("content", VArr [VObj [("type", VStr "text"); ("text", odd)]])])
    (VStr "sonnet") "r1" 0
  = Throw TypeError.
Proof.
  intros odd. split; [|split; [|split]].
  - exact (proj1 (X25_convert_raises_exactly VNull (VStr "sonnet") "r1" 0) eq_refl).
  - exact (proj2 (X25_convert_raises_exactly (VNum 42) (VStr "sonnet") "r1" 0) eq_refl).
  - exact (proj1 (X25_convert_raises_exactly
                    (VObj [("result", VStr "4");
                           ("usage", VObj [("input_tokens", odd)])])
                    (VStr "sonnet") "r1" 0) eq_refl).
  - exact (proj1 (X25_convert_raises_exactly
                    (VObj [("content",
                             VArr [VObj [("type", VStr "text"); ("text", odd)]])])
                    (VStr "sonnet") "r1" 0) eq_refl).
Defined.

(** X26. When the parsed output is not an object, the translation falls
    back: a string becomes the content as it is, any other value (a number,
    a boolean, an array) gives the empty content; the finish reason is
    ["stop"] and the three token counts are 0. *)
Theorem X26_convert_non_object :
  forall (raw mdl : value) (requestId : string) (now : Z),
    nullish raw = false ->
    Props.is_object raw = false ->
    _convertToOpenAiFormat raw mdl requestId now
    = Ok {| id := "chatcmpl-" ++ requestId;
            object := "chat.completion";
            created := now / 1000;
            model := mdl;
            choices :=
              [ {| index := 0;
                   message :=
                     {| role := "assistant";
                        content := if is_string raw then raw else VStr EmptyString |};
                   finish_reason := VStr "stop" |} ];
            usage := {| prompt_tokens := VNum 0; completion_tokens := VNum 0;
                        total_tokens := VNum 0 |} |}.
Proof.
  intros raw mdl requestId now Hn Ho.
  destruct raw; try discriminate Hn; try discriminate Ho; reflexivity.
Qed.

Lemma X26_convert_non_object_witness :
  exists r : Response,
    _convertToOpenAiFormat (VStr "4") (VStr "sonnet") "r1" 0 = Ok r /\
    map (fun c => content (message c)) (choices r) = [VStr "4"] /\
    total_tokens (usage r) = VNum 0.
Proof.
  eexists. split.
  - exact (X26_convert_non_object (VStr "4") (VStr "sonnet") "r1" 0 eq_refl eq_refl).
  - split; reflexivity.
Defined.

(** X27. [/v1/messages] checks only that the messages form a non-empty
    array: a request whose array holds [null] is handed to the executor,
    where building the stdin payload raises [TypeError] before any
    subprocess is spawned. *)
Theorem X27_messages_route_null_message :
  forall (cfg : config) (body : props) (msgs : list value),
    lookup "messages" body = VArr msgs ->
    existsb nullish msgs = true ->
    exists (req : props) (opts : value),
      Server.messages_route cfg body = Server.RunBuffered req opts /\
      execute_to_spawn cfg req opts = Throw TypeError.
Proof.
  intros cfg body msgs Hm Hn. unfold Server.messages_route. rewrite Hm.
  destruct msgs as [|m ms]; [discriminate Hn|].
  eexists _, _. split; [reflexivity|].
  unfold execute_to_spawn.
  change (formats_of
            (VObj [("input_format", VStr "text"); ("output_format", VStr "json")]))
    with (@Ok (value * value) (VStr "text", VStr "json")).
  cbn [bind fst snd]. unfold _prepareInput.
  change (eq_str (VStr "text") "stream-json") with false. cbv iota.
  match goal with
  | |- context [lookup "messages" ?r] =>
      change (lookup "messages" r) with (VArr (m :: ms))
  end.
  cbn [iterate bind].
  rewrite (textParts_no_null (m :: ms) Hn). reflexivity.
Qed.

Lemma X27_messages_route_null_message_witness :
  let body :=
    [("messages",
       VArr [VObj [("role", VStr "user"); ("content", VStr "hi")]; VNull])] in
  exists (req : props) (opts : value),
    Server.messages_route Spec.example_config body = Server.RunBuffered req opts /\
    execute_to_spawn Spec.example_config req opts = Throw TypeError.
Proof.
  intros body.
  exact (X27_messages_route_null_message Spec.example_config body _ eq_refl eq_refl).
Defined.
